(** * Cataloog BP: the TMDB client (lib/tmdb) and the catalogue handler (index.js)

    A shallow embedding of the two source files of the add-on, and the
    properties of its caching, identifier resolution, record formatting and
    dispatch.

    Conventions of the embedding.
    - A JavaScript number that holds an integer is a [Z]; [NaN] is [None]
      where a function can produce it.  JavaScript numbers are doubles: the
      integer that [parseInt] reads and the results of the division and of the
      addition of the handler are rounded as doubles are ([to_double],
      [floor_div], [add]), so they are the integers the code computes, also
      beyond 2^53.  The embedding has no infinite number (a number of 2^1024
      or more, read from more than 308 digits), and it writes every integer in
      decimal, as JavaScript does below 10^21.
    - A JavaScript string is a [string]: the bytes of its UTF-8 encoding.  The
      strings the code cuts or compares (dates, identifiers, keys) are ASCII,
      where a byte is a character.
    - [undefined] and [null] are [None] where the code does not tell them
      apart, and the two constructors [VUndef], [VNull] where it does.
    - An [async] function is a computation in the monad [M] over the [World]:
      the two caches, the clock read by [Date.now()], the list of requests
      handed to [fetch], the console, and the behaviour of the upstream server. *)

From Stdlib Require Import ZArith QArith List String Ascii Lia.
From stdpp Require Import base option list gmap strings pretty.

Local Open Scope Z_scope.

(** ** JavaScript values and the built-ins the code calls *)

Module Js.

(** The values that reach a template literal, [parseInt] or
    [url.searchParams.set]: [undefined], [null], an integer, a decimal literal
    of the source such as [7.5] (integer part and digits of the fraction), and
    a string. *)
Inductive JsVal : Type :=
| VUndef
| VNull
| VNum (n : Z)
| VDec (whole : Z) (fraction : string)
| VStr (s : string).

(** [String(v)], the conversion applied by template literals, by [parseInt]
    and by [URLSearchParams.set].  An integer is written in decimal, which is
    what JavaScript does for a number below 10^21. *)
Definition to_string (v : JsVal) : string :=
  match v with
  | VUndef => "undefined"
  | VNull => "null"
  | VNum n => pretty n
  | VDec w f => pretty w +:+ "." +:+ f
  | VStr s => s
  end.

(** [v !== undefined && v !== null] *)
Definition is_nullish (v : JsVal) : bool :=
  match v with
  | VUndef | VNull => true
  | _ => false
  end.

(** Truthiness of an optional string: [undefined], [null] and [""] are falsy. *)
Definition truthy_str (o : option string) : bool :=
  match o with
  | Some (String _ _) => true
  | _ => false
  end.

(** Truthiness of an optional integer: [undefined], [null] and [0] are falsy. *)
Definition truthy_num (o : option Z) : bool :=
  match o with
  | Some n => negb (n =? 0)
  | None => false
  end.

(** [a || b] on optional strings. *)
Definition or_str (a b : option string) : option string :=
  if truthy_str a then a else b.

(** [s.substring(start, end)] for [start <= end]: the characters from
    [start] up to, not including, [end], and fewer when the string is
    shorter. *)
Definition substring (start end_ : nat) (s : string) : string :=
  String.substring start (end_ - start) s.

(** [o?.substring(start, end)]: [undefined] when [o] is [undefined] or
    [null]. *)
Definition opt_substring (start end_ : nat) (o : option string) : option string :=
  substring start end_ <$> o.

(** The first occurrence of [pat] in [s] replaced by [rep]:
    [s.replace(pat, rep)] with a string pattern. *)
Fixpoint strip_prefix (pat s : string) : option string :=
  match pat, s with
  | EmptyString, _ => Some s
  | String a pat', String b s' =>
      if Ascii.eqb a b then strip_prefix pat' s' else None
  | String _ _, EmptyString => None
  end.

Fixpoint replace (pat rep s : string) : string :=
  match strip_prefix pat s with
  | Some rest => rep +:+ rest
  | None =>
      match s with
      | EmptyString => EmptyString
      | String c s' => String c (replace pat rep s')
      end
  end.

(** The white space skipped by [parseInt] (StrWhiteSpaceChar: WhiteSpace and
    LineTerminator), in UTF-8.  One byte: TAB, LF, VT, FF, CR, SP. *)
Definition is_white_space (c : ascii) : bool :=
  let n := nat_of_ascii c in
  ((9 <=? n)%nat && (n <=? 13)%nat) || (n =? 32)%nat.

(** Two bytes: U+00A0 (no-break space), [C2 A0]. *)
Definition is_white_space2 (c1 c2 : ascii) : bool :=
  (nat_of_ascii c1 =? 194)%nat && (nat_of_ascii c2 =? 160)%nat.

(** Three bytes: U+1680 [E1 9A 80]; U+2000 to U+200A [E2 80 80] to
    [E2 80 8A]; U+2028 and U+2029 [E2 80 A8], [E2 80 A9]; U+202F [E2 80 AF];
    U+205F [E2 81 9F]; U+3000 [E3 80 80]; U+FEFF [EF BB BF]. *)
Definition is_white_space3 (c1 c2 c3 : ascii) : bool :=
  let n1 := nat_of_ascii c1 in
  let n2 := nat_of_ascii c2 in
  let n3 := nat_of_ascii c3 in
  ((n1 =? 225) && (n2 =? 154) && (n3 =? 128))%nat
  || ((n1 =? 226) && (n2 =? 128)
      && (((128 <=? n3) && (n3 <=? 138)) || (n3 =? 168) || (n3 =? 169) || (n3 =? 175)))%nat
  || ((n1 =? 226) && (n2 =? 129) && (n3 =? 159))%nat
  || ((n1 =? 227) && (n2 =? 128) && (n3 =? 128))%nat
  || ((n1 =? 239) && (n2 =? 187) && (n3 =? 191))%nat.

(** The first byte of a white space character of two or three bytes. *)
Definition is_white_space_lead (c : ascii) : bool :=
  let n := nat_of_ascii c in
  ((n =? 194) || (n =? 225) || (n =? 226) || (n =? 227) || (n =? 239))%nat.

Fixpoint trim_start (s : string) : string :=
  match s with
  | EmptyString => EmptyString
  | String c1 s1 =>
      if is_white_space c1 then trim_start s1
      else if is_white_space_lead c1 then
        match s1 with
        | String c2 s2 =>
            if is_white_space2 c1 c2 then trim_start s2
            else
              match s2 with
              | String c3 s3 => if is_white_space3 c1 c2 c3 then trim_start s3 else s
              | EmptyString => s
              end
        | EmptyString => s
        end
      else s
  end.

(** The value of a digit in radixes up to 36. *)
Definition digit_value (c : ascii) : option Z :=
  let n := Z.of_nat (nat_of_ascii c) in
  if (48 <=? n) && (n <=? 57) then Some (n - 48)
  else if (97 <=? n) && (n <=? 122) then Some (n - 97 + 10)
  else if (65 <=? n) && (n <=? 90) then Some (n - 65 + 10)
  else None.

(** The longest prefix of [s] made of digits of the radix, read as a number;
    [acc] is [None] until a digit has been read. *)
Fixpoint parse_digits (radix : Z) (acc : option Z) (s : string) : option Z :=
  match s with
  | EmptyString => acc
  | String c s' =>
      match digit_value c with
      | Some d =>
          if d <? radix
          then parse_digits radix (Some (default 0 acc * radix + d)) s'
          else acc
      | None => acc
      end
  end.

(** [parseInt(s)] without a radix: leading white space, an optional sign, an
    optional [0x]/[0X] prefix (radix 16, otherwise 10), then the longest run
    of digits; [None] is [NaN]. *)
Definition sign_of (s : string) : Z * string :=
  match s with
  | String "-" r => (-1, r)
  | String "+" r => (1, r)
  | _ => (1, s)
  end.

Definition radix_of (s : string) : Z * string :=
  match s with
  | String "0" (String "x" r) => (16, r)
  | String "0" (String "X" r) => (16, r)
  | _ => (10, s)
  end.

(** The integers from [-(2^53 - 1)] to [2^53 - 1] ([Number.isSafeInteger]):
    doubles hold them, and their neighbours, exactly. *)
Definition MAX_SAFE_INTEGER : Z := 2 ^ 53 - 1.

Definition safe_integer (n : Z) : Prop := Z.abs n <= MAX_SAFE_INTEGER.

(** The integers that a number of JavaScript can hold are below 2^1024 in
    magnitude ([Number.isFinite]). *)
Definition finite (n : Z) : Prop := Z.abs n < 2 ^ 1024.

(** The integer nearest to [num / den], the even one of the two on a tie. *)
Definition round_half_even (num den : Z) : Z :=
  let q := num / den in
  let r := num mod den in
  if 2 * r <? den then q
  else if den <? 2 * r then q + 1
  else if Z.even q then q else q + 1.

(** The double nearest to an integer, which is the number that JavaScript
    holds for it: the integer itself when it has at most 53 bits, and
    otherwise its 53 leading bits, rounded to nearest, ties to even.  The
    result is [finite] for an integer below 2^1024 - 2^970 in magnitude; from
    there on JavaScript has [Infinity], which the embedding does not have,
    and the result is not [finite]. *)
Definition to_double (n : Z) : Z :=
  let shift := Z.log2 (Z.abs n) - 52 in
  if shift <=? 0 then n
  else Z.sgn n * (round_half_even (Z.abs n) (2 ^ shift) * 2 ^ shift).

(** The number read is the double nearest to the integer that the digits
    write (V8 reads all the digits, however many). *)
Definition parseInt_string (s : string) : option Z :=
  let '(sign, s2) := sign_of (trim_start s) in
  let '(radix, s3) := radix_of s2 in
  (fun n => to_double (sign * n)) <$> parse_digits radix None s3.

(** [parseInt(v)]: the argument is first converted to a string. *)
Definition parseInt (v : JsVal) : option Z := parseInt_string (to_string v).

(** [x || 0] on a number: [NaN] and [0] give [0]. *)
Definition or_zero (x : option Z) : Z := default 0 x.

(** [Math.floor(a / b)] for numbers that hold the integers [a] and [b > 0]:
    the quotient is a double, [a / b] rounded to 53 significant bits (to
    nearest, ties to even), and [Math.floor] is taken of that double.  [L] is
    the exponent of the quotient, [2^L <= |a| / b < 2^(L+1)], and [m] its
    significand, [2^52 <= m <= 2^53], so that the double is [m * 2^(L-52)].
    (The quotient of an integer other than 0 by 20 is 1/20 or more in
    magnitude: it is a normal double.) *)
Definition floor_div (a b : Z) : Z :=
  if a =? 0 then 0
  else
    let l := Z.log2 (Z.abs a) - Z.log2 b in
    let L := if Z.abs a * 2 ^ Z.max 0 (- l) <? b * 2 ^ Z.max 0 l then l - 1 else l in
    let e := L - 52 in
    let m := round_half_even (Z.abs a * 2 ^ Z.max 0 (- e)) (b * 2 ^ Z.max 0 e) in
    if 0 <=? e then Z.sgn a * m * 2 ^ e else (Z.sgn a * m) / 2 ^ (- e).

(** [a + b] for numbers that hold the integers [a] and [b]. *)
Definition add (a b : Z) : Z := to_double (a + b).

(** [x.toFixed(1)] for a number whose exact value is the rational [x]: the
    integer [n] with [n / 10] closest to [|x|] (the larger one on a tie),
    written with one digit after the point, after a [-] when [x < 0]. *)
Definition toFixed1 (x : Q) : string :=
  let num := Z.abs (Qnum x) in
  let den := Zpos (Qden x) in
  let n := (2 * 10 * num + den) / (2 * den) in
  let digits := pretty (n / 10) +:+ "." +:+ pretty (n mod 10) in
  if Qnum x <? 0 then "-" +:+ digits else digits.

End Js.

(** ** lib/tmdb: the TMDB client *)

Module Raw.
(** A record of an upstream listing ([data.results[i]]).  Every field may be
    missing or [null]; [vote_average] is the exact value of the number. *)
Record t : Type := mk {
  id : option Z;
  title : option string;
  original_title : option string;
  name : option string;
  original_name : option string;
  overview : option string;
  release_date : option string;
  first_air_date : option string;
  vote_average : option Q;
  genre_ids : option (list Z)
}.
End Raw.

Module Meta.
(** The object returned by [_formatMovie] and [_formatSeries]. *)
Record t : Type := mk {
  id : string;
  imdb_id : string;
  type : string;
  name : option string;
  poster : string;
  background : string;
  logo : string;
  description : option string;
  releaseInfo : option string;
  imdbRating : option string;
  year : option string;
  genres : list string
}.
End Meta.

Module TMDB.
Import Js.

Definition TMDB_BASE_URL : string := "https://api.themoviedb.org/3".
Definition METAHUB_URL : string := "https://images.metahub.space".

(** The own properties of [GENRE_MAP], in the order of the source. *)
Definition GENRE_MAP_entries : list (Z * string) :=
  [ (28, "Action"); (12, "Adventure"); (16, "Animation"); (35, "Comedy");
    (80, "Crime"); (99, "Documentary"); (18, "Drama"); (10751, "Family");
    (14, "Fantasy"); (36, "History"); (27, "Horror"); (10402, "Music");
    (9648, "Mystery"); (10749, "Romance"); (878, "Sci-Fi");
    (10770, "TV Movie"); (53, "Thriller"); (10752, "War"); (37, "Western");
    (10759, "Action & Adventure"); (10762, "Kids"); (10763, "News");
    (10764, "Reality"); (10765, "Sci-Fi & Fantasy"); (10766, "Soap");
    (10767, "Talk"); (10768, "War & Politics") ].

Definition GENRE_MAP : gmap Z string := list_to_map GENRE_MAP_entries.

(** [CACHE_TTL = 30 * 60 * 1000] milliseconds. *)
Definition CACHE_TTL : Z := 30 * 60 * 1000.

(** [(movie.genre_ids || []).map(id => GENRE_MAP[id]).filter(Boolean)] *)
Definition genreNames (genre_ids : option (list Z)) : list string :=
  omap (fun id => GENRE_MAP !! id) (default [] genre_ids).

(** *** The world the client runs in *)

(** A [URL] object: everything before the query, and [url.searchParams]. *)
Record Url : Type := mkUrl {
  href : string;
  searchParams : list (string * string)
}.

(** What [response.json()] gives for a body that parses (an object): the two
    properties the client reads. *)
Record Data : Type := mkData {
  imdb_id : option string;
  results : option (list (option Raw.t))
}.

(** The outcome of one [fetch(url)]: the promise rejects, or it resolves to a
    response with [ok], [status] and a body ([None] when [response.json()]
    rejects). *)
Inductive Response : Type :=
| Rejected
| Responded (ok : bool) (status : Z) (json : option Data).

(** What the upstream does with a request: the time until the outcome is
    known, and the outcome. *)
Record Reply : Type := mkReply {
  elapsed : N;
  response : Response
}.

(** The errors that travel through the client. *)
Inductive Error : Type :=
| FetchError               (* [fetch] rejected *)
| ApiError (status : Z)    (* [new Error(`TMDB API error: ${response.status}`)] *)
| JsonError                (* [response.json()] rejected *)
| TypeError.               (* a property read or a call on [undefined] *)

(** An entry of the response cache: [{ data, timestamp }]. *)
Record CacheEntry : Type := mkEntry {
  data : list Meta.t;
  timestamp : Z
}.

(** The lines written to the console. *)
Inductive LogLine : Type :=
| CacheHit (key : string)                       (* [TMDB] Cache hit: key *)
| CacheMiss (key : string)                      (* [TMDB] Cache miss: key *)
| CatalogRequested (id type : string)           (* Catalogue demandé: id (type: type) *)
| CatalogUnknown (catalogId : string)           (* Catalogue inconnu: catalogId *)
| CatalogResults (n : nat) (name : string)      (* n résultats pour name *)
| CatalogError (id : string) (error : Error).   (* Erreur catalogue id: message *)

(** The state of the process and of its environment.
    - [cache]: the module-level [Map] of the response cache;
    - [imdbCache]: [this.imdbCache] of the one client, a [Map] whose values
      are an IMDb id or [null] ([None]);
    - [clock]: what [Date.now()] returns;
    - [requests]: the URLs handed to [fetch] so far, oldest first;
    - [console]: the lines logged so far, oldest first;
    - [upstream]: the reply of the remote API to the [n]-th request. It is
      never written. *)
Record World : Type := mkWorld {
  cache : gmap string CacheEntry;
  imdbCache : gmap string (option string);
  clock : Z;
  requests : list Url;
  console : list LogLine;
  upstream : nat -> Url -> Reply
}.

Definition set_cache (f : gmap string CacheEntry -> gmap string CacheEntry) (w : World) : World :=
  mkWorld (f (cache w)) (imdbCache w) (clock w) (requests w) (console w) (upstream w).
Definition set_imdbCache (f : gmap string (option string) -> gmap string (option string)) (w : World) : World :=
  mkWorld (cache w) (f (imdbCache w)) (clock w) (requests w) (console w) (upstream w).
Definition set_clock (f : Z -> Z) (w : World) : World :=
  mkWorld (cache w) (imdbCache w) (f (clock w)) (requests w) (console w) (upstream w).
Definition set_requests (f : list Url -> list Url) (w : World) : World :=
  mkWorld (cache w) (imdbCache w) (clock w) (f (requests w)) (console w) (upstream w).
Definition set_console (f : list LogLine -> list LogLine) (w : World) : World :=
  mkWorld (cache w) (imdbCache w) (clock w) (requests w) (f (console w)) (upstream w).

(** *** Computations: a state monad with exceptions *)

Inductive Result (A : Type) : Type :=
| Ok (a : A)
| Thrown (e : Error).
Arguments Ok {A} a.
Arguments Thrown {A} e.

Definition M (A : Type) : Type := World -> Result A * World.

Definition ret {A} (a : A) : M A := fun w => (Ok a, w).

Definition bind {A B} (m : M A) (k : A -> M B) : M B := fun w =>
  match m w with
  | (Ok a, w') => k a w'
  | (Thrown e, w') => (Thrown e, w')
  end.

Definition throw {A} (e : Error) : M A := fun w => (Thrown e, w).

(** [try { body } catch (error) { handler }] *)
Definition try_catch {A} (body : M A) (handler : Error -> M A) : M A := fun w =>
  match body w with
  | (Ok a, w') => (Ok a, w')
  | (Thrown e, w') => handler e w'
  end.

Definition gets {A} (f : World -> A) : M A := fun w => (Ok (f w), w).
Definition modify (f : World -> World) : M unit := fun w => (Ok tt, f w).

Declare Scope js_scope.
Delimit Scope js_scope with js.
Notation "'let*' x ':=' m 'in' k" := (bind m (fun x => k))
  (at level 10, x name, m at level 100, k at level 200) : js_scope.
Notation "'do' m ';' k" := (bind m (fun _ => k))
  (at level 10, m at level 100, k at level 200) : js_scope.
Local Open Scope js_scope.

(** [Date.now()] *)
Definition Date_now : M Z := gets clock.

(** [console.log(...)] and [console.error(...)] *)
Definition console_log (line : LogLine) : M unit :=
  modify (set_console (fun ls => ls ++ [line])).

(** *** The class [TMDBClient] *)

(** The fields set by the constructor ([this.imdbCache] is in the [World]:
    the add-on creates one client). *)
Record TMDBClient : Type := mkClient {
  apiKey : string;
  language : string
}.

(** [url.searchParams.set(key, value)]: the first pair with the key takes the
    value and the other pairs with the key go; without one, the pair is
    appended. *)
Fixpoint searchParams_set (key value : string) (ps : list (string * string))
  : list (string * string) :=
  match ps with
  | [] => [(key, value)]
  | (k, v) :: ps' =>
      if String.eqb k key
      then (key, value) :: List.filter (fun p => negb (String.eqb (fst p) key)) ps'
      else (k, v) :: searchParams_set key value ps'
  end.

(** [url.searchParams.get(key)] and [url.searchParams.has(key)] *)
Fixpoint searchParams_get (key : string) (ps : list (string * string)) : option string :=
  match ps with
  | [] => None
  | (k, v) :: ps' => if String.eqb k key then Some v else searchParams_get key ps'
  end.

Definition searchParams_has (key : string) (ps : list (string * string)) : bool :=
  bool_decide (is_Some (searchParams_get key ps)).

Definition url_set (key value : string) (url : Url) : Url :=
  mkUrl (href url) (searchParams_set key value (searchParams url)).

(** The loop of [_fetch] over [Object.entries(params)]: the properties in
    the order they are written, those whose value is [undefined] or [null]
    skipped. *)
Definition set_params (params : list (string * JsVal)) (url : Url) : Url :=
  fold_left
    (fun url '(key, value) =>
       if negb (is_nullish value) then url_set key (to_string value) url else url)
    params url.

(** The URL that [_fetch(endpoint, params)] builds before it calls [fetch]
    (no endpoint of the client contains a [?]). *)
Definition request_url (this : TMDBClient) (endpoint : string)
    (params : list (string * JsVal)) : Url :=
  let url := mkUrl (TMDB_BASE_URL +:+ endpoint) [] in
  let url := url_set "api_key" (apiKey this) url in
  let url := url_set "language" (language this) url in
  set_params params url.

(** [fetch(url)] in two steps: the call hands the request to the network and
    gives a ticket (the rank of the request); awaiting its promise takes the
    time of the reply and settles with its outcome. *)
Definition fetch_send (url : Url) : M nat := fun w =>
  (Ok (length (requests w)), set_requests (fun rs => rs ++ [url]) w).

(** What [_fetch] makes of the outcome of [fetch]:
    [if (!response.ok) throw new Error(...); return response.json();] *)
Definition reply_data (r : Response) : Result Data :=
  match r with
  | Rejected => Thrown FetchError
  | Responded ok status json =>
      if negb ok then Thrown (ApiError status)
      else match json with
           | Some data => Ok data
           | None => Thrown JsonError
           end
  end.

(** Awaiting the promise of [fetch]: the time of the reply passes. *)
Definition fetch_receive (ticket : nat) (url : Url) : M Response := fun w =>
  let reply := upstream w ticket url in
  (Ok (response reply), set_clock (fun t => t + Z.of_N (elapsed reply)) w).

(** [_fetch] from the point where [await fetch(url.toString())] resumes. *)
Definition _fetch_resume (ticket : nat) (url : Url) : M Data :=
  let* r := fetch_receive ticket url in
  fun w => (reply_data r, w).

Definition _fetch (this : TMDBClient) (endpoint : string)
    (params : list (string * JsVal)) : M Data :=
  let url := request_url this endpoint params in
  let* ticket := fetch_send url in
  _fetch_resume ticket url.

(** Movies and series: [_getMovieImdbId] and [_getSeriesImdbId], and
    [_formatMovie] and [_formatSeries], differ by the strings below and by
    the fields they read. *)
Inductive Kind : Type := Movie | Series.

(** The key of [this.imdbCache]: [`movie_${tmdbId}`] or [`series_${tmdbId}`]. *)
Definition imdbKey (kind : Kind) (tmdbId : Z) : string :=
  match kind with
  | Movie => "movie_" +:+ pretty tmdbId
  | Series => "series_" +:+ pretty tmdbId
  end.

(** [`/movie/${tmdbId}/external_ids`] or [`/tv/${tmdbId}/external_ids`] *)
Definition external_ids (kind : Kind) (tmdbId : Z) : string :=
  match kind with
  | Movie => "/movie/" +:+ pretty tmdbId +:+ "/external_ids"
  | Series => "/tv/" +:+ pretty tmdbId +:+ "/external_ids"
  end.

(** Where a call of [_getMovieImdbId] stands when it first yields: it has
    returned the cached value, or its request is in flight. *)
Inductive Lookup : Type :=
| Known (imdbId : option string)
| Asked (ticket : nat) (url : Url).

(** [data.imdb_id || null] *)
Definition imdbId_of (data : Data) : option string :=
  if truthy_str (imdb_id data) then imdb_id data else None.

(** [_getMovieImdbId] up to [await this._fetch(...)], which has called
    [fetch]. *)
Definition getImdbId_begin (kind : Kind) (this : TMDBClient) (tmdbId : Z) : M Lookup :=
  let* has := gets (fun w => bool_decide (is_Some (imdbCache w !! imdbKey kind tmdbId))) in
  if (has : bool) then
    let* cachedId := gets (fun w => default None (imdbCache w !! imdbKey kind tmdbId)) in
    ret (Known cachedId)
  else
    let url := request_url this (external_ids kind tmdbId) [] in
    let* ticket := fetch_send url in
    ret (Asked ticket url).

(** [_getMovieImdbId] from there: the body of the [try] once the response is
    in, and the [catch]. *)
Definition getImdbId_end (kind : Kind) (tmdbId : Z) (l : Lookup) : M (option string) :=
  match l with
  | Known cachedId => ret cachedId
  | Asked ticket url =>
      try_catch
        (let* data := _fetch_resume ticket url in
         let imdbId := imdbId_of data in
         do modify (set_imdbCache (insert (imdbKey kind tmdbId) imdbId));
         ret imdbId)
        (fun error => ret None)
  end.

Definition getImdbId (kind : Kind) (this : TMDBClient) (tmdbId : Z) : M (option string) :=
  let* l := getImdbId_begin kind this tmdbId in
  getImdbId_end kind tmdbId l.

Definition _getMovieImdbId : TMDBClient -> Z -> M (option string) := getImdbId Movie.
Definition _getSeriesImdbId : TMDBClient -> Z -> M (option string) := getImdbId Series.

(** The object literal returned by [_formatMovie]. *)
Definition movieMeta (imdbId : string) (movie : Raw.t) : Meta.t :=
  {| Meta.id := imdbId;
     Meta.imdb_id := imdbId;
     Meta.type := "movie";
     Meta.name := or_str (Raw.title movie) (Raw.original_title movie);
     Meta.poster := METAHUB_URL +:+ "/poster/medium/" +:+ imdbId +:+ "/img";
     Meta.background := METAHUB_URL +:+ "/background/medium/" +:+ imdbId +:+ "/img";
     Meta.logo := METAHUB_URL +:+ "/logo/medium/" +:+ imdbId +:+ "/img";
     Meta.description := Raw.overview movie;
     Meta.releaseInfo := opt_substring 0 4 (Raw.release_date movie);
     Meta.imdbRating := toFixed1 <$> Raw.vote_average movie;
     Meta.year := opt_substring 0 4 (Raw.release_date movie);
     Meta.genres := genreNames (Raw.genre_ids movie) |}.

(** The object literal returned by [_formatSeries]. *)
Definition seriesMeta (imdbId : string) (series : Raw.t) : Meta.t :=
  {| Meta.id := imdbId;
     Meta.imdb_id := imdbId;
     Meta.type := "series";
     Meta.name := or_str (Raw.name series) (Raw.original_name series);
     Meta.poster := METAHUB_URL +:+ "/poster/medium/" +:+ imdbId +:+ "/img";
     Meta.background := METAHUB_URL +:+ "/background/medium/" +:+ imdbId +:+ "/img";
     Meta.logo := METAHUB_URL +:+ "/logo/medium/" +:+ imdbId +:+ "/img";
     Meta.description := Raw.overview series;
     Meta.releaseInfo := opt_substring 0 4 (Raw.first_air_date series);
     Meta.imdbRating := toFixed1 <$> Raw.vote_average series;
     Meta.year := opt_substring 0 4 (Raw.first_air_date series);
     Meta.genres := genreNames (Raw.genre_ids series) |}.

Definition meta (kind : Kind) : string -> Raw.t -> Meta.t :=
  match kind with
  | Movie => movieMeta
  | Series => seriesMeta
  end.

(** Where a call of [_formatMovie] stands when it first yields: it has
    returned [null], or it awaits the IMDb id of its record. *)
Inductive Formatting : Type :=
| Dropped
| Resolving (record : Raw.t) (tmdbId : Z) (l : Lookup).

(** [_formatMovie] up to [await this._getMovieImdbId(movie.id)]:
    [if (!movie || !movie.id) return null]. *)
Definition format_begin (kind : Kind) (this : TMDBClient) (record : option Raw.t)
  : M Formatting :=
  match record with
  | None => ret Dropped
  | Some r =>
      match Raw.id r with
      | None => ret Dropped
      | Some tmdbId =>
          if tmdbId =? 0 then ret Dropped
          else
            let* l := getImdbId_begin kind this tmdbId in
            ret (Resolving r tmdbId l)
      end
  end.

(** [_formatMovie] from there: [if (!imdbId) return null], then the meta. *)
Definition format_end (kind : Kind) (f : Formatting) : M (option Meta.t) :=
  match f with
  | Dropped => ret None
  | Resolving r tmdbId l =>
      let* imdbId := getImdbId_end kind tmdbId l in
      match imdbId with
      | Some s => if truthy_str (Some s) then ret (Some (meta kind s r)) else ret None
      | None => ret None
      end
  end.

Definition format (kind : Kind) (this : TMDBClient) (record : option Raw.t)
  : M (option Meta.t) :=
  let* f := format_begin kind this record in
  format_end kind f.

Definition _formatMovie : TMDBClient -> option Raw.t -> M (option Meta.t) := format Movie.
Definition _formatSeries : TMDBClient -> option Raw.t -> M (option Meta.t) := format Series.

(** [for (const x of xs) ys.push(await f(x))] *)
Fixpoint mapM {A B} (f : A -> M B) (xs : list A) : M (list B) :=
  match xs with
  | [] => ret []
  | x :: xs' =>
      let* y := f x in
      let* ys := mapM f xs' in
      ret (y :: ys)
  end.

(** [await Promise.all(xs.map(x => f(x)))] for an [async] function [f] that
    yields once: [map] runs every call up to its first wait, in the order of
    the list, before any of them resumes; then each resumes.  The calls are
    resumed here in the order of the list (the order in which replies arrive
    is not fixed by the code; the value at each position does not depend on
    it, and the clock is moved by the time of each reply in turn). *)
Definition Promise_all_map {A P B} (begin : A -> M P) (resume : P -> M B)
    (xs : list A) : M (list B) :=
  let* pending := mapM begin xs in
  mapM resume pending.

(** [results.filter(Boolean)] on a list of objects and [null]s. *)
Definition filter_Boolean {A} (xs : list (option A)) : list A := omap id xs.

(** The body shared by every listing:
    [const data = await this._fetch(endpoint, params);
     const results = await Promise.all(data.results.map(m => this._formatMovie(m)));
     return results.filter(Boolean);] *)
Definition listing (kind : Kind) (this : TMDBClient) (endpoint : string)
    (params : list (string * JsVal)) : M (list Meta.t) :=
  let* data := _fetch this endpoint params in
  match results data with
  | None => throw TypeError
  | Some records =>
      let* results := Promise_all_map (format_begin kind this) (format_end kind) records in
      ret (filter_Boolean results)
  end.

(** [cached(key, fn)] *)
Definition cached (key : string) (fn : M (list Meta.t)) : M (list Meta.t) :=
  let* now := Date_now in
  let* entry := gets (fun w => cache w !! key) in
  let miss :=
    do console_log (CacheMiss key);
    let* data := fn in
    do modify (set_cache (insert key (mkEntry data now)));
    ret data in
  match entry with
  | Some e =>
      if now - timestamp e <? CACHE_TTL
      then do console_log (CacheHit key); ret (data e)
      else miss
  | None => miss
  end.

(** *** The listings

    Each method below is [cached(key, async () => { ... })] around the body
    [listing].  [page] is the argument the caller passes (the default [1] of
    the source applies when none is passed; the handler of index.js always
    passes one), and [region] likewise (default ['FR']). *)

Definition getTrendingMoviesDay (this : TMDBClient) (page : Z) : M (list Meta.t) :=
  cached ("trending_movies_day_" +:+ pretty page)
    (listing Movie this "/trending/movie/day"
      [ ("page", VNum page) ]).

Definition getTrendingMoviesWeek (this : TMDBClient) (page : Z) : M (list Meta.t) :=
  cached ("trending_movies_week_" +:+ pretty page)
    (listing Movie this "/trending/movie/week"
      [ ("page", VNum page) ]).

Definition getTrendingSeriesDay (this : TMDBClient) (page : Z) : M (list Meta.t) :=
  cached ("trending_series_day_" +:+ pretty page)
    (listing Series this "/trending/tv/day"
      [ ("page", VNum page) ]).

Definition getTrendingSeriesWeek (this : TMDBClient) (page : Z) : M (list Meta.t) :=
  cached ("trending_series_week_" +:+ pretty page)
    (listing Series this "/trending/tv/week"
      [ ("page", VNum page) ]).

Definition getTopRatedMovies (this : TMDBClient) (page : Z) : M (list Meta.t) :=
  cached ("top_rated_movies_" +:+ pretty page)
    (listing Movie this "/movie/top_rated"
      [ ("page", VNum page) ]).

Definition getTopRatedSeries (this : TMDBClient) (page : Z) : M (list Meta.t) :=
  cached ("top_rated_series_" +:+ pretty page)
    (listing Series this "/tv/top_rated"
      [ ("page", VNum page) ]).

Definition getPopularMovies (this : TMDBClient) (page : Z) : M (list Meta.t) :=
  cached ("popular_movies_" +:+ pretty page)
    (listing Movie this "/movie/popular"
      [ ("page", VNum page) ]).

Definition getHiddenGems (this : TMDBClient) (page : Z) : M (list Meta.t) :=
  cached ("hidden_gems_" +:+ pretty page)
    (listing Movie this "/discover/movie"
      [ ("page", VNum page);
        ("sort_by", VStr "vote_average.desc");
        ("vote_count.gte", VNum 100);
        ("vote_count.lte", VNum 1000);
        ("vote_average.gte", VDec 7 "5") ]).

Definition getNowPlayingMovies (this : TMDBClient) (page : Z) : M (list Meta.t) :=
  cached ("now_playing_" +:+ pretty page)
    (listing Movie this "/movie/now_playing"
      [ ("page", VNum page);
        ("region", VStr "FR") ]).

Definition getUpcomingMovies (this : TMDBClient) (page : Z) : M (list Meta.t) :=
  cached ("upcoming_" +:+ pretty page)
    (listing Movie this "/movie/upcoming"
      [ ("page", VNum page);
        ("region", VStr "FR") ]).

Definition getMoviesByGenre (this : TMDBClient) (genreId : Z) (page : Z) : M (list Meta.t) :=
  cached ("movies_genre_" +:+ pretty genreId +:+ "_" +:+ pretty page)
    (listing Movie this "/discover/movie"
      [ ("page", VNum page);
        ("with_genres", VNum genreId);
        ("sort_by", VStr "popularity.desc");
        ("vote_count.gte", VNum 50) ]).

Definition getSeriesByGenre (this : TMDBClient) (genreId : Z) (page : Z) : M (list Meta.t) :=
  cached ("series_genre_" +:+ pretty genreId +:+ "_" +:+ pretty page)
    (listing Series this "/discover/tv"
      [ ("page", VNum page);
        ("with_genres", VNum genreId);
        ("sort_by", VStr "popularity.desc");
        ("vote_count.gte", VNum 50) ]).

Definition getMiniSeries (this : TMDBClient) (page : Z) : M (list Meta.t) :=
  cached ("miniseries_" +:+ pretty page)
    (listing Series this "/discover/tv"
      [ ("page", VNum page);
        ("with_keywords", VNum 11162);
        ("sort_by", VStr "vote_average.desc");
        ("vote_count.gte", VNum 100) ]).

Definition getKDramas (this : TMDBClient) (page : Z) : M (list Meta.t) :=
  cached ("kdramas_" +:+ pretty page)
    (listing Series this "/discover/tv"
      [ ("page", VNum page);
        ("with_origin_country", VStr "KR");
        ("sort_by", VStr "vote_average.desc");
        ("vote_count.gte", VNum 100) ]).

Definition getAnime (this : TMDBClient) (page : Z) : M (list Meta.t) :=
  cached ("anime_" +:+ pretty page)
    (listing Series this "/discover/tv"
      [ ("page", VNum page);
        ("with_genres", VNum 16);
        ("with_origin_country", VStr "JP");
        ("sort_by", VStr "vote_average.desc");
        ("vote_count.gte", VNum 100) ]).

Definition getDocuSeries (this : TMDBClient) (page : Z) : M (list Meta.t) :=
  cached ("docuseries_" +:+ pretty page)
    (listing Series this "/discover/tv"
      [ ("page", VNum page);
        ("with_genres", VNum 99);
        ("sort_by", VStr "vote_average.desc");
        ("vote_count.gte", VNum 50) ]).

Definition getMoviesByProvider (this : TMDBClient) (providerId : Z) (page : Z) (region : string) : M (list Meta.t) :=
  cached ("movies_provider_" +:+ pretty providerId +:+ "_" +:+ region +:+ "_" +:+ pretty page)
    (listing Movie this "/discover/movie"
      [ ("page", VNum page);
        ("with_watch_providers", VNum providerId);
        ("watch_region", VStr region);
        ("sort_by", VStr "popularity.desc") ]).

Definition getSeriesByProvider (this : TMDBClient) (providerId : Z) (page : Z) (region : string) : M (list Meta.t) :=
  cached ("series_provider_" +:+ pretty providerId +:+ "_" +:+ region +:+ "_" +:+ pretty page)
    (listing Series this "/discover/tv"
      [ ("page", VNum page);
        ("with_watch_providers", VNum providerId);
        ("watch_region", VStr region);
        ("sort_by", VStr "popularity.desc") ]).

Definition getMoviesByCountry (this : TMDBClient) (countryCode : string) (page : Z) : M (list Meta.t) :=
  cached ("movies_country_" +:+ countryCode +:+ "_" +:+ pretty page)
    (listing Movie this "/discover/movie"
      [ ("page", VNum page);
        ("with_origin_country", VStr countryCode);
        ("sort_by", VStr "popularity.desc");
        ("vote_count.gte", VNum 30) ]).

Definition getJDrama (this : TMDBClient) (page : Z) : M (list Meta.t) :=
  cached ("jdrama_" +:+ pretty page)
    (listing Series this "/discover/tv"
      [ ("page", VNum page);
        ("with_origin_country", VStr "JP");
        ("without_genres", VNum 16);
        ("sort_by", VStr "vote_average.desc");
        ("vote_count.gte", VNum 50) ]).

Definition getAsianDrama (this : TMDBClient) (page : Z) : M (list Meta.t) :=
  cached ("asian_drama_" +:+ pretty page)
    (listing Series this "/discover/tv"
      [ ("page", VNum page);
        ("with_origin_country", VStr "CN|TW|TH");
        ("sort_by", VStr "vote_average.desc");
        ("vote_count.gte", VNum 30) ]).

Definition getChineseMovies (this : TMDBClient) (page : Z) : M (list Meta.t) :=
  cached ("chinese_movies_" +:+ pretty page)
    (listing Movie this "/discover/movie"
      [ ("page", VNum page);
        ("with_origin_country", VStr "CN");
        ("sort_by", VStr "popularity.desc");
        ("vote_count.gte", VNum 30) ]).

Definition getKoreanRomance (this : TMDBClient) (page : Z) : M (list Meta.t) :=
  cached ("korean_romance_" +:+ pretty page)
    (listing Series this "/discover/tv"
      [ ("page", VNum page);
        ("with_origin_country", VStr "KR");
        ("with_genres", VNum 18);
        ("with_keywords", VStr "9840");
        ("sort_by", VStr "vote_average.desc");
        ("vote_count.gte", VNum 50) ]).

Definition getCrimeMovies (this : TMDBClient) (page : Z) : M (list Meta.t) :=
  cached ("crime_movies_" +:+ pretty page)
    (listing Movie this "/discover/movie"
      [ ("page", VNum page);
        ("with_genres", VNum 80);
        ("sort_by", VStr "popularity.desc");
        ("vote_count.gte", VNum 50) ]).

Definition getCrimeSeries (this : TMDBClient) (page : Z) : M (list Meta.t) :=
  cached ("crime_series_" +:+ pretty page)
    (listing Series this "/discover/tv"
      [ ("page", VNum page);
        ("with_genres", VNum 80);
        ("sort_by", VStr "popularity.desc");
        ("vote_count.gte", VNum 50) ]).

Definition getClassicSeries (this : TMDBClient) (page : Z) : M (list Meta.t) :=
  cached ("classic_series_" +:+ pretty page)
    (listing Series this "/discover/tv"
      [ ("page", VNum page);
        ("first_air_date.lte", VStr "1999-12-31");
        ("without_genres", VNum 16);
        ("sort_by", VStr "vote_average.desc");
        ("vote_count.gte", VNum 100) ]).

Definition getClassicMovies (this : TMDBClient) (page : Z) : M (list Meta.t) :=
  cached ("classic_movies_" +:+ pretty page)
    (listing Movie this "/discover/movie"
      [ ("page", VNum page);
        ("release_date.lte", VStr "1989-12-31");
        ("without_genres", VNum 16);
        ("sort_by", VStr "vote_average.desc");
        ("vote_count.gte", VNum 200) ]).

Definition getMoviesByKeyword (this : TMDBClient) (keywordId : Z) (page : Z) : M (list Meta.t) :=
  cached ("movies_keyword_" +:+ pretty keywordId +:+ "_" +:+ pretty page)
    (listing Movie this "/discover/movie"
      [ ("page", VNum page);
        ("with_keywords", VNum keywordId);
        ("sort_by", VStr "popularity.desc") ]).

Definition getChristmasMovies (this : TMDBClient) (page : Z) : M (list Meta.t) :=
  cached ("christmas_" +:+ pretty page)
    (listing Movie this "/discover/movie"
      [ ("page", VNum page);
        ("with_keywords", VStr "207317|13082");
        ("sort_by", VStr "popularity.desc") ]).

Definition getHalloweenMovies (this : TMDBClient) (page : Z) : M (list Meta.t) :=
  cached ("halloween_" +:+ pretty page)
    (listing Movie this "/discover/movie"
      [ ("page", VNum page);
        ("with_keywords", VStr "4565");
        ("with_genres", VNum 27);
        ("sort_by", VStr "popularity.desc") ]).

Definition getFeelGoodMovies (this : TMDBClient) (page : Z) : M (list Meta.t) :=
  cached ("feelgood_" +:+ pretty page)
    (listing Movie this "/discover/movie"
      [ ("page", VNum page);
        ("with_genres", VStr "35,10751");
        ("vote_average.gte", VDec 6 "5");
        ("sort_by", VStr "popularity.desc") ]).

Definition getMindBendingMovies (this : TMDBClient) (page : Z) : M (list Meta.t) :=
  cached ("mindbending_" +:+ pretty page)
    (listing Movie this "/discover/movie"
      [ ("page", VNum page);
        ("with_keywords", VStr "4344|256741|310");
        ("sort_by", VStr "vote_average.desc");
        ("vote_count.gte", VNum 100) ]).

Definition getCultMovies (this : TMDBClient) (page : Z) : M (list Meta.t) :=
  cached ("cult_" +:+ pretty page)
    (listing Movie this "/discover/movie"
      [ ("page", VNum page);
        ("with_keywords", VStr "818");
        ("sort_by", VStr "vote_count.desc") ]).

Definition getFamilyMovies (this : TMDBClient) (page : Z) : M (list Meta.t) :=
  cached ("family_" +:+ pretty page)
    (listing Movie this "/discover/movie"
      [ ("page", VNum page);
        ("with_genres", VNum 10751);
        ("sort_by", VStr "popularity.desc");
        ("vote_average.gte", VNum 6) ]).

Definition getOscarWinners (this : TMDBClient) (page : Z) : M (list Meta.t) :=
  cached ("oscars_" +:+ pretty page)
    (listing Movie this "/discover/movie"
      [ ("page", VNum page);
        ("sort_by", VStr "vote_average.desc");
        ("vote_count.gte", VNum 5000);
        ("vote_average.gte", VNum 8) ]).

(** [searchMovies] and [searchSeries]: the same body, not wrapped in
    [cached].  (The two detail methods, [getMovieDetails] and
    [getSeriesDetails], return one meta and are not listings; they are left
    out.) *)
Definition searchMovies (this : TMDBClient) (query : string) (page : Z) : M (list Meta.t) :=
  listing Movie this "/search/movie" [ ("query", VStr query); ("page", VNum page) ].

Definition searchSeries (this : TMDBClient) (query : string) (page : Z) : M (list Meta.t) :=
  listing Series this "/search/tv" [ ("query", VStr query); ("page", VNum page) ].

(** The calls of the cached listings, as data. *)
Inductive Listing : Type :=
| Call_TrendingMoviesDay (page : Z)
| Call_TrendingMoviesWeek (page : Z)
| Call_TrendingSeriesDay (page : Z)
| Call_TrendingSeriesWeek (page : Z)
| Call_TopRatedMovies (page : Z)
| Call_TopRatedSeries (page : Z)
| Call_PopularMovies (page : Z)
| Call_HiddenGems (page : Z)
| Call_NowPlayingMovies (page : Z)
| Call_UpcomingMovies (page : Z)
| Call_MoviesByGenre (genreId : Z) (page : Z)
| Call_SeriesByGenre (genreId : Z) (page : Z)
| Call_MiniSeries (page : Z)
| Call_KDramas (page : Z)
| Call_Anime (page : Z)
| Call_DocuSeries (page : Z)
| Call_MoviesByProvider (providerId : Z) (page : Z) (region : string)
| Call_SeriesByProvider (providerId : Z) (page : Z) (region : string)
| Call_MoviesByCountry (countryCode : string) (page : Z)
| Call_JDrama (page : Z)
| Call_AsianDrama (page : Z)
| Call_ChineseMovies (page : Z)
| Call_KoreanRomance (page : Z)
| Call_CrimeMovies (page : Z)
| Call_CrimeSeries (page : Z)
| Call_ClassicSeries (page : Z)
| Call_ClassicMovies (page : Z)
| Call_MoviesByKeyword (keywordId : Z) (page : Z)
| Call_ChristmasMovies (page : Z)
| Call_HalloweenMovies (page : Z)
| Call_FeelGoodMovies (page : Z)
| Call_MindBendingMovies (page : Z)
| Call_CultMovies (page : Z)
| Call_FamilyMovies (page : Z)
| Call_OscarWinners (page : Z).

Definition call (this : TMDBClient) (l : Listing) : M (list Meta.t) :=
  match l with
  | Call_TrendingMoviesDay page => getTrendingMoviesDay this page
  | Call_TrendingMoviesWeek page => getTrendingMoviesWeek this page
  | Call_TrendingSeriesDay page => getTrendingSeriesDay this page
  | Call_TrendingSeriesWeek page => getTrendingSeriesWeek this page
  | Call_TopRatedMovies page => getTopRatedMovies this page
  | Call_TopRatedSeries page => getTopRatedSeries this page
  | Call_PopularMovies page => getPopularMovies this page
  | Call_HiddenGems page => getHiddenGems this page
  | Call_NowPlayingMovies page => getNowPlayingMovies this page
  | Call_UpcomingMovies page => getUpcomingMovies this page
  | Call_MoviesByGenre genreId page => getMoviesByGenre this genreId page
  | Call_SeriesByGenre genreId page => getSeriesByGenre this genreId page
  | Call_MiniSeries page => getMiniSeries this page
  | Call_KDramas page => getKDramas this page
  | Call_Anime page => getAnime this page
  | Call_DocuSeries page => getDocuSeries this page
  | Call_MoviesByProvider providerId page region => getMoviesByProvider this providerId page region
  | Call_SeriesByProvider providerId page region => getSeriesByProvider this providerId page region
  | Call_MoviesByCountry countryCode page => getMoviesByCountry this countryCode page
  | Call_JDrama page => getJDrama this page
  | Call_AsianDrama page => getAsianDrama this page
  | Call_ChineseMovies page => getChineseMovies this page
  | Call_KoreanRomance page => getKoreanRomance this page
  | Call_CrimeMovies page => getCrimeMovies this page
  | Call_CrimeSeries page => getCrimeSeries this page
  | Call_ClassicSeries page => getClassicSeries this page
  | Call_ClassicMovies page => getClassicMovies this page
  | Call_MoviesByKeyword keywordId page => getMoviesByKeyword this keywordId page
  | Call_ChristmasMovies page => getChristmasMovies this page
  | Call_HalloweenMovies page => getHalloweenMovies this page
  | Call_FeelGoodMovies page => getFeelGoodMovies this page
  | Call_MindBendingMovies page => getMindBendingMovies this page
  | Call_CultMovies page => getCultMovies this page
  | Call_FamilyMovies page => getFamilyMovies this page
  | Call_OscarWinners page => getOscarWinners this page
  end.

(** The cache key of a call, and the function it hands to [cached]. *)
Definition call_key (l : Listing) : string :=
  match l with
  | Call_TrendingMoviesDay page => "trending_movies_day_" +:+ pretty page
  | Call_TrendingMoviesWeek page => "trending_movies_week_" +:+ pretty page
  | Call_TrendingSeriesDay page => "trending_series_day_" +:+ pretty page
  | Call_TrendingSeriesWeek page => "trending_series_week_" +:+ pretty page
  | Call_TopRatedMovies page => "top_rated_movies_" +:+ pretty page
  | Call_TopRatedSeries page => "top_rated_series_" +:+ pretty page
  | Call_PopularMovies page => "popular_movies_" +:+ pretty page
  | Call_HiddenGems page => "hidden_gems_" +:+ pretty page
  | Call_NowPlayingMovies page => "now_playing_" +:+ pretty page
  | Call_UpcomingMovies page => "upcoming_" +:+ pretty page
  | Call_MoviesByGenre genreId page => "movies_genre_" +:+ pretty genreId +:+ "_" +:+ pretty page
  | Call_SeriesByGenre genreId page => "series_genre_" +:+ pretty genreId +:+ "_" +:+ pretty page
  | Call_MiniSeries page => "miniseries_" +:+ pretty page
  | Call_KDramas page => "kdramas_" +:+ pretty page
  | Call_Anime page => "anime_" +:+ pretty page
  | Call_DocuSeries page => "docuseries_" +:+ pretty page
  | Call_MoviesByProvider providerId page region => "movies_provider_" +:+ pretty providerId +:+ "_" +:+ region +:+ "_" +:+ pretty page
  | Call_SeriesByProvider providerId page region => "series_provider_" +:+ pretty providerId +:+ "_" +:+ region +:+ "_" +:+ pretty page
  | Call_MoviesByCountry countryCode page => "movies_country_" +:+ countryCode +:+ "_" +:+ pretty page
  | Call_JDrama page => "jdrama_" +:+ pretty page
  | Call_AsianDrama page => "asian_drama_" +:+ pretty page
  | Call_ChineseMovies page => "chinese_movies_" +:+ pretty page
  | Call_KoreanRomance page => "korean_romance_" +:+ pretty page
  | Call_CrimeMovies page => "crime_movies_" +:+ pretty page
  | Call_CrimeSeries page => "crime_series_" +:+ pretty page
  | Call_ClassicSeries page => "classic_series_" +:+ pretty page
  | Call_ClassicMovies page => "classic_movies_" +:+ pretty page
  | Call_MoviesByKeyword keywordId page => "movies_keyword_" +:+ pretty keywordId +:+ "_" +:+ pretty page
  | Call_ChristmasMovies page => "christmas_" +:+ pretty page
  | Call_HalloweenMovies page => "halloween_" +:+ pretty page
  | Call_FeelGoodMovies page => "feelgood_" +:+ pretty page
  | Call_MindBendingMovies page => "mindbending_" +:+ pretty page
  | Call_CultMovies page => "cult_" +:+ pretty page
  | Call_FamilyMovies page => "family_" +:+ pretty page
  | Call_OscarWinners page => "oscars_" +:+ pretty page
  end.

Definition call_fn (this : TMDBClient) (l : Listing) : M (list Meta.t) :=
  match l with
  | Call_TrendingMoviesDay page =>
      listing Movie this "/trending/movie/day"
        [ ("page", VNum page) ]
  | Call_TrendingMoviesWeek page =>
      listing Movie this "/trending/movie/week"
        [ ("page", VNum page) ]
  | Call_TrendingSeriesDay page =>
      listing Series this "/trending/tv/day"
        [ ("page", VNum page) ]
  | Call_TrendingSeriesWeek page =>
      listing Series this "/trending/tv/week"
        [ ("page", VNum page) ]
  | Call_TopRatedMovies page =>
      listing Movie this "/movie/top_rated"
        [ ("page", VNum page) ]
  | Call_TopRatedSeries page =>
      listing Series this "/tv/top_rated"
        [ ("page", VNum page) ]
  | Call_PopularMovies page =>
      listing Movie this "/movie/popular"
        [ ("page", VNum page) ]
  | Call_HiddenGems page =>
      listing Movie this "/discover/movie"
        [ ("page", VNum page); ("sort_by", VStr "vote_average.desc"); ("vote_count.gte", VNum 100); ("vote_count.lte", VNum 1000); ("vote_average.gte", VDec 7 "5") ]
  | Call_NowPlayingMovies page =>
      listing Movie this "/movie/now_playing"
        [ ("page", VNum page); ("region", VStr "FR") ]
  | Call_UpcomingMovies page =>
      listing Movie this "/movie/upcoming"
        [ ("page", VNum page); ("region", VStr "FR") ]
  | Call_MoviesByGenre genreId page =>
      listing Movie this "/discover/movie"
        [ ("page", VNum page); ("with_genres", VNum genreId); ("sort_by", VStr "popularity.desc"); ("vote_count.gte", VNum 50) ]
  | Call_SeriesByGenre genreId page =>
      listing Series this "/discover/tv"
        [ ("page", VNum page); ("with_genres", VNum genreId); ("sort_by", VStr "popularity.desc"); ("vote_count.gte", VNum 50) ]
  | Call_MiniSeries page =>
      listing Series this "/discover/tv"
        [ ("page", VNum page); ("with_keywords", VNum 11162); ("sort_by", VStr "vote_average.desc"); ("vote_count.gte", VNum 100) ]
  | Call_KDramas page =>
      listing Series this "/discover/tv"
        [ ("page", VNum page); ("with_origin_country", VStr "KR"); ("sort_by", VStr "vote_average.desc"); ("vote_count.gte", VNum 100) ]
  | Call_Anime page =>
      listing Series this "/discover/tv"
        [ ("page", VNum page); ("with_genres", VNum 16); ("with_origin_country", VStr "JP"); ("sort_by", VStr "vote_average.desc"); ("vote_count.gte", VNum 100) ]
  | Call_DocuSeries page =>
      listing Series this "/discover/tv"
        [ ("page", VNum page); ("with_genres", VNum 99); ("sort_by", VStr "vote_average.desc"); ("vote_count.gte", VNum 50) ]
  | Call_MoviesByProvider providerId page region =>
      listing Movie this "/discover/movie"
        [ ("page", VNum page); ("with_watch_providers", VNum providerId); ("watch_region", VStr region); ("sort_by", VStr "popularity.desc") ]
  | Call_SeriesByProvider providerId page region =>
      listing Series this "/discover/tv"
        [ ("page", VNum page); ("with_watch_providers", VNum providerId); ("watch_region", VStr region); ("sort_by", VStr "popularity.desc") ]
  | Call_MoviesByCountry countryCode page =>
      listing Movie this "/discover/movie"
        [ ("page", VNum page); ("with_origin_country", VStr countryCode); ("sort_by", VStr "popularity.desc"); ("vote_count.gte", VNum 30) ]
  | Call_JDrama page =>
      listing Series this "/discover/tv"
        [ ("page", VNum page); ("with_origin_country", VStr "JP"); ("without_genres", VNum 16); ("sort_by", VStr "vote_average.desc"); ("vote_count.gte", VNum 50) ]
  | Call_AsianDrama page =>
      listing Series this "/discover/tv"
        [ ("page", VNum page); ("with_origin_country", VStr "CN|TW|TH"); ("sort_by", VStr "vote_average.desc"); ("vote_count.gte", VNum 30) ]
  | Call_ChineseMovies page =>
      listing Movie this "/discover/movie"
        [ ("page", VNum page); ("with_origin_country", VStr "CN"); ("sort_by", VStr "popularity.desc"); ("vote_count.gte", VNum 30) ]
  | Call_KoreanRomance page =>
      listing Series this "/discover/tv"
        [ ("page", VNum page); ("with_origin_country", VStr "KR"); ("with_genres", VNum 18); ("with_keywords", VStr "9840"); ("sort_by", VStr "vote_average.desc"); ("vote_count.gte", VNum 50) ]
  | Call_CrimeMovies page =>
      listing Movie this "/discover/movie"
        [ ("page", VNum page); ("with_genres", VNum 80); ("sort_by", VStr "popularity.desc"); ("vote_count.gte", VNum 50) ]
  | Call_CrimeSeries page =>
      listing Series this "/discover/tv"
        [ ("page", VNum page); ("with_genres", VNum 80); ("sort_by", VStr "popularity.desc"); ("vote_count.gte", VNum 50) ]
  | Call_ClassicSeries page =>
      listing Series this "/discover/tv"
        [ ("page", VNum page); ("first_air_date.lte", VStr "1999-12-31"); ("without_genres", VNum 16); ("sort_by", VStr "vote_average.desc"); ("vote_count.gte", VNum 100) ]
  | Call_ClassicMovies page =>
      listing Movie this "/discover/movie"
        [ ("page", VNum page); ("release_date.lte", VStr "1989-12-31"); ("without_genres", VNum 16); ("sort_by", VStr "vote_average.desc"); ("vote_count.gte", VNum 200) ]
  | Call_MoviesByKeyword keywordId page =>
      listing Movie this "/discover/movie"
        [ ("page", VNum page); ("with_keywords", VNum keywordId); ("sort_by", VStr "popularity.desc") ]
  | Call_ChristmasMovies page =>
      listing Movie this "/discover/movie"
        [ ("page", VNum page); ("with_keywords", VStr "207317|13082"); ("sort_by", VStr "popularity.desc") ]
  | Call_HalloweenMovies page =>
      listing Movie this "/discover/movie"
        [ ("page", VNum page); ("with_keywords", VStr "4565"); ("with_genres", VNum 27); ("sort_by", VStr "popularity.desc") ]
  | Call_FeelGoodMovies page =>
      listing Movie this "/discover/movie"
        [ ("page", VNum page); ("with_genres", VStr "35,10751"); ("vote_average.gte", VDec 6 "5"); ("sort_by", VStr "popularity.desc") ]
  | Call_MindBendingMovies page =>
      listing Movie this "/discover/movie"
        [ ("page", VNum page); ("with_keywords", VStr "4344|256741|310"); ("sort_by", VStr "vote_average.desc"); ("vote_count.gte", VNum 100) ]
  | Call_CultMovies page =>
      listing Movie this "/discover/movie"
        [ ("page", VNum page); ("with_keywords", VStr "818"); ("sort_by", VStr "vote_count.desc") ]
  | Call_FamilyMovies page =>
      listing Movie this "/discover/movie"
        [ ("page", VNum page); ("with_genres", VNum 10751); ("sort_by", VStr "popularity.desc"); ("vote_average.gte", VNum 6) ]
  | Call_OscarWinners page =>
      listing Movie this "/discover/movie"
        [ ("page", VNum page); ("sort_by", VStr "vote_average.desc"); ("vote_count.gte", VNum 5000); ("vote_average.gte", VNum 8) ]
  end.

End TMDB.

(** ** index.js: the catalogues and their handler *)

Module Index.
Import Js TMDB.
Local Open Scope js_scope.

(** An entry of [CATALOGS]: [{ name, type, fetch }]. *)
Record Catalog : Type := mkCatalog {
  name : string;
  type : string;
  fetch : Z -> M (list Meta.t)
}.

(** [const tmdb = new TMDBClient(TMDB_API_KEY, 'fr-FR')], with the key read
    from the environment. *)
Definition new_tmdb (TMDB_API_KEY : string) : TMDBClient :=
  mkClient TMDB_API_KEY "fr-FR".

(** The own properties of [CATALOGS], in the order of the source.  The
    provider listings are called without a region and take their default
    ['FR']. *)
Definition CATALOGS (tmdb : TMDBClient) : list (string * Catalog) :=
  [
    ("kdrama", mkCatalog "🇰🇷 K-Drama" "series" (fun page => getKDramas tmdb page));
    ("korean-romance", mkCatalog "💕 Romance Coréenne" "series" (fun page => getKoreanRomance tmdb page));
    ("korean-movies", mkCatalog "🇰🇷 Cinéma Coréen" "movie" (fun page => getMoviesByCountry tmdb "KR" page));
    ("jdrama", mkCatalog "🇯🇵 J-Drama" "series" (fun page => getJDrama tmdb page));
    ("japanese-movies", mkCatalog "🇯🇵 Cinéma Japonais" "movie" (fun page => getMoviesByCountry tmdb "JP" page));
    ("asian-drama", mkCatalog "🌏 Drama Asiatique" "series" (fun page => getAsianDrama tmdb page));
    ("chinese-movies", mkCatalog "🇨🇳 Cinéma Chinois" "movie" (fun page => getChineseMovies tmdb page));
    ("thriller-movies", mkCatalog "🔪 Thriller" "movie" (fun page => getMoviesByGenre tmdb 53 page));
    ("thriller-series", mkCatalog "🔪 Thriller" "series" (fun page => getSeriesByGenre tmdb 80 page));
    ("crime-movies", mkCatalog "🔍 Policier" "movie" (fun page => getCrimeMovies tmdb page));
    ("crime-series", mkCatalog "🔍 Policier" "series" (fun page => getCrimeSeries tmdb page));
    ("classic-movies", mkCatalog "🎬 Films Classiques" "movie" (fun page => getClassicMovies tmdb page));
    ("classic-series", mkCatalog "📺 Séries Classiques" "series" (fun page => getClassicSeries tmdb page));
    ("miniseries", mkCatalog "📺 Mini-séries" "series" (fun page => getMiniSeries tmdb page));
    ("romance-movies", mkCatalog "💕 Romance" "movie" (fun page => getMoviesByGenre tmdb 10749 page));
    ("drama-movies", mkCatalog "📖 Drame" "movie" (fun page => getMoviesByGenre tmdb 18 page));
    ("drama-series", mkCatalog "📖 Drame" "series" (fun page => getSeriesByGenre tmdb 18 page));
    ("top-movies", mkCatalog "🏆 Top Films" "movie" (fun page => getTopRatedMovies tmdb page));
    ("top-series", mkCatalog "🏆 Top Séries" "series" (fun page => getTopRatedSeries tmdb page));
    ("netflix-movies", mkCatalog "🔴 Netflix" "movie" (fun page => getMoviesByProvider tmdb 8 page "FR"));
    ("netflix-series", mkCatalog "🔴 Netflix" "series" (fun page => getSeriesByProvider tmdb 8 page "FR"));
    ("prime-movies", mkCatalog "📦 Prime Video" "movie" (fun page => getMoviesByProvider tmdb 119 page "FR"));
    ("prime-series", mkCatalog "📦 Prime Video" "series" (fun page => getSeriesByProvider tmdb 119 page "FR"));
    ("disney-movies", mkCatalog "🏰 Disney+" "movie" (fun page => getMoviesByProvider tmdb 337 page "FR"));
    ("disney-series", mkCatalog "🏰 Disney+" "series" (fun page => getSeriesByProvider tmdb 337 page "FR"));
    ("canal-movies", mkCatalog "➕ Canal+" "movie" (fun page => getMoviesByProvider tmdb 381 page "FR"));
    ("canal-series", mkCatalog "➕ Canal+" "series" (fun page => getSeriesByProvider tmdb 381 page "FR"))
  ].

(** The names [Object.prototype] gives to every object literal. *)
Definition Object_prototype : list string :=
  [ "constructor"; "__defineGetter__"; "__defineSetter__"; "hasOwnProperty";
    "__lookupGetter__"; "__lookupSetter__"; "isPrototypeOf";
    "propertyIsEnumerable"; "toString"; "valueOf"; "__proto__";
    "toLocaleString" ].

(** What [CATALOGS[catalogId]] evaluates to: an entry, a member of
    [Object.prototype] (truthy, without a [fetch] method), or [undefined]. *)
Inductive Property : Type :=
| Own (catalog : Catalog)
| Inherited
| Undefined.

Fixpoint assoc {A} (key : string) (ps : list (string * A)) : option A :=
  match ps with
  | [] => None
  | (k, v) :: ps' => if String.eqb k key then Some v else assoc key ps'
  end.

Definition CATALOGS_get (tmdb : TMDBClient) (catalogId : string) : Property :=
  match assoc catalogId (CATALOGS tmdb) with
  | Some catalog => Own catalog
  | None =>
      if existsb (String.eqb catalogId) Object_prototype then Inherited else Undefined
  end.

(** The argument of the handler: [{ type, id, extra }]; [extra] may be
    missing, and [extra.skip] is [VUndef] when the property is missing. *)
Record Extra : Type := mkExtra { skip : JsVal }.
Record Args : Type := mkArgs {
  args_type : string;
  args_id : string;
  args_extra : option Extra
}.

(** [extra?.skip] *)
Definition extra_skip (extra : option Extra) : JsVal :=
  match extra with
  | Some e => skip e
  | None => VUndef
  end.

(** The object the handler resolves to, as the list of its properties:
    [{ metas: results }] is [[("metas", results)]]. *)
Definition Reply : Type := list (string * list Meta.t).

(** [const skip = parseInt(extra?.skip) || 0;
     const page = Math.floor(skip / 20) + 1;] *)
Definition page_of (extra : option Extra) : Z :=
  let skip := or_zero (parseInt (extra_skip extra)) in
  add (floor_div skip 20) 1.

(** The function given to [builder.defineCatalogHandler].  A member of
    [Object.prototype] passes the test [!catalog]; it has no [fetch], and the
    call [catalog.fetch(page)] throws a [TypeError] inside the [try]. *)
Definition defineCatalogHandler (tmdb : TMDBClient) (args : Args) : M Reply :=
  do console_log (CatalogRequested (args_id args) (args_type args));
  let catalogId := replace "cataloog-bp-" "" (args_id args) in
  let catalog := CATALOGS_get tmdb catalogId in
  match catalog with
  | Undefined =>
      do console_log (CatalogUnknown catalogId);
      ret [("metas", [])]
  | _ =>
      let page := page_of (args_extra args) in
      try_catch
        (match catalog with
         | Own c =>
             let* results := fetch c page in
             do console_log (CatalogResults (length results) (name c));
             ret [("metas", results)]
         | _ => throw TypeError
         end)
        (fun error =>
           do console_log (CatalogError (args_id args) error);
           ret [("metas", [])])
  end.

End Index.

(** ** Vocabulary of the properties *)

Module Spec.
Import Js TMDB Index.

(** *** Worlds after an effect *)

(** The world once [url] has been handed to [fetch]. *)
Definition sent (url : Url) (w : World) : World :=
  set_requests (fun rs => rs ++ [url]) w.

(** The world once the reply to the request [ticket] has come in. *)
Definition received (ticket : nat) (url : Url) (w : World) : World :=
  set_clock (fun t => t + Z.of_N (elapsed (upstream w ticket url))) w.

(** The world once an IMDb id has been stored. *)
Definition stored (kind : Kind) (tmdbId : Z) (imdbId : option string) (w : World) : World :=
  set_imdbCache (insert (imdbKey kind tmdbId) imdbId) w.

(** The world once a line has been written to the console. *)
Definition logged (line : LogLine) (w : World) : World :=
  set_console (fun ls => ls ++ [line]) w.

(** The world once the handler has logged the request. *)
Definition requested (args : Args) (w : World) : World :=
  set_console (fun ls => ls ++ [CatalogRequested (args_id args) (args_type args)]) w.

(** *** The request URL *)

(** The value a caller states for a parameter: that of the last property
    with the key whose value is neither [undefined] nor [null]. *)
Fixpoint supplied (key : string) (params : list (string * JsVal)) : option JsVal :=
  match params with
  | [] => None
  | (k, v) :: params' =>
      match supplied key params' with
      | Some v' => Some v'
      | None => if String.eqb k key && negb (is_nullish v) then Some v else None
      end
  end.

(** The properties of [params] whose value is neither [undefined] nor
    [null]. *)
Definition stated (params : list (string * JsVal)) : list (string * JsVal) :=
  List.filter (fun p => negb (is_nullish (snd p))) params.

(** The URL of the external ids of a title. *)
Definition lookup_url (kind : Kind) (this : TMDBClient) (tmdbId : Z) : Url :=
  request_url this (external_ids kind tmdbId) [].

(** *** [parseInt] *)

(** The characters [0] to [9]. *)
Definition is_decimal_digit (c : ascii) : bool :=
  let n := nat_of_ascii c in
  (48 <=? n)%nat && (n <=? 57)%nat.

(** A string is numeric for [parseInt] when a decimal digit follows its
    leading white space and optional sign. *)
Definition numeric (s : string) : bool :=
  match snd (sign_of (trim_start s)) with
  | String c _ => is_decimal_digit c
  | EmptyString => false
  end.

(** The digits a decimal rendering can begin with. *)
Definition nonzero_digits : list ascii :=
  ["1"; "2"; "3"; "4"; "5"; "6"; "7"; "8"; "9"]%char.

(** *** The handler *)

(** The catalogue id the handler looks up. *)
Definition catalogId_of (args : Args) : string :=
  replace "cataloog-bp-" "" (args_id args).

(** What the handler does once it holds the catalogue [c] and the page: the
    call [c.fetch(page)] in the world [w], and the reply built from its
    outcome. *)
Definition dispatch (c : Catalog) (id : string) (page : Z) (w : World)
  : Result Index.Reply * World :=
  match fetch c page w with
  | (Ok results, w') =>
      (Ok [("metas", results)],
       set_console (fun ls => ls ++ [CatalogResults (length results) (name c)]) w')
  | (Thrown e, w') =>
      (Ok [("metas", [])],
       set_console (fun ls => ls ++ [CatalogError id e]) w')
  end.

(** *** The resolver and the formatter *)

(** What the resolver returns on a reply of the upstream. *)
Definition answer (r : Response) : option string :=
  match reply_data r with
  | Ok data => imdbId_of data
  | Thrown _ => None
  end.

(** [!imdbId ? null : meta] *)
Definition meta_of (kind : Kind) (r : Raw.t) (imdbId : option string) : option Meta.t :=
  match imdbId with
  | Some s => if truthy_str (Some s) then Some (meta kind s r) else None
  | None => None
  end.

(** The IMDb id the resolver gave for the title [tmdbId] during a run from
    [w] to [w']: the one [imdbCache] held in [w], or the answer to a request
    for the external ids of the title sent during the run. *)
Definition resolved_in (kind : Kind) (this : TMDBClient) (w w' : World)
    (tmdbId : Z) (imdbId : option string) : Prop :=
  imdbCache w !! imdbKey kind tmdbId = Some imdbId
  \/ (imdbCache w !! imdbKey kind tmdbId = None
      /\ exists ticket : nat,
           (length (requests w) <= ticket)%nat
           /\ requests w' !! ticket = Some (lookup_url kind this tmdbId)
           /\ imdbId = answer (response (upstream w ticket (lookup_url kind this tmdbId)))).

(** What becomes of a record of the page in a run from [w] to [w']. *)
Definition formatted (kind : Kind) (this : TMDBClient) (w w' : World)
    (record : option Raw.t) (outcome : option Meta.t) : Prop :=
  match record with
  | None => outcome = None
  | Some r =>
      match Raw.id r with
      | None => outcome = None
      | Some tmdbId =>
          if tmdbId =? 0 then outcome = None
          else exists imdbId : option string,
                 resolved_in kind this w w' tmdbId imdbId
                 /\ outcome = meta_of kind r imdbId
      end
  end.

(** How the call of the formatter for [record] stands once [map] has run:
    [cache0] is [imdbCache] and [n0] the number of requests when [map]
    started, [rs] the requests when it ended. *)
Definition begun (kind : Kind) (this : TMDBClient)
    (cache0 : gmap string (option string)) (n0 : nat) (rs : list Url)
    (record : option Raw.t) (f : Formatting) : Prop :=
  match record with
  | None => f = Dropped
  | Some r =>
      match Raw.id r with
      | None => f = Dropped
      | Some tmdbId =>
          if tmdbId =? 0 then f = Dropped
          else
            exists l : Lookup,
              f = Resolving r tmdbId l /\
              match l with
              | Known cachedId => cache0 !! imdbKey kind tmdbId = Some cachedId
              | Asked ticket url =>
                  cache0 !! imdbKey kind tmdbId = None
                  /\ url = lookup_url kind this tmdbId
                  /\ (n0 <= ticket)%nat
                  /\ rs !! ticket = Some url
              end
      end
  end.

(** What a call of the formatter that stands at [f] resolves to, with the
    upstream [up]. *)
Definition settled (kind : Kind) (up : nat -> Url -> TMDB.Reply)
    (f : Formatting) (outcome : option Meta.t) : Prop :=
  match f with
  | Dropped => outcome = None
  | Resolving r tmdbId (Known cachedId) => outcome = meta_of kind r cachedId
  | Resolving r tmdbId (Asked ticket url) =>
      outcome = meta_of kind r (answer (response (up ticket url)))
  end.

(** The keys a pending call will write are not in [cache0]. *)
Definition writes_outside (kind : Kind) (cache0 : gmap string (option string))
    (f : Formatting) : Prop :=
  match f with
  | Resolving r tmdbId (Asked ticket url) => cache0 !! imdbKey kind tmdbId = None
  | _ => True
  end.

(** From [w] to [w']: the response cache and the console are untouched, the
    upstream is the same, the clock has not gone back, requests have been
    added, and the entries of [imdbCache] are still there. *)
Definition evolves (w w' : World) : Prop :=
  cache w' = cache w
  /\ console w' = console w
  /\ upstream w' = upstream w
  /\ clock w <= clock w'
  /\ imdbCache w ⊆ imdbCache w'
  /\ exists more : list Url, requests w' = requests w ++ more.

(** *** What the client can be asked to do *)

(** [searchMovies] or [searchSeries]. *)
Definition search (kind : Kind) : TMDBClient -> string -> Z -> M (list Meta.t) :=
  match kind with
  | Movie => searchMovies
  | Series => searchSeries
  end.

Definition search_endpoint (kind : Kind) : string :=
  match kind with
  | Movie => "/search/movie"
  | Series => "/search/tv"
  end.

(** What the client and the handler can be asked to do, and time passing:
    the resolver, the formatter, the cached listings, the searches and the
    handler.  The two detail methods of the client ([getMovieDetails],
    [getSeriesDetails]), which the add-on does not call, are not among them;
    they resolve ids through the same resolver and write the response cache
    under keys of their own, [movie_details_<id>] and [series_details_<id>]. *)
Inductive Action : Type :=
| Resolve (kind : Kind) (tmdbId : Z)
| Format (kind : Kind) (record : option Raw.t)
| Fetch (l : Listing)
| Search (kind : Kind) (query : string) (page : Z)
| Handle (args : Args)
| Wait (ms : N).

Definition run_action (this : TMDBClient) (a : Action) (w : World) : World :=
  match a with
  | Resolve kind tmdbId => snd (getImdbId kind this tmdbId w)
  | Format kind record => snd (format kind this record w)
  | Fetch l => snd (call this l w)
  | Search Movie query page => snd (searchMovies this query page w)
  | Search Series query page => snd (searchSeries this query page w)
  | Handle args => snd (defineCatalogHandler this args w)
  | Wait ms => set_clock (fun t => t + Z.of_N ms) w
  end.

Definition run_actions (this : TMDBClient) (actions : list Action) (w : World) : World :=
  fold_left (fun w a => run_action this a w) actions w.

(** *** The response cache *)

(** Whether [cached] serves [key] from the cache in [w]: the test
    [entry && (now - entry.timestamp) < CACHE_TTL]. *)
Definition fresh (key : string) (w : World) : bool :=
  match cache w !! key with
  | Some e => clock w - timestamp e <? CACHE_TTL
  | None => false
  end.

(** What [cached] does on a miss: log, run [fn], store its result with the
    time at which [cached] was called. *)
Definition recompute (key : string) (fn : M (list Meta.t)) (w : World)
  : Result (list Meta.t) * World :=
  match fn (logged (CacheMiss key) w) with
  | (Ok d, w') => (Ok d, set_cache (insert key (mkEntry d (clock w))) w')
  | (Thrown e, w') => (Thrown e, w')
  end.

(** A computation that neither reads nor writes the response cache: run with
    another content of the cache, it gives the same result and leaves that
    content. *)
Definition cache_blind {A} (m : M A) : Prop :=
  forall (f : gmap string CacheEntry -> gmap string CacheEntry) (w : World),
    m (set_cache f w) = (fst (m w), set_cache f (snd (m w))).

(** A compute function handed to [cached] that keeps to itself, as the
    bodies of the listings do: it leaves the response cache and the console
    alone, and the clock does not go back while it runs. *)
Definition well_behaved (fn : M (list Meta.t)) : Prop :=
  forall w : World,
    cache (snd (fn w)) = cache w
    /\ console (snd (fn w)) = console w
    /\ clock w <= clock (snd (fn w)).

(** A session of the response cache: calls of [cached], one after the other,
    and time passing in between. *)
Inductive Step : Type :=
| Call (key : string) (fn : M (list Meta.t))
| Idle (ms : N).

Definition step_well_behaved (s : Step) : Prop :=
  match s with
  | Call key fn => well_behaved fn
  | Idle ms => True
  end.

(** What is seen of a call of [cached]: its key, the time at which it was
    made, the lines it wrote to the console, its outcome and the time at
    which it returned. *)
Record Seen : Type := mkSeen {
  seen_key : string;
  seen_start : Z;
  seen_lines : list LogLine;
  seen_result : Result (list Meta.t);
  seen_end : Z
}.

Definition see (key : string) (fn : M (list Meta.t)) (w : World) : Seen :=
  mkSeen key (clock w)
         (drop (length (console w)) (console (snd (cached key fn w))))
         (fst (cached key fn w))
         (clock (snd (cached key fn w))).

(** The calls seen in a session that starts in [w], after those of [seen]. *)
Fixpoint observe (steps : list Step) (seen : list Seen) (w : World) : list Seen :=
  match steps with
  | [] => seen
  | Idle ms :: steps' => observe steps' seen (set_clock (fun t => t + Z.of_N ms) w)
  | Call key fn :: steps' =>
      observe steps' (seen ++ [see key fn w]) (snd (cached key fn w))
  end.

(** The call [ev] ran the compute function for [key], and it returned. *)
Definition computed (key : string) (ev : Seen) : Prop :=
  seen_key ev = key
  /\ seen_lines ev = [CacheMiss key]
  /\ exists d : list Meta.t, seen_result ev = Ok d.

(** The call at rank [j] of [seen] is the last one that computed [key]. *)
Definition last_computed (key : string) (seen : list Seen) (j : nat) (prior : Seen) : Prop :=
  seen !! j = Some prior
  /\ computed key prior
  /\ forall (j' : nat) (ev : Seen),
       (j < j')%nat -> seen !! j' = Some ev -> ~ computed key ev.

(** The guarantee of the response cache for a call [ev] made after the calls
    [before]: it is served from the cache or it runs the compute function;
    served from the cache, it returns the value of the last computation for
    its key, which returned less than the TTL before the call; and when the
    last computation for its key returned the TTL or more before the call,
    or when there is none, it runs the compute function. *)
Definition within_ttl (before : list Seen) (ev : Seen) : Prop :=
  (seen_lines ev = [CacheHit (seen_key ev)] \/ seen_lines ev = [CacheMiss (seen_key ev)])
  /\ (seen_lines ev = [CacheHit (seen_key ev)] ->
      exists (j : nat) (prior : Seen),
        last_computed (seen_key ev) before j prior
        /\ seen_result ev = seen_result prior
        /\ seen_start ev - seen_end prior < CACHE_TTL
        /\ seen_end ev = seen_start ev)
  /\ (forall (j : nat) (prior : Seen),
        last_computed (seen_key ev) before j prior ->
        CACHE_TTL <= seen_start ev - seen_end prior ->
        seen_lines ev = [CacheMiss (seen_key ev)])
  /\ ((forall prior : Seen, prior ∈ before -> ~ computed (seen_key ev) prior) ->
      seen_lines ev = [CacheMiss (seen_key ev)]).

(** What links the response cache to the calls seen so far: an entry is the
    value of the last computation for its key, stamped no later than that
    computation returned; a key without entry has never been computed. *)
Definition cache_reflects (seen : list Seen) (w : World) : Prop :=
  forall key : string,
    match cache w !! key with
    | Some e =>
        exists (j : nat) (prior : Seen),
          last_computed key seen j prior
          /\ seen_result prior = Ok (data e)
          /\ timestamp e <= seen_end prior
    | None => forall prior : Seen, prior ∈ seen -> ~ computed key prior
    end.

End Spec.

(** ** Sample data *)

Module Sample.
Import Js TMDB Index.

(** A record with an id, titles and the given date in both date fields. *)
Definition dated (date : option string) : Raw.t :=
  Raw.mk (Some 603) (Some "The Matrix") (Some "The Matrix")
         (Some "The Matrix") (Some "The Matrix") (Some "A hacker learns the truth.")
         date date (Some (8217 # 1000)) (Some [28; 878]).

(** Records with the given upstream id and nothing else but a title. *)
Definition titled (id : option Z) (title : string) : Raw.t :=
  Raw.mk id (Some title) None (Some title) None None
         (Some "1999-03-31") (Some "1999-03-31") None (Some [53; 9999]).

(** A page: a record with an IMDb id (603), a [null], a record without id,
    a record whose external ids hold no IMDb id (604), and a record whose
    lookup fails (605). *)
Definition page : list (option Raw.t) :=
  [ Some (titled (Some 603) "The Matrix"); None; Some (titled None "Untitled");
    Some (titled (Some 604) "Reloaded"); Some (titled (Some 605) "Revolutions") ].

(** An upstream that answers the external ids of 603 with an IMDb id, those
    of 604 without one, those of 605 with the status 500, and every other
    request with [page]. *)
Definition upstream (ticket : nat) (url : Url) : TMDB.Reply :=
  if String.eqb (href url) "https://api.themoviedb.org/3/movie/603/external_ids"
  then mkReply 40 (Responded true 200 (Some (mkData (Some "tt0133093") None)))
  else if String.eqb (href url) "https://api.themoviedb.org/3/movie/604/external_ids"
  then mkReply 35 (Responded true 200 (Some (mkData None None)))
  else if String.eqb (href url) "https://api.themoviedb.org/3/movie/605/external_ids"
  then mkReply 20 (Responded false 500 None)
  else mkReply 120 (Responded true 200 (Some (mkData None (Some page)))).

(** An upstream that is down. *)
Definition offline (ticket : nat) (url : Url) : TMDB.Reply :=
  mkReply 3000 Rejected.

Definition tmdb : TMDBClient := new_tmdb "0123456789abcdef".

(** The entry ['thriller-movies'] of [CATALOGS]. *)
Definition thriller_movies : Catalog :=
  default (mkCatalog "" "" (fun _ => ret [])) (assoc "thriller-movies" (CATALOGS tmdb)).

(** A process that has just started: empty caches, no request sent. *)
Definition world : World := mkWorld ∅ ∅ 1700000000000 [] [] upstream.
Definition world_offline : World := mkWorld ∅ ∅ 1700000000000 [] [] offline.

(** A page that holds the title 603 twice. *)
Definition twice : list (option Raw.t) :=
  [ Some (titled (Some 603) "The Matrix"); Some (titled (Some 603) "The Matrix") ].

(** An upstream that answers the external ids of 603 with an IMDb id up to
    the request number [n] and without one afterwards, and every other
    request with [twice]. *)
Definition upstream_until (n : nat) (ticket : nat) (url : Url) : TMDB.Reply :=
  if String.eqb (href url) "https://api.themoviedb.org/3/movie/603/external_ids"
  then if (ticket <=? n)%nat
       then mkReply 40 (Responded true 200 (Some (mkData (Some "tt0133093") None)))
       else mkReply 35 (Responded true 200 (Some (mkData None None)))
  else mkReply 120 (Responded true 200 (Some (mkData None (Some twice)))).

Definition world_until (n : nat) : World :=
  mkWorld ∅ ∅ 1700000000000 [] [] (upstream_until n).

(** A session on one key: a call, a minute later a second call, and a
    third one thirty minutes after the second. *)
Definition popular : M (list Meta.t) :=
  listing Movie tmdb "/movie/popular" [ ("page", VNum 1) ].

Definition session : list Spec.Step :=
  [ Spec.Call "popular_movies_1" popular; Spec.Idle 60000;
    Spec.Call "popular_movies_1" popular; Spec.Idle 1800000;
    Spec.Call "popular_movies_1" popular ].

Definition second_call : Spec.Seen :=
  default (Spec.mkSeen "" 0 [] (Thrown TypeError) 0)
          (Spec.observe session [] world !! 1%nat).

End Sample.

(** ** Vocabulary of the further properties *)

Module Further.
Import Js TMDB Index Spec.

(** *** Cache keys *)

(** The literal a cache key begins with, what follows it, and the rank of
    the method among the cached listings. *)
Definition call_prefix (l : Listing) : string :=
  match l with
  | Call_TrendingMoviesDay page => "trending_movies_day_"
  | Call_TrendingMoviesWeek page => "trending_movies_week_"
  | Call_TrendingSeriesDay page => "trending_series_day_"
  | Call_TrendingSeriesWeek page => "trending_series_week_"
  | Call_TopRatedMovies page => "top_rated_movies_"
  | Call_TopRatedSeries page => "top_rated_series_"
  | Call_PopularMovies page => "popular_movies_"
  | Call_HiddenGems page => "hidden_gems_"
  | Call_NowPlayingMovies page => "now_playing_"
  | Call_UpcomingMovies page => "upcoming_"
  | Call_MoviesByGenre genreId page => "movies_genre_"
  | Call_SeriesByGenre genreId page => "series_genre_"
  | Call_MiniSeries page => "miniseries_"
  | Call_KDramas page => "kdramas_"
  | Call_Anime page => "anime_"
  | Call_DocuSeries page => "docuseries_"
  | Call_MoviesByProvider providerId page region => "movies_provider_"
  | Call_SeriesByProvider providerId page region => "series_provider_"
  | Call_MoviesByCountry countryCode page => "movies_country_"
  | Call_JDrama page => "jdrama_"
  | Call_AsianDrama page => "asian_drama_"
  | Call_ChineseMovies page => "chinese_movies_"
  | Call_KoreanRomance page => "korean_romance_"
  | Call_CrimeMovies page => "crime_movies_"
  | Call_CrimeSeries page => "crime_series_"
  | Call_ClassicSeries page => "classic_series_"
  | Call_ClassicMovies page => "classic_movies_"
  | Call_MoviesByKeyword keywordId page => "movies_keyword_"
  | Call_ChristmasMovies page => "christmas_"
  | Call_HalloweenMovies page => "halloween_"
  | Call_FeelGoodMovies page => "feelgood_"
  | Call_MindBendingMovies page => "mindbending_"
  | Call_CultMovies page => "cult_"
  | Call_FamilyMovies page => "family_"
  | Call_OscarWinners page => "oscars_"
  end.

Definition call_payload (l : Listing) : string :=
  match l with
  | Call_TrendingMoviesDay page => pretty page
  | Call_TrendingMoviesWeek page => pretty page
  | Call_TrendingSeriesDay page => pretty page
  | Call_TrendingSeriesWeek page => pretty page
  | Call_TopRatedMovies page => pretty page
  | Call_TopRatedSeries page => pretty page
  | Call_PopularMovies page => pretty page
  | Call_HiddenGems page => pretty page
  | Call_NowPlayingMovies page => pretty page
  | Call_UpcomingMovies page => pretty page
  | Call_MoviesByGenre genreId page => pretty genreId +:+ "_" +:+ pretty page
  | Call_SeriesByGenre genreId page => pretty genreId +:+ "_" +:+ pretty page
  | Call_MiniSeries page => pretty page
  | Call_KDramas page => pretty page
  | Call_Anime page => pretty page
  | Call_DocuSeries page => pretty page
  | Call_MoviesByProvider providerId page region => pretty providerId +:+ "_" +:+ region +:+ "_" +:+ pretty page
  | Call_SeriesByProvider providerId page region => pretty providerId +:+ "_" +:+ region +:+ "_" +:+ pretty page
  | Call_MoviesByCountry countryCode page => countryCode +:+ "_" +:+ pretty page
  | Call_JDrama page => pretty page
  | Call_AsianDrama page => pretty page
  | Call_ChineseMovies page => pretty page
  | Call_KoreanRomance page => pretty page
  | Call_CrimeMovies page => pretty page
  | Call_CrimeSeries page => pretty page
  | Call_ClassicSeries page => pretty page
  | Call_ClassicMovies page => pretty page
  | Call_MoviesByKeyword keywordId page => pretty keywordId +:+ "_" +:+ pretty page
  | Call_ChristmasMovies page => pretty page
  | Call_HalloweenMovies page => pretty page
  | Call_FeelGoodMovies page => pretty page
  | Call_MindBendingMovies page => pretty page
  | Call_CultMovies page => pretty page
  | Call_FamilyMovies page => pretty page
  | Call_OscarWinners page => pretty page
  end.

Definition call_rank (l : Listing) : nat :=
  (match l with
  | Call_TrendingMoviesDay page => 0
  | Call_TrendingMoviesWeek page => 1
  | Call_TrendingSeriesDay page => 2
  | Call_TrendingSeriesWeek page => 3
  | Call_TopRatedMovies page => 4
  | Call_TopRatedSeries page => 5
  | Call_PopularMovies page => 6
  | Call_HiddenGems page => 7
  | Call_NowPlayingMovies page => 8
  | Call_UpcomingMovies page => 9
  | Call_MoviesByGenre genreId page => 10
  | Call_SeriesByGenre genreId page => 11
  | Call_MiniSeries page => 12
  | Call_KDramas page => 13
  | Call_Anime page => 14
  | Call_DocuSeries page => 15
  | Call_MoviesByProvider providerId page region => 16
  | Call_SeriesByProvider providerId page region => 17
  | Call_MoviesByCountry countryCode page => 18
  | Call_JDrama page => 19
  | Call_AsianDrama page => 20
  | Call_ChineseMovies page => 21
  | Call_KoreanRomance page => 22
  | Call_CrimeMovies page => 23
  | Call_CrimeSeries page => 24
  | Call_ClassicSeries page => 25
  | Call_ClassicMovies page => 26
  | Call_MoviesByKeyword keywordId page => 27
  | Call_ChristmasMovies page => 28
  | Call_HalloweenMovies page => 29
  | Call_FeelGoodMovies page => 30
  | Call_MindBendingMovies page => 31
  | Call_CultMovies page => 32
  | Call_FamilyMovies page => 33
  | Call_OscarWinners page => 34
   end)%nat.

(** The formatter a cached listing maps over its page. *)
Definition call_kind (l : Listing) : Kind :=
  match l with
  | Call_TrendingMoviesDay page => Movie
  | Call_TrendingMoviesWeek page => Movie
  | Call_TrendingSeriesDay page => Series
  | Call_TrendingSeriesWeek page => Series
  | Call_TopRatedMovies page => Movie
  | Call_TopRatedSeries page => Series
  | Call_PopularMovies page => Movie
  | Call_HiddenGems page => Movie
  | Call_NowPlayingMovies page => Movie
  | Call_UpcomingMovies page => Movie
  | Call_MoviesByGenre genreId page => Movie
  | Call_SeriesByGenre genreId page => Series
  | Call_MiniSeries page => Series
  | Call_KDramas page => Series
  | Call_Anime page => Series
  | Call_DocuSeries page => Series
  | Call_MoviesByProvider providerId page region => Movie
  | Call_SeriesByProvider providerId page region => Series
  | Call_MoviesByCountry countryCode page => Movie
  | Call_JDrama page => Series
  | Call_AsianDrama page => Series
  | Call_ChineseMovies page => Movie
  | Call_KoreanRomance page => Series
  | Call_CrimeMovies page => Movie
  | Call_CrimeSeries page => Series
  | Call_ClassicSeries page => Series
  | Call_ClassicMovies page => Movie
  | Call_MoviesByKeyword keywordId page => Movie
  | Call_ChristmasMovies page => Movie
  | Call_HalloweenMovies page => Movie
  | Call_FeelGoodMovies page => Movie
  | Call_MindBendingMovies page => Movie
  | Call_CultMovies page => Movie
  | Call_FamilyMovies page => Movie
  | Call_OscarWinners page => Movie
  end.

(** The page a call asks for. *)
Definition call_page (l : Listing) : Z :=
  match l with
  | Call_TrendingMoviesDay page => page
  | Call_TrendingMoviesWeek page => page
  | Call_TrendingSeriesDay page => page
  | Call_TrendingSeriesWeek page => page
  | Call_TopRatedMovies page => page
  | Call_TopRatedSeries page => page
  | Call_PopularMovies page => page
  | Call_HiddenGems page => page
  | Call_NowPlayingMovies page => page
  | Call_UpcomingMovies page => page
  | Call_MoviesByGenre genreId page => page
  | Call_SeriesByGenre genreId page => page
  | Call_MiniSeries page => page
  | Call_KDramas page => page
  | Call_Anime page => page
  | Call_DocuSeries page => page
  | Call_MoviesByProvider providerId page region => page
  | Call_SeriesByProvider providerId page region => page
  | Call_MoviesByCountry countryCode page => page
  | Call_JDrama page => page
  | Call_AsianDrama page => page
  | Call_ChineseMovies page => page
  | Call_KoreanRomance page => page
  | Call_CrimeMovies page => page
  | Call_CrimeSeries page => page
  | Call_ClassicSeries page => page
  | Call_ClassicMovies page => page
  | Call_MoviesByKeyword keywordId page => page
  | Call_ChristmasMovies page => page
  | Call_HalloweenMovies page => page
  | Call_FeelGoodMovies page => page
  | Call_MindBendingMovies page => page
  | Call_CultMovies page => page
  | Call_FamilyMovies page => page
  | Call_OscarWinners page => page
  end.

(** The literals the cache keys begin with, by rank. *)
Definition key_prefixes : list string :=
  [ "trending_movies_day_";
    "trending_movies_week_";
    "trending_series_day_";
    "trending_series_week_";
    "top_rated_movies_";
    "top_rated_series_";
    "popular_movies_";
    "hidden_gems_";
    "now_playing_";
    "upcoming_";
    "movies_genre_";
    "series_genre_";
    "miniseries_";
    "kdramas_";
    "anime_";
    "docuseries_";
    "movies_provider_";
    "series_provider_";
    "movies_country_";
    "jdrama_";
    "asian_drama_";
    "chinese_movies_";
    "korean_romance_";
    "crime_movies_";
    "crime_series_";
    "classic_series_";
    "classic_movies_";
    "movies_keyword_";
    "christmas_";
    "halloween_";
    "feelgood_";
    "mindbending_";
    "cult_";
    "family_";
    "oscars_" ].

(** A string without the character [_]. *)
Fixpoint no_underscore (s : string) : bool :=
  match s with
  | EmptyString => true
  | String c s' => negb (Ascii.eqb c "_") && no_underscore s'
  end.

(** One of two strings begins with the other. *)
Definition comparable (p q : string) : bool :=
  String.prefix p q || String.prefix q p.

(** No two of the literals of [key_prefixes] at different ranks are
    comparable. *)
Definition prefix_free (ps : list string) : bool :=
  forallb (fun '(i, p) =>
             forallb (fun '(j, q) => (i =? j)%nat || negb (comparable p q))
                     (imap pair ps))
          (imap pair ps).

(** *** Requests *)

(** The title a record of the page makes the formatter look up: the record
    has an upstream id (not [0]) that [imdbCache] does not hold. *)
Definition needs_lookup (kind : Kind) (cache0 : gmap string (option string))
    (record : option Raw.t) : option Z :=
  match record with
  | None => None
  | Some r =>
      match Raw.id r with
      | None => None
      | Some tmdbId =>
          if tmdbId =? 0 then None
          else match cache0 !! imdbKey kind tmdbId with
               | Some _ => None
               | None => Some tmdbId
               end
      end
  end.

(** The requests for external ids that formatting a page sends, in order. *)
Definition lookups (kind : Kind) (this : TMDBClient)
    (cache0 : gmap string (option string)) (records : list (option Raw.t)) : list Url :=
  omap (fun record => lookup_url kind this <$> needs_lookup kind cache0 record) records.

(** The records of the page an upstream reply holds, when it holds one. *)
Definition page_of_reply (r : Response) : option (list (option Raw.t)) :=
  match reply_data r with
  | Ok data => results data
  | Thrown _ => None
  end.

(** The error a listing ends with on a reply of the upstream to its own
    request, if any. *)
Definition listing_error (r : Response) : option Error :=
  match reply_data r with
  | Ok data => match results data with
               | Some _ => None
               | None => Some TypeError
               end
  | Thrown e => Some e
  end.

(** *** The catalogues *)

(** The call of the client behind each entry of [CATALOGS], in the order of
    the entries. *)
Definition catalog_calls : list (Z -> Listing) :=
  [ (fun page => Call_KDramas page);
    (fun page => Call_KoreanRomance page);
    (fun page => Call_MoviesByCountry "KR" page);
    (fun page => Call_JDrama page);
    (fun page => Call_MoviesByCountry "JP" page);
    (fun page => Call_AsianDrama page);
    (fun page => Call_ChineseMovies page);
    (fun page => Call_MoviesByGenre 53 page);
    (fun page => Call_SeriesByGenre 80 page);
    (fun page => Call_CrimeMovies page);
    (fun page => Call_CrimeSeries page);
    (fun page => Call_ClassicMovies page);
    (fun page => Call_ClassicSeries page);
    (fun page => Call_MiniSeries page);
    (fun page => Call_MoviesByGenre 10749 page);
    (fun page => Call_MoviesByGenre 18 page);
    (fun page => Call_SeriesByGenre 18 page);
    (fun page => Call_TopRatedMovies page);
    (fun page => Call_TopRatedSeries page);
    (fun page => Call_MoviesByProvider 8 page "FR");
    (fun page => Call_SeriesByProvider 8 page "FR");
    (fun page => Call_MoviesByProvider 119 page "FR");
    (fun page => Call_SeriesByProvider 119 page "FR");
    (fun page => Call_MoviesByProvider 337 page "FR");
    (fun page => Call_SeriesByProvider 337 page "FR");
    (fun page => Call_MoviesByProvider 381 page "FR");
    (fun page => Call_SeriesByProvider 381 page "FR") ].

(** *** The manifest of index.js *)

(** An element of [extra] in a declared catalogue:
    [{ name: 'skip', isRequired: false }]. *)
Record ExtraDecl : Type := mkExtraDecl {
  extra_name : string;
  isRequired : bool
}.

(** A declared catalogue: [{ type, id, name, extra }]. *)
Record Declared : Type := mkDeclared {
  declared_type : string;
  declared_id : string;
  declared_name : string;
  declared_extra : list ExtraDecl
}.

(** The object [manifest]. *)
Record Manifest : Type := mkManifest {
  manifest_id : string;
  version : string;
  manifest_name : string;
  description : string;
  logo : string;
  background : string;
  resources : list string;
  types : list string;
  idPrefixes : list string;
  catalogs : list Declared
}.

(** [Object.entries(CATALOGS).map(([id, catalog]) => ({ ... }))] *)
Definition declare (entry : string * Catalog) : Declared :=
  mkDeclared (Index.type (snd entry))
             ("cataloog-bp-" +:+ fst entry)
             (Index.name (snd entry))
             [ mkExtraDecl "skip" false ].

Definition manifest (tmdb : TMDBClient) : Manifest :=
  mkManifest "community.stremio.cataloog-bp" "1.0.0" "Cataloog BP"
             "Catalogue personnalisé - Asie, Classiques, Thrillers, Policiers"
             "https://www.themoviedb.org/assets/2/v4/logos/v2/blue_square_2-d537fb228cf3edd904ef09b136fe3fec72548ebc1fea3fbbd1ad9e36364db38b.svg"
             "https://image.tmdb.org/t/p/original/56v2KjBlU4XaOv9rVYEQypROD7P.jpg"
             [ "catalog" ] [ "movie"; "series" ] [ "tt" ]
             (List.map declare (CATALOGS tmdb)).

(** The request a client makes for a declared catalogue. *)
Definition request_for (d : Declared) (extra : option Extra) : Args :=
  mkArgs (declared_type d) (declared_id d) extra.

(** *** Metas and the entries of the caches *)

(** The [type] of the metas of a formatter. *)
Definition kind_name (kind : Kind) : string :=
  match kind with
  | Movie => "movie"
  | Series => "series"
  end.

(** A meta as the formatters build it: the type of its formatter, a
    non-empty id that is also its [imdb_id], and artwork addresses made of
    that id. *)
Definition well_formed (kind : Kind) (m : Meta.t) : Prop :=
  Meta.type m = kind_name kind
  /\ Meta.id m <> ""
  /\ Meta.imdb_id m = Meta.id m
  /\ Meta.poster m = METAHUB_URL +:+ "/poster/medium/" +:+ Meta.id m +:+ "/img"
  /\ Meta.background m = METAHUB_URL +:+ "/background/medium/" +:+ Meta.id m +:+ "/img"
  /\ Meta.logo m = METAHUB_URL +:+ "/logo/medium/" +:+ Meta.id m +:+ "/img".

(** The keys of the response cache that the detail methods of the client
    use: [`movie_details_${movieId}`] and [`series_details_${seriesId}`]. *)
Definition details_key (kind : Kind) (id : Z) : string :=
  match kind with
  | Movie => "movie_details_" +:+ pretty id
  | Series => "series_details_" +:+ pretty id
  end.

(** Every entry of the response cache under the key of a call of a listing
    holds metas of the formatter of that call and was not stamped later than
    now. *)
Definition cache_sound (w : World) : Prop :=
  forall (l : Listing) (e : CacheEntry),
    cache w !! call_key l = Some e ->
    timestamp e <= clock w /\ Forall (well_formed (call_kind l)) (data e).

(** Every entry of [imdbCache] is under the key of a title and holds [null]
    or a non-empty id. *)
Definition imdb_sound (w : World) : Prop :=
  forall (key : string) (v : option string),
    imdbCache w !! key = Some v ->
    v <> Some ""
    /\ exists (kind : Kind) (tmdbId : Z), key = imdbKey kind tmdbId.

(** A computation that leaves [imdbCache] sound. *)
Definition keeps_imdb_sound {A} (m : M A) : Prop :=
  forall w : World, imdb_sound w -> imdb_sound (snd (m w)).

(** *** The names of the parameters of a URL *)

(** The names of [url.searchParams], in the order of [url.toString()]. *)
Definition parameter_names (url : Url) : list string := (searchParams url).*1.

(** The line [cached] writes for [key] in [w]. *)
Definition cache_line (key : string) (w : World) : LogLine :=
  if fresh key w then CacheHit key else CacheMiss key.

(** *** The medium of an endpoint *)

(** The medium an endpoint of the upstream API is about: [/movie...] or
    [/tv...], after [/trending], [/discover] or [/search] when the endpoint
    starts with one of them. *)
Definition medium (endpoint : string) : option Kind :=
  let rest :=
    match strip_prefix "/trending" endpoint with
    | Some rest => rest
    | None =>
        match strip_prefix "/discover" endpoint with
        | Some rest => rest
        | None => default endpoint (strip_prefix "/search" endpoint)
        end
    end in
  match strip_prefix "/movie" rest with
  | Some _ => Some Movie
  | None =>
      match strip_prefix "/tv" rest with
      | Some _ => Some Series
      | None => None
      end
  end.

(** *** What only grows *)

(** From [w] to [w']: requests and console lines have been added at the
    end, the clock has not gone back, the upstream is the same, and every
    key of the response cache is still there. *)
Definition grows (w w' : World) : Prop :=
  (exists more : list Url, requests w' = requests w ++ more)
  /\ (exists lines : list LogLine, console w' = console w ++ lines)
  /\ clock w <= clock w'
  /\ upstream w' = upstream w
  /\ (forall key : string, is_Some (cache w !! key) -> is_Some (cache w' !! key)).

(** *** What never touches the console *)

(** A computation that neither reads nor writes the console: run with
    another content of the console, it gives the same result and leaves that
    content. *)
Definition console_blind {A} (m : M A) : Prop :=
  forall (f : list LogLine -> list LogLine) (w : World),
    m (set_console f w) = (fst (m w), set_console f (snd (m w))).

End Further.

(** * Properties *)

Import Js TMDB Index Spec.
Local Open Scope js_scope.

(** ** The genre table and the genres of a meta *)

Lemma genreNames_app (l1 l2 : list Z) :
  genreNames (Some (l1 ++ l2)) = genreNames (Some l1) ++ genreNames (Some l2).
Proof. unfold genreNames. apply omap_app. Qed.

Lemma genreNames_cons (g : Z) (l : list Z) :
  genreNames (Some (g :: l))
  = match GENRE_MAP !! g with
    | Some name => name :: genreNames (Some l)
    | None => genreNames (Some l)
    end.
Proof. reflexivity. Qed.

Lemma GENRE_MAP_size : size GENRE_MAP = 27%nat.
Proof. vm_compute. reflexivity. Qed.

(** C7, as stated: the genre table has 28 entries.  It has 27. *)
Lemma genre_map_has_not_28_entries :
  ~ (size GENRE_MAP = 28%nat) /\ ~ (length GENRE_MAP_entries = 28%nat).
Proof. split; vm_compute; discriminate. Qed.

(** C7, amended: the genres of a formatted record are the names that the
    27-entry table [GENRE_MAP] gives to its genre ids, in the order of the
    ids; an id without an entry contributes nothing; a record without genre
    ids has no genres; the ids [53; 9999] give exactly ["Thriller"]. *)
Theorem genres_follow_genre_map (kind : Kind) (imdbId : string) (r : Raw.t) :
  Meta.genres (meta kind imdbId r) = genreNames (Raw.genre_ids r)
  /\ genreNames None = []
  /\ genreNames (Some []) = []
  /\ (forall (l1 l2 : list Z) (g : Z) (name : string),
        GENRE_MAP !! g = Some name ->
        genreNames (Some (l1 ++ g :: l2))
        = genreNames (Some l1) ++ name :: genreNames (Some l2))
  /\ (forall (l1 l2 : list Z) (g : Z),
        GENRE_MAP !! g = None ->
        genreNames (Some (l1 ++ g :: l2)) = genreNames (Some (l1 ++ l2)))
  /\ (forall (g : Z) (name : string),
        GENRE_MAP !! g = Some name <-> (g, name) ∈ GENRE_MAP_entries)
  /\ size GENRE_MAP = 27%nat
  /\ length GENRE_MAP_entries = 27%nat
  /\ GENRE_MAP !! 9999 = None
  /\ genreNames (Some [53; 9999]) = ["Thriller"].
Proof.
  split; [by destruct kind|].
  split; [reflexivity|]. split; [reflexivity|].
  split.
  { intros l1 l2 g name Hg.
    rewrite genreNames_app, genreNames_cons, Hg. reflexivity. }
  split.
  { intros l1 l2 g Hg.
    rewrite !genreNames_app, genreNames_cons, Hg. reflexivity. }
  split.
  { intros g name. unfold GENRE_MAP.
    rewrite <- elem_of_list_to_map; [done|].
    compute_done. }
  split; [apply GENRE_MAP_size|].
  split; [reflexivity|].
  split; vm_compute; reflexivity.
Qed.

Lemma genres_follow_genre_map_witness :
  genreNames (Some ([28] ++ 53 :: [12]))
  = genreNames (Some [28]) ++ "Thriller" :: genreNames (Some [12]).
Proof.
  apply (genres_follow_genre_map Movie "tt0133093"
           (Raw.mk None None None None None None None None None None)).
  vm_compute. reflexivity.
Defined.



Example parseInt_45 : Js.parseInt (Js.VStr "45") = Some 45.
Proof. reflexivity. Qed.
Example parseInt_abc : Js.parseInt (Js.VStr "12abc") = Some 12.
Proof. reflexivity. Qed.
Example parseInt_hex : Js.parseInt (Js.VStr " -0x1f") = Some (-31).
Proof. reflexivity. Qed.
Example parseInt_num : Js.parseInt (Js.VNum (-20)) = Some (-20).
Proof. vm_compute. reflexivity. Qed.
Example parseInt_undef : Js.parseInt Js.VUndef = None.
Proof. reflexivity. Qed.
Example parseInt_nbsp :
  Js.parseInt (Js.VStr (String (ascii_of_nat 194) (String (ascii_of_nat 160) "45")))
  = Some 45.
Proof. vm_compute. reflexivity. Qed.
Example parseInt_em_space_bom :
  Js.parseInt
    (Js.VStr (String (ascii_of_nat 226) (String (ascii_of_nat 128) (String (ascii_of_nat 131)
               (String (ascii_of_nat 239) (String (ascii_of_nat 187)
                  (String (ascii_of_nat 191) " -7")))))))
  = Some (-7).
Proof. vm_compute. reflexivity. Qed.
Example parseInt_not_white_space :
  Js.parseInt (Js.VStr (String (ascii_of_nat 226) (String (ascii_of_nat 128)
                          (String (ascii_of_nat 139) "45"))))
  = None.
Proof. vm_compute. reflexivity. Qed.
Example parseInt_rounds : Js.parseInt (Js.VStr "9007199254740993") = Some 9007199254740992.
Proof. vm_compute. reflexivity. Qed.
Example parseInt_rounds_to_even :
  Js.parseInt (Js.VStr "9007199254741019") = Some 9007199254741020.
Proof. vm_compute. reflexivity. Qed.
Example floor_div_rounds : Js.floor_div 90071992547409936 20 = 4503599627370497.
Proof. vm_compute. reflexivity. Qed.
Example floor_div_negative_ex : Js.floor_div (-45) 20 = -3.
Proof. vm_compute. reflexivity. Qed.
Example replace_ex : Js.replace "cataloog-bp-" "" "cataloog-bp-kdrama" = "kdrama".
Proof. reflexivity. Qed.
Example toFixed_ex : Js.toFixed1 (7345 # 1000) = "7.3".
Proof. vm_compute. reflexivity. Qed.
Example toFixed_ex2 : Js.toFixed1 (-1 # 100) = "-0.0".
Proof. vm_compute. reflexivity. Qed.

(** ** The year of a meta *)

Lemma substring_0_prefix (n : nat) (s : string) :
  exists rest : string,
    s = String.substring 0 n s +:+ rest
    /\ String.length (String.substring 0 n s) = Nat.min n (String.length s).
Proof.
  revert s. induction n as [|n IH]; intros s.
  - exists s. by destruct s.
  - destruct s as [|c s]; simpl.
    + by exists EmptyString.
    + destruct (IH s) as (rest & Hs & Hlen).
      exists rest. split; [exact (f_equal (String c) Hs) | by rewrite Hlen].
Qed.

(** C4, as stated: a date string of length 3 yields an absent year.  The
    year of a movie whose release date is ["198"] is ["198"]; the year of a
    series whose first air date is [""] is [""]. *)
Lemma short_date_year_is_not_absent :
  Meta.year (movieMeta "tt0133093" (Sample.dated (Some "198"))) = Some "198"
  /\ Meta.year (movieMeta "tt0133093" (Sample.dated (Some "198"))) <> None
  /\ Meta.year (seriesMeta "tt0133093" (Sample.dated (Some ""))) = Some "".
Proof. repeat split; discriminate. Qed.

(** C4, amended: the formatter derives the year, and releaseInfo, as the
    characters of the release or air date string before position four: its
    first four characters when it has four or more, and the whole string
    when it is shorter.  The year is absent exactly when the date string is
    absent.  The release date ["1989-12-31"] yields the year ["1989"]. *)
Theorem year_is_date_prefix (kind : Kind) (imdbId : string) (r : Raw.t) :
  let date := match kind with
              | Movie => Raw.release_date r
              | Series => Raw.first_air_date r
              end in
  let m := meta kind imdbId r in
  Meta.releaseInfo m = Meta.year m
  /\ (date = None <-> Meta.year m = None)
  /\ (forall s : string, date = Some s ->
        exists y rest : string,
          Meta.year m = Some y
          /\ s = y +:+ rest
          /\ String.length y = Nat.min 4 (String.length s))
  /\ Meta.year (meta kind imdbId (Sample.dated (Some "1989-12-31"))) = Some "1989"
  /\ Meta.year (meta kind imdbId (Sample.dated (Some "198"))) = Some "198"
  /\ Meta.year (meta kind imdbId (Sample.dated None)) = None.
Proof.
  intros date m.
  assert (Hyear : Meta.year m = String.substring 0 4 <$> date)
    by (by destruct kind).
  split; [by destruct kind|].
  split.
  { rewrite Hyear. by destruct date. }
  split.
  { intros s Hs. rewrite Hyear, Hs.
    destruct (substring_0_prefix 4 s) as (rest & Heq & Hlen).
    by exists (String.substring 0 4 s), rest. }
  by destruct kind.
Qed.

Lemma year_is_date_prefix_witness :
  exists y rest : string,
    Meta.year (meta Movie "tt0097165" (Sample.dated (Some "1989-12-31"))) = Some y
    /\ "1989-12-31" = y +:+ rest
    /\ String.length y = Nat.min 4 (String.length "1989-12-31").
Proof.
  apply (year_is_date_prefix Movie "tt0097165" (Sample.dated (Some "1989-12-31"))).
  reflexivity.
Defined.

(** ** [parseInt] reads back the decimal rendering of an integer *)

Lemma digit_value_pretty_N_char (d : N) :
  (d < 10)%N -> digit_value (pretty_N_char d) = Some (Z.of_N d).
Proof.
  intros Hd.
  assert (d = 0 \/ d = 1 \/ d = 2 \/ d = 3 \/ d = 4 \/ d = 5 \/ d = 6
          \/ d = 7 \/ d = 8 \/ d = 9)%N as Hcases by lia.
  repeat (destruct Hcases as [->|Hcases]; [reflexivity|]).
  by subst.
Qed.

Lemma pretty_N_char_nonzero (d : N) :
  (0 < d < 10)%N -> pretty_N_char d ∈ nonzero_digits.
Proof.
  intros Hd.
  assert (d = 1 \/ d = 2 \/ d = 3 \/ d = 4 \/ d = 5 \/ d = 6
          \/ d = 7 \/ d = 8 \/ d = 9)%N as Hcases by lia.
  repeat (destruct Hcases as [->|Hcases]; [compute_done|]).
  subst. compute_done.
Qed.

Lemma pretty_N_go_head (x : N) (s : string) :
  (0 < x)%N ->
  exists (c : ascii) (rest : string),
    pretty_N_go x s = String c rest /\ c ∈ nonzero_digits.
Proof.
  revert s. induction (N.lt_wf_0 x) as [x _ IH]; intros s Hx.
  rewrite pretty_N_go_step by done.
  destruct (decide (x `div` 10 = 0)%N) as [Hq|Hq].
  - rewrite Hq, pretty_N_go_0.
    eexists _, _. split; [reflexivity|].
    apply pretty_N_char_nonzero.
    apply N.div_small_iff in Hq; [|done].
    rewrite N.mod_small by done. lia.
  - apply IH; [apply N.div_lt; lia | by apply N.neq_0_lt_0].
Qed.

Lemma parse_digits_pretty_N_go (x : N) (s : string) (acc : option Z) :
  (0 < x)%N ->
  exists k : Z,
    0 <= k /\
    parse_digits 10 acc (pretty_N_go x s)
    = parse_digits 10 (Some (default 0 acc * 10 ^ k + Z.of_N x)) s.
Proof.
  revert s acc. induction (N.lt_wf_0 x) as [x _ IH]; intros s acc Hx.
  rewrite pretty_N_go_step by done.
  assert (Hd : (x `mod` 10 < 10)%N) by (apply N.mod_lt; lia).
  assert (Hx10 : Z.of_N x = Z.of_N (x `div` 10) * 10 + Z.of_N (x `mod` 10)).
  { rewrite (N.div_mod x 10) at 1 by lia. lia. }
  destruct (decide (x `div` 10 = 0)%N) as [Hq|Hq].
  - rewrite Hq, pretty_N_go_0. exists 1. split; [lia|].
    cbn [parse_digits]. rewrite digit_value_pretty_N_char by done.
    replace (Z.of_N (x `mod` 10) <? 10) with true by (symmetry; apply Z.ltb_lt; lia).
    do 2 f_equal. rewrite Hx10, Hq. generalize (default 0 acc), (Z.of_N (x `mod` 10)). intros. lia.
  - destruct (IH (x `div` 10)%N) with
      (s := String (pretty_N_char (x `mod` 10)) s) (acc := acc)
      as (k & Hk & ->); [apply N.div_lt; lia | by apply N.neq_0_lt_0 |].
    exists (k + 1). split; [lia|].
    cbn [parse_digits]. rewrite digit_value_pretty_N_char by done.
    replace (Z.of_N (x `mod` 10) <? 10) with true by (symmetry; apply Z.ltb_lt; lia).
    do 2 f_equal. cbn [default from_option id]. rewrite Hx10, Z.pow_add_r by lia.
    generalize (default 0 acc), (Z.of_N (x `mod` 10)), (Z.of_N (x `div` 10)), (10 ^ k). intros. lia.
Qed.

Lemma parseInt_string_digits (c : ascii) (rest : string) :
  c ∈ nonzero_digits ->
  parseInt_string (String c rest)
  = (fun n => to_double (1 * n)) <$> parse_digits 10 None (String c rest)
  /\ parseInt_string (String "-" (String c rest))
     = (fun n => to_double (-1 * n)) <$> parse_digits 10 None (String c rest).
Proof.
  unfold nonzero_digits. rewrite !elem_of_cons, elem_of_nil.
  intros Hc. repeat (destruct Hc as [->|Hc]; [split; reflexivity|]). done.
Qed.

Lemma parseInt_pretty_pos (p : positive) :
  parseInt_string (pretty (Zpos p)) = Some (to_double (Zpos p))
  /\ parseInt_string (pretty (Zneg p)) = Some (to_double (Zneg p)).
Proof.
  unfold pretty, pretty_Z, pretty, pretty_positive, pretty, pretty_N.
  rewrite decide_False by done.
  destruct (pretty_N_go_head (N.pos p) "") as (c & rest & Heq & Hc); [lia|].
  destruct (parse_digits_pretty_N_go (N.pos p) "" None) as (k & Hk & Hparse); [lia|].
  destruct (parseInt_string_digits c rest Hc) as [Hpos Hneg].
  rewrite Heq in *.
  split.
  - rewrite Hpos, Hparse; cbn [fmap option_fmap option_map default parse_digits];
      do 2 f_equal; lia.
  - change ("-" +:+ String c rest) with (String "-" (String c rest)).
    rewrite Hneg, Hparse; cbn [fmap option_fmap option_map default parse_digits];
      do 2 f_equal; lia.
Qed.

Lemma parseInt_pretty_double (n : Z) :
  parseInt (VNum n) = Some (to_double n) /\ parseInt (VStr (pretty n)) = Some (to_double n).
Proof.
  unfold parseInt, to_string.
  destruct n as [|p|p]; [split; reflexivity| |];
    destruct (parseInt_pretty_pos p); by split.
Qed.

(** *** Doubles on the safe integers *)

Lemma round_half_even_near (num den : Z) :
  0 < den ->
  - den <= 2 * (den * round_half_even num den - num) <= den.
Proof.
  intros Hden. unfold round_half_even.
  pose proof (Z.div_mod num den ltac:(lia)) as Hdm.
  pose proof (Z.mod_pos_bound num den Hden) as Hr.
  destruct (Z.ltb_spec (2 * (num mod den)) den); [nia|].
  destruct (Z.ltb_spec den (2 * (num mod den))); [nia|].
  destruct (Z.even (num / den)); nia.
Qed.

Lemma round_half_even_exact (num den : Z) :
  0 < den -> num mod den = 0 -> round_half_even num den = num / den.
Proof.
  intros Hden Hr. unfold round_half_even. rewrite Hr.
  destruct (Z.ltb_spec (2 * 0) den); [done|lia].
Qed.

Lemma safe_integer_log2 (n : Z) : safe_integer n -> Z.log2 (Z.abs n) <= 52.
Proof.
  unfold safe_integer, MAX_SAFE_INTEGER. intros Hn.
  destruct (Z.eq_dec (Z.abs n) 0) as [->|Hnz]; [done|].
  assert (Z.log2 (Z.abs n) < 53); [|lia].
  apply Z.log2_lt_pow2; lia.
Qed.

Lemma to_double_safe (n : Z) : safe_integer n -> to_double n = n.
Proof.
  intros Hn. unfold to_double. pose proof (safe_integer_log2 n Hn).
  by destruct (Z.leb_spec (Z.log2 (Z.abs n) - 52) 0); [|lia].
Qed.

Lemma floor_div_safe (a : Z) : safe_integer a -> floor_div a 20 = a / 20.
Proof.
  intros Ha. unfold floor_div.
  destruct (Z.eqb_spec a 0) as [->|Hnz]; [done|].
  change (Z.log2 20) with 4.
  pose proof (safe_integer_log2 a Ha) as Hl.
  set (A := Z.abs a) in *.
  assert (HA : 0 < A) by (unfold A; lia).
  set (l := Z.log2 A - 4).
  set (L := if _ <? _ then l - 1 else l).
  assert (HL : L <= 48) by (subst L; destruct (_ <? _); lia).
  set (e := L - 52).
  destruct (Z.leb_spec 0 e) as [|He]; [lia|].
  rewrite Z.max_r by lia. rewrite Z.max_l by lia.
  rewrite Z.pow_0_r, Z.mul_1_r.
  set (N := 2 ^ (- e)).
  assert (HN : 16 <= N).
  { subst N. change 16 with (2 ^ 4). apply Z.pow_le_mono_r; lia. }
  pose proof (round_half_even_near (A * N) 20 ltac:(lia)) as Hm.
  assert (Hexact : (A * N) mod 20 = 0 -> round_half_even (A * N) 20 = A * N / 20)
    by (apply round_half_even_exact; lia).
  set (m := round_half_even (A * N) 20) in *.
  pose proof (Z.div_mod A 20 ltac:(lia)) as HdA.
  pose proof (Z.mod_pos_bound A 20 ltac:(lia)) as HrA.
  set (k := A / 20) in *. set (r0 := A mod 20) in *.
  assert (Hzero : r0 = 0 -> m = k * N).
  { intros Hr0. rewrite Hexact.
    - replace (A * N) with (k * N * 20) by lia. by rewrite Z.div_mul.
    - replace (A * N) with (k * N * 20) by lia. by rewrite Z.mod_mul. }
  assert (Hpos : 0 < r0 -> k * N < m < (k + 1) * N) by (intros Hr0; nia).
  destruct (Z.sgn_spec a) as [(Hpos' & ->)|[(? & _)|(Hneg & ->)]]; [|lia|].
  - replace (a / 20) with k by (subst k A; f_equal; lia).
    rewrite Z.mul_1_l. destruct (Z.eq_dec r0 0) as [Hr0|Hr0].
    + rewrite (Hzero Hr0). rewrite Z.div_mul; lia.
    + symmetry. apply (Z.div_unique m N k (m - N * k)); lia.
  - replace (a / 20) with ((- A) / 20) by (subst A; f_equal; lia).
    destruct (Z.eq_dec r0 0) as [Hr0|Hr0].
    + rewrite (Hzero Hr0). transitivity (- k).
      * symmetry. apply (Z.div_unique _ N (- k) 0); lia.
      * apply (Z.div_unique (- A) 20 (- k) 0); lia.
    + transitivity (- k - 1).
      * symmetry. apply (Z.div_unique _ N (- k - 1) ((k + 1) * N - m)); lia.
      * apply (Z.div_unique (- A) 20 (- k - 1) (20 - r0)); lia.
Qed.

Lemma safe_integer_page (skip : Z) : safe_integer skip -> safe_integer (skip / 20 + 1).
Proof.
  unfold safe_integer, MAX_SAFE_INTEGER. intros Hs.
  pose proof (Z.div_mod skip 20 ltac:(lia)).
  pose proof (Z.mod_pos_bound skip 20 ltac:(lia)). lia.
Qed.

Lemma page_of_safe (v : JsVal) (skip : Z) :
  parseInt v = Some skip -> safe_integer skip ->
  page_of (Some (mkExtra v)) = skip / 20 + 1.
Proof.
  intros Hv Hs. unfold page_of, extra_skip, Index.skip, add. rewrite Hv.
  change (or_zero (Some skip)) with skip. cbv zeta.
  rewrite (floor_div_safe skip Hs).
  apply to_double_safe, safe_integer_page, Hs.
Qed.

Lemma page_of_skip_safe (extra : option Extra) :
  let skip := or_zero (parseInt (extra_skip extra)) in
  safe_integer skip -> page_of extra = skip / 20 + 1 /\ safe_integer (page_of extra).
Proof.
  intros skip Hs. unfold page_of, add. fold skip. cbv zeta.
  rewrite (floor_div_safe skip Hs).
  rewrite (to_double_safe _ (safe_integer_page skip Hs)).
  split; [done|]. by apply safe_integer_page.
Qed.

Lemma parseInt_pretty (n : Z) :
  safe_integer n -> parseInt (VNum n) = Some n /\ parseInt (VStr (pretty n)) = Some n.
Proof.
  intros Hn. destruct (parseInt_pretty_double n) as [Hnum Hstr].
  by rewrite Hnum, Hstr, (to_double_safe n Hn).
Qed.

(** *** Doubles keep the sign *)

Lemma to_double_nonpositive (n : Z) : n <= 0 -> to_double n <= 0.
Proof.
  intros Hn. unfold to_double.
  destruct (Z.leb_spec (Z.log2 (Z.abs n) - 52) 0) as [|Hshift]; [done|].
  set (step := 2 ^ (Z.log2 (Z.abs n) - 52)).
  assert (Hstep : 0 < step) by (apply Z.pow_pos_nonneg; lia).
  pose proof (round_half_even_near (Z.abs n) step Hstep) as Hm.
  destruct (Z.sgn_spec n) as [(? & _)|[(<- & _)|(_ & ->)]];
    [lia|cbn in Hshift; lia|].
  pose proof (Z.abs_nonneg n) as Habs.
  set (m := round_half_even (Z.abs n) step) in *.
  assert (0 <= m) by nia. nia.
Qed.

Lemma floor_div_negative (a : Z) : a < 0 -> floor_div a 20 <= -1.
Proof.
  intros Ha. unfold floor_div.
  destruct (Z.eqb_spec a 0) as [->|_]; [lia|].
  change (Z.log2 20) with 4.
  set (A := Z.abs a).
  assert (HA : 0 < A) by (unfold A; lia).
  pose proof (Z.log2_spec A HA) as [Hlog _].
  pose proof (Z.log2_nonneg A) as Hlog0.
  set (l := Z.log2 A - 4) in *.
  set (L := if _ <? _ then l - 1 else l).
  assert (HL : L <= l) by (subst L; destruct (_ <? _); lia).
  set (e := L - 52).
  set (num := A * 2 ^ Z.max 0 (- e)). set (den := 20 * 2 ^ Z.max 0 e).
  assert (Hden : 0 < den).
  { subst den. assert (0 < 2 ^ Z.max 0 e) by (apply Z.pow_pos_nonneg; lia). lia. }
  assert (Hnum : den <= num).
  { subst num den. destruct (Z.le_gt_cases 0 e) as [He|He].
    - rewrite (Z.max_r 0 e), (Z.max_l 0 (- e)) by lia. rewrite Z.pow_0_r, Z.mul_1_r.
      assert (2 ^ (e + 56) <= 2 ^ Z.log2 A) by (apply Z.pow_le_mono_r; lia).
      rewrite Z.pow_add_r in * by lia. change (2 ^ 56) with 72057594037927936 in *.
      assert (0 < 2 ^ e) by (apply Z.pow_pos_nonneg; lia). nia.
    - rewrite (Z.max_l 0 e), (Z.max_r 0 (- e)) by lia. rewrite Z.pow_0_r, Z.mul_1_r.
      destruct (Z.le_gt_cases 5 (- e)) as [Hbig|Hsmall].
      + assert (2 ^ 5 <= 2 ^ (- e)) by (apply Z.pow_le_mono_r; lia).
        change (2 ^ 5) with 32 in *. nia.
      + assert (2 ^ 52 <= 2 ^ Z.log2 A) by (apply Z.pow_le_mono_r; lia).
        assert (0 < 2 ^ (- e)) by (apply Z.pow_pos_nonneg; lia).
        change (2 ^ 52) with 4503599627370496 in *. nia. }
  pose proof (round_half_even_near num den Hden) as Hm.
  set (m := round_half_even num den) in *.
  assert (Hm1 : 1 <= m) by nia.
  replace (Z.sgn a) with (-1) by (destruct (Z.sgn_spec a) as [?|[?|[_ ->]]]; lia).
  destruct (Z.leb_spec 0 e) as [He|He].
  - assert (0 < 2 ^ e) by (apply Z.pow_pos_nonneg; lia). nia.
  - assert (0 < 2 ^ (- e)) by (apply Z.pow_pos_nonneg; lia).
    assert (-1 * m / 2 ^ (- e) < 0); [|lia].
    apply Z.div_lt_upper_bound; lia.
Qed.

Lemma page_of_negative (v : JsVal) (skip : Z) :
  parseInt v = Some skip -> skip < 0 -> page_of (Some (mkExtra v)) <= 0.
Proof.
  intros Hv Hs. unfold page_of, extra_skip, Index.skip, add. rewrite Hv.
  change (or_zero (Some skip)) with skip. cbv zeta. apply to_double_nonpositive.
  pose proof (floor_div_negative skip Hs). lia.
Qed.

Lemma pair_fst_snd {A B} (p : A * B) (a : A) : fst p = a -> p = (a, snd p).
Proof. intros <-. by destruct p. Qed.

Lemma parseInt_not_numeric (s : string) :
  numeric s = false -> parseInt_string s = None.
Proof.
  unfold numeric, parseInt_string.
  destruct (sign_of (trim_start s)) as [sign s2]. cbn [snd].
  destruct s2 as [|c r]; [reflexivity|].
  destruct c as [[] [] [] [] [] [] [] []]; intros Hc;
    first [discriminate Hc | reflexivity].
Qed.

(** ** The handler *)

Lemma handler_registered (tmdb : TMDBClient) (args : Args) (c : Catalog) (w : World) :
  assoc (catalogId_of args) (CATALOGS tmdb) = Some c ->
  defineCatalogHandler tmdb args w
  = dispatch c (args_id args) (page_of (args_extra args)) (requested args w).
Proof.
  intros Hc. unfold defineCatalogHandler, CATALOGS_get, dispatch.
  fold (catalogId_of args). rewrite Hc.
  unfold bind at 1. unfold console_log at 1, modify at 1. cbn beta iota.
  fold (requested args w). unfold try_catch.
  unfold bind at 1.
  destruct (fetch c (page_of (args_extra args)) (requested args w)) as [[results|e] w'];
    reflexivity.
Qed.

Lemma handler_inherited (tmdb : TMDBClient) (args : Args) (w : World) :
  CATALOGS_get tmdb (catalogId_of args) = Inherited ->
  defineCatalogHandler tmdb args w
  = (Ok [("metas", [])],
     set_console (fun ls => ls ++ [CatalogError (args_id args) TypeError]) (requested args w)).
Proof.
  intros Hc. unfold defineCatalogHandler. fold (catalogId_of args). rewrite Hc.
  reflexivity.
Qed.

Lemma handler_undefined (tmdb : TMDBClient) (args : Args) (w : World) :
  CATALOGS_get tmdb (catalogId_of args) = Undefined ->
  defineCatalogHandler tmdb args w
  = (Ok [("metas", [])],
     set_console (fun ls => ls ++ [CatalogUnknown (catalogId_of args)]) (requested args w)).
Proof.
  intros Hc. unfold defineCatalogHandler. fold (catalogId_of args). rewrite Hc.
  reflexivity.
Qed.

Lemma handler_replies_metas (tmdb : TMDBClient) (args : Args) (w : World) :
  exists metas : list Meta.t,
    fst (defineCatalogHandler tmdb args w) = Ok [("metas", metas)].
Proof.
  destruct (CATALOGS_get tmdb (catalogId_of args)) as [c| |] eqn:Hget.
  - assert (Hc : assoc (catalogId_of args) (CATALOGS tmdb) = Some c).
    { unfold CATALOGS_get in Hget.
      destruct (assoc (catalogId_of args) (CATALOGS tmdb)); [congruence|].
      by destruct (existsb _ _). }
    rewrite (handler_registered _ _ _ _ Hc). unfold dispatch.
    destruct (fetch c _ _) as [[results|e] w']; eauto.
  - rewrite (handler_inherited _ _ _ Hget). eauto.
  - rewrite (handler_undefined _ _ _ Hget). eauto.
Qed.

(** C5, as stated: the response to an unknown catalogue id is
    [{ results: [] }].  The handler answers [{ metas: [] }]. *)
Lemma unknown_catalogue_reply_is_not_results :
  fst (defineCatalogHandler Sample.tmdb (mkArgs "movie" "cataloog-bp-nope" None) Sample.world)
  = Ok [("metas", [])]
  /\ fst (defineCatalogHandler Sample.tmdb (mkArgs "movie" "cataloog-bp-nope" None) Sample.world)
     <> Ok [("results", [])].
Proof. split; [reflexivity | discriminate]. Qed.

(** C5, amended: for a request whose catalogue identifier does not name a
    registered catalogue the handler returns [{ metas: [] }] without
    throwing, and sends nothing upstream; every request is answered by an
    object [{ metas: ... }], never by an error; when the fetch operation of
    the catalogue throws, the answer is [{ metas: [] }]. *)
Theorem handler_always_replies (tmdb : TMDBClient) (args : Args) (w : World) :
  (assoc (catalogId_of args) (CATALOGS tmdb) = None ->
     fst (defineCatalogHandler tmdb args w) = Ok [("metas", [])]
     /\ requests (snd (defineCatalogHandler tmdb args w)) = requests w
     /\ cache (snd (defineCatalogHandler tmdb args w)) = cache w
     /\ imdbCache (snd (defineCatalogHandler tmdb args w)) = imdbCache w)
  /\ (exists metas : list Meta.t,
        fst (defineCatalogHandler tmdb args w) = Ok [("metas", metas)])
  /\ (forall (c : Catalog) (e : Error) (w' : World),
        assoc (catalogId_of args) (CATALOGS tmdb) = Some c ->
        fetch c (page_of (args_extra args)) (requested args w) = (Thrown e, w') ->
        fst (defineCatalogHandler tmdb args w) = Ok [("metas", [])]).
Proof.
  split; [|split].
  - intros Hnone.
    destruct (CATALOGS_get tmdb (catalogId_of args)) as [c| |] eqn:Hget.
    + unfold CATALOGS_get in Hget. rewrite Hnone in Hget.
      by destruct (existsb _ _).
    + by rewrite (handler_inherited _ _ _ Hget).
    + by rewrite (handler_undefined _ _ _ Hget).
  - apply handler_replies_metas.
  - intros c e w' Hc Hfetch.
    rewrite (handler_registered _ _ _ _ Hc). unfold dispatch. by rewrite Hfetch.
Qed.

Lemma handler_always_replies_witness :
  fst (defineCatalogHandler Sample.tmdb (mkArgs "movie" "cataloog-bp-toString" None) Sample.world)
  = Ok [("metas", [])]
  /\ fst (defineCatalogHandler Sample.tmdb
            (mkArgs "movie" "cataloog-bp-thriller-movies" None) Sample.world_offline)
     = Ok [("metas", [])].
Proof.
  split.
  - apply (handler_always_replies Sample.tmdb
             (mkArgs "movie" "cataloog-bp-toString" None) Sample.world).
    reflexivity.
  - pose (args := mkArgs "movie" "cataloog-bp-thriller-movies" None).
    destruct (handler_always_replies Sample.tmdb args Sample.world_offline)
      as (_ & _ & Hthrown).
    apply (Hthrown Sample.thriller_movies FetchError
             (snd (fetch Sample.thriller_movies 1 (requested args Sample.world_offline)))).
    + reflexivity.
    + apply pair_fst_snd. vm_compute. reflexivity.
Defined.

(** ** Pagination *)

(** C6, as stated: the page is [floor(skip / 20) + 1] for every
    non-negative integer skip.  [parseInt] reads a number, and the numbers of
    JavaScript are doubles.  The skip [9007199254741019] is read as
    [9007199254741020], and the page is [450359962737052]; the skip
    [90071992547409936] is read as it is written, and the page is
    [4503599627370498], the quotient [4503599627370496.8] being rounded to
    [4503599627370497] before [Math.floor].  Both pages are one more than
    [floor(skip / 20) + 1]. *)
Lemma large_skip_page_is_not_floor_plus_1 :
  parseInt (VStr "9007199254741019") = Some 9007199254741020
  /\ page_of (Some (mkExtra (VStr "9007199254741019"))) = 450359962737052
  /\ page_of (Some (mkExtra (VStr "9007199254741019"))) <> 9007199254741019 / 20 + 1
  /\ parseInt (VStr "90071992547409936") = Some 90071992547409936
  /\ page_of (Some (mkExtra (VStr "90071992547409936"))) = 4503599627370498
  /\ page_of (Some (mkExtra (VStr "90071992547409936"))) <> 90071992547409936 / 20 + 1.
Proof.
  assert (H1 : page_of (Some (mkExtra (VStr "9007199254741019"))) = 450359962737052)
    by (vm_compute; reflexivity).
  assert (H2 : page_of (Some (mkExtra (VStr "90071992547409936"))) = 4503599627370498)
    by (vm_compute; reflexivity).
  split; [vm_compute; reflexivity|]. split; [exact H1|].
  split; [rewrite H1; vm_compute; discriminate|].
  split; [vm_compute; reflexivity|]. split; [exact H2|].
  rewrite H2. vm_compute. discriminate.
Qed.

(** C6, amended: for every non-negative integer skip of a request up to
    [2^53 - 1] (whatever [parseInt] reads as that integer: the number, its
    decimal string, the string after white space), the page passed to the
    fetch operation of the catalogue is [floor(skip / 20) + 1]; skip 0 gives
    page 1, skip 20 page 2, skip 45 page 3; a skip that is absent or not
    numeric counts as 0 and gives page 1. *)
Theorem page_is_skip_div_20_plus_1 (skip : Z) :
  0 <= skip -> skip <= MAX_SAFE_INTEGER ->
  page_of (Some (mkExtra (VNum skip))) = skip / 20 + 1
  /\ page_of (Some (mkExtra (VStr (pretty skip)))) = skip / 20 + 1
  /\ (forall v : JsVal,
        parseInt v = Some skip ->
        page_of (Some (mkExtra v)) = skip / 20 + 1
        /\ forall (tmdb : TMDBClient) (type id : string) (c : Catalog) (w : World),
             let args := mkArgs type id (Some (mkExtra v)) in
             assoc (catalogId_of args) (CATALOGS tmdb) = Some c ->
             defineCatalogHandler tmdb args w
             = dispatch c id (skip / 20 + 1) (requested args w))
  /\ parseInt (VNum skip) = Some skip
  /\ parseInt (VStr (pretty skip)) = Some skip
  /\ page_of (Some (mkExtra (VStr "0"))) = 1
  /\ page_of (Some (mkExtra (VStr "20"))) = 2
  /\ page_of (Some (mkExtra (VStr "45"))) = 3
  /\ (or_zero (parseInt (extra_skip None)) = 0 /\ page_of None = 1)
  /\ (or_zero (parseInt VUndef) = 0 /\ page_of (Some (mkExtra VUndef)) = 1)
  /\ (or_zero (parseInt VNull) = 0 /\ page_of (Some (mkExtra VNull)) = 1)
  /\ (forall s : string,
        numeric s = false ->
        or_zero (parseInt (VStr s)) = 0 /\ page_of (Some (mkExtra (VStr s))) = 1)
  /\ page_of (Some (mkExtra (VStr "abc"))) = 1
  /\ page_of (Some (mkExtra (VStr ""))) = 1
  /\ page_of (Some (mkExtra (VStr (String (ascii_of_nat 194)
                                     (String (ascii_of_nat 160) "45"))))) = 3.
Proof.
  intros Hskip Hmax.
  assert (Hsafe : safe_integer skip) by (unfold safe_integer; lia).
  destruct (parseInt_pretty skip Hsafe) as [Hnum Hstr].
  assert (Hpage : forall v, parseInt v = Some skip ->
                          page_of (Some (mkExtra v)) = skip / 20 + 1)
    by (intros v Hv; by apply page_of_safe).
  split; [by apply Hpage|].
  split; [by apply Hpage|].
  split.
  { intros v Hv. split; [by apply Hpage|].
    intros tmdb type id c w args Hc.
    rewrite (handler_registered _ _ _ _ Hc). cbn [args_extra args_id args].
    by rewrite Hpage. }
  split; [exact Hnum|]. split; [exact Hstr|].
  do 3 (split; [vm_compute; reflexivity|]).
  do 3 (split; [split; vm_compute; reflexivity|]).
  split; [|repeat split; vm_compute; reflexivity].
  intros s Hs. unfold page_of, extra_skip, Index.skip, parseInt, to_string.
  by rewrite (parseInt_not_numeric s Hs).
Qed.

Lemma page_is_skip_div_20_plus_1_witness :
  page_of (Some (mkExtra (VNum 45))) = 45 / 20 + 1
  /\ fst (defineCatalogHandler Sample.tmdb
            (mkArgs "movie" "cataloog-bp-thriller-movies"
                    (Some (mkExtra (VStr (pretty 45))))) Sample.world)
     = fst (dispatch Sample.thriller_movies "cataloog-bp-thriller-movies" 3
              (requested (mkArgs "movie" "cataloog-bp-thriller-movies"
                                 (Some (mkExtra (VStr (pretty 45))))) Sample.world)).
Proof.
  destruct (page_is_skip_div_20_plus_1 45 ltac:(lia) ltac:(by vm_compute))
    as (Hnum & _ & Hhandler & _).
  split; [exact Hnum|].
  destruct (Hhandler (VStr (pretty 45))) as [_ Hdispatch]; [reflexivity|].
  rewrite (Hdispatch Sample.tmdb "movie" "cataloog-bp-thriller-movies"
             Sample.thriller_movies Sample.world); reflexivity.
Defined.

(** C10, as stated: the page is [floor(skip / 20) + 1] for every skip that
    parses to a negative integer.  Below [-(2^53 - 1)] it is not.  The skip
    [-90071992547409968] parses to that integer, and the page is
    [-4503599627370497]: the quotient [-4503599627370498.4] is rounded to
    [-4503599627370498] before [Math.floor].  The skip [-9007199254741021]
    is read as [-9007199254741020] and gives the page [-450359962737050].
    Both pages are one more than [floor(skip / 20) + 1] of the skip
    written. *)
Lemma large_negative_skip_page_is_not_floor_plus_1 :
  parseInt (VStr "-90071992547409968") = Some (-90071992547409968)
  /\ page_of (Some (mkExtra (VStr "-90071992547409968"))) = -4503599627370497
  /\ page_of (Some (mkExtra (VStr "-90071992547409968"))) <> -90071992547409968 / 20 + 1
  /\ parseInt (VStr "-9007199254741021") = Some (-9007199254741020)
  /\ page_of (Some (mkExtra (VStr "-9007199254741021"))) = -450359962737050
  /\ page_of (Some (mkExtra (VStr "-9007199254741021"))) <> -9007199254741021 / 20 + 1.
Proof.
  assert (H1 : page_of (Some (mkExtra (VStr "-90071992547409968"))) = -4503599627370497)
    by (vm_compute; reflexivity).
  assert (H2 : page_of (Some (mkExtra (VStr "-9007199254741021"))) = -450359962737050)
    by (vm_compute; reflexivity).
  split; [vm_compute; reflexivity|]. split; [exact H1|].
  split; [rewrite H1; vm_compute; discriminate|].
  split; [vm_compute; reflexivity|]. split; [exact H2|].
  rewrite H2. vm_compute. discriminate.
Qed.

(** C10, amended: for every request whose skip parses to a negative
    integer (a finite number), the handler neither clamps nor rejects it: the
    page is zero or negative, and the fetch operation of the catalogue is
    called with that page, which reaches the upstream request; when the skip
    is not below [-(2^53 - 1)] the page is [floor(skip / 20) + 1] (skip -20
    gives page 0). *)
Theorem negative_skip_gives_nonpositive_page (skip : Z) :
  skip < 0 ->
  (forall v : JsVal,
      parseInt v = Some skip ->
      finite skip ->
      page_of (Some (mkExtra v)) <= 0
      /\ forall (tmdb : TMDBClient) (type id : string) (c : Catalog) (w : World),
           let args := mkArgs type id (Some (mkExtra v)) in
           assoc (catalogId_of args) (CATALOGS tmdb) = Some c ->
           defineCatalogHandler tmdb args w
           = dispatch c id (page_of (Some (mkExtra v))) (requested args w))
  /\ (- MAX_SAFE_INTEGER <= skip ->
      page_of (Some (mkExtra (VNum skip))) = skip / 20 + 1
      /\ page_of (Some (mkExtra (VStr (pretty skip)))) = skip / 20 + 1
      /\ skip / 20 + 1 <= 0
      /\ (forall v : JsVal,
            parseInt v = Some skip ->
            page_of (Some (mkExtra v)) = skip / 20 + 1
            /\ forall (tmdb : TMDBClient) (type id : string) (c : Catalog) (w : World),
                 let args := mkArgs type id (Some (mkExtra v)) in
                 assoc (catalogId_of args) (CATALOGS tmdb) = Some c ->
                 defineCatalogHandler tmdb args w
                 = dispatch c id (skip / 20 + 1) (requested args w))
      /\ parseInt (VNum skip) = Some skip
      /\ parseInt (VStr (pretty skip)) = Some skip)
  /\ page_of (Some (mkExtra (VStr "-20"))) = 0
  /\ page_of (Some (mkExtra (VStr "-1"))) = 0
  /\ page_of (Some (mkExtra (VStr "-45"))) = -2
  /\ List.map (fun url => (href url, searchParams_get "page" (searchParams url)))
        (requests (snd (defineCatalogHandler Sample.tmdb
                          (mkArgs "movie" "cataloog-bp-thriller-movies"
                                  (Some (mkExtra (VStr "-20")))) Sample.world)))
     = [ ("https://api.themoviedb.org/3/discover/movie", Some "0");
         ("https://api.themoviedb.org/3/movie/603/external_ids", None);
         ("https://api.themoviedb.org/3/movie/604/external_ids", None);
         ("https://api.themoviedb.org/3/movie/605/external_ids", None) ].
Proof.
  intros Hskip.
  split.
  { intros v Hv _. split; [by apply (page_of_negative v skip)|].
    intros tmdb type id c w args Hc.
    by rewrite (handler_registered _ _ _ _ Hc). }
  split.
  { intros Hmin.
    assert (Hsafe : safe_integer skip) by (unfold safe_integer; lia).
    destruct (parseInt_pretty skip Hsafe) as [Hnum Hstr].
    assert (Hpage : forall v, parseInt v = Some skip ->
                            page_of (Some (mkExtra v)) = skip / 20 + 1)
      by (intros v Hv; by apply page_of_safe).
    split; [by apply Hpage|].
    split; [by apply Hpage|].
    split.
    { assert (skip / 20 < 0); [|lia]. apply Z.div_lt_upper_bound; lia. }
    split; [|by split].
    intros v Hv. split; [by apply Hpage|].
    intros tmdb type id c w args Hc.
    rewrite (handler_registered _ _ _ _ Hc). cbn [args_extra args_id args].
    by rewrite Hpage. }
  do 3 (split; [vm_compute; reflexivity|]).
  vm_compute. reflexivity.
Qed.

Lemma negative_skip_gives_nonpositive_page_witness :
  page_of (Some (mkExtra (VNum (-20)))) = -20 / 20 + 1 /\ -20 / 20 + 1 <= 0.
Proof.
  destruct (negative_skip_gives_nonpositive_page (-20) ltac:(lia))
    as (_ & Hsafe & _).
  destruct Hsafe as (Hnum & _ & Hle & _); [by vm_compute|].
  split; [exact Hnum | exact Hle].
Defined.

(** ** The request URL *)

Lemma searchParams_get_filter (k key : string) (ps : list (string * string)) :
  k <> key ->
  searchParams_get k (List.filter (fun p => negb (String.eqb (fst p) key)) ps)
  = searchParams_get k ps.
Proof.
  intros Hne. induction ps as [|[k' v'] ps IH]; [reflexivity|].
  cbn [List.filter fst searchParams_get].
  destruct (String.eqb_spec k' key) as [->|Hk']; cbn [negb].
  - rewrite IH. destruct (String.eqb_spec key k); [congruence|reflexivity].
  - cbn [searchParams_get]. by rewrite IH.
Qed.

Lemma searchParams_get_set (k key value : string) (ps : list (string * string)) :
  searchParams_get k (searchParams_set key value ps)
  = if String.eqb key k then Some value else searchParams_get k ps.
Proof.
  induction ps as [|[k' v'] ps IH]; cbn [searchParams_set searchParams_get].
  - reflexivity.
  - destruct (String.eqb_spec k' key) as [->|Hk']; cbn [searchParams_get].
    + destruct (String.eqb_spec key k) as [->|Hk]; [reflexivity|].
      apply searchParams_get_filter. congruence.
    + rewrite IH. destruct (String.eqb_spec k' k) as [->|Hk].
      * destruct (String.eqb_spec key k); [congruence|reflexivity].
      * reflexivity.
Qed.

Lemma set_params_href (params : list (string * JsVal)) (url : Url) :
  href (set_params params url) = href url.
Proof.
  revert url. induction params as [|[k v] params IH]; intros url; [reflexivity|].
  unfold set_params in *. cbn [fold_left]. rewrite IH. by destruct (is_nullish v).
Qed.

Lemma set_params_get (k : string) (params : list (string * JsVal)) (url : Url) :
  searchParams_get k (searchParams (set_params params url))
  = match supplied k params with
    | Some v => Some (to_string v)
    | None => searchParams_get k (searchParams url)
    end.
Proof.
  revert url. induction params as [|[k' v] params IH]; intros url; [reflexivity|].
  unfold set_params in *. cbn [fold_left supplied]. rewrite IH.
  destruct (supplied k params); [reflexivity|].
  destruct (is_nullish v); cbn [negb]; [by rewrite andb_false_r|].
  rewrite andb_true_r. cbn [url_set searchParams].
  rewrite searchParams_get_set. by destruct (String.eqb k' k).
Qed.

Lemma set_params_stated (params : list (string * JsVal)) (url : Url) :
  set_params (stated params) url = set_params params url.
Proof.
  revert url. induction params as [|[k v] params IH]; intros url; [reflexivity|].
  unfold set_params, stated in *. cbn [List.filter snd fold_left].
  destruct (is_nullish v) eqn:Hv; cbn [negb fold_left]; rewrite ?Hv; apply IH.
Qed.

Lemma supplied_absent (k : string) (params : list (string * JsVal)) :
  (forall v, (k, v) ∈ params -> is_nullish v = true) -> supplied k params = None.
Proof.
  induction params as [|[k' v'] params IH]; intros Hall; [reflexivity|].
  cbn [supplied]. rewrite IH by (intros v Hv; apply Hall; by right).
  destruct (String.eqb_spec k' k) as [->|]; [|reflexivity].
  by rewrite (Hall v') by left.
Qed.

Lemma supplied_present (k : string) (v : JsVal) (params : list (string * JsVal)) :
  NoDup (params.*1) -> (k, v) ∈ params -> is_nullish v = false ->
  supplied k params = Some v.
Proof.
  induction params as [|[k' v'] params IH]; intros Hnd Hin Hv.
  - by apply elem_of_nil in Hin.
  - cbn [fmap list_fmap fst] in Hnd. apply NoDup_cons in Hnd as [Hk' Hnd].
    cbn [supplied]. apply elem_of_cons in Hin as [[= <- <-]|Hin].
    + rewrite supplied_absent.
      * by rewrite String.eqb_refl, Hv.
      * intros v0 Hv0. destruct Hk'. apply list_elem_of_fmap. by exists (k, v0).
    + by rewrite IH.
Qed.

Lemma NoDup_keys_unique {A} (l : list (string * A)) (k : string) (v v' : A) :
  NoDup (l.*1) -> (k, v) ∈ l -> (k, v') ∈ l -> v = v'.
Proof.
  induction l as [|[k0 v0] l IH]; intros Hnd Hin Hin'.
  - by apply elem_of_nil in Hin.
  - cbn [fmap list_fmap fst] in Hnd. apply NoDup_cons in Hnd as [Hk0 Hnd].
    apply elem_of_cons in Hin as [Heq|Hin];
      apply elem_of_cons in Hin' as [Heq'|Hin'].
    + congruence.
    + injection Heq as -> ->. destruct Hk0.
      apply list_elem_of_fmap. by exists (k0, v').
    + injection Heq' as -> ->. destruct Hk0.
      apply list_elem_of_fmap. by exists (k0, v).
    + by apply IH.
Qed.

Lemma request_url_get (this : TMDBClient) (endpoint k : string)
    (params : list (string * JsVal)) :
  searchParams_get k (searchParams (request_url this endpoint params))
  = match supplied k params with
    | Some v => Some (to_string v)
    | None =>
        if String.eqb "api_key" k then Some (apiKey this)
        else if String.eqb "language" k then Some (language this)
        else None
    end.
Proof. unfold request_url. by rewrite set_params_get. Qed.

(** C8: for every endpoint and every parameter object of the caller,
    [_fetch] sends one request, to the URL it builds, and the reply to that
    request decides its outcome; that URL is the base URL followed by the
    endpoint and always has an [api_key] and a [language] parameter, which are
    the key and the locale of the client unless the caller states its own;
    it has every parameter of the caller whose value is neither [undefined]
    nor [null], with the string of that value; a parameter whose value is
    [undefined] or [null] is left out (it is not sent, as an empty string or
    otherwise): the URL is the one built without it; and the URL has no
    other parameter.  The client of the add-on has the locale [fr-FR]. *)
Theorem request_url_parameters (this : TMDBClient) (endpoint : string)
    (params : list (string * JsVal)) :
  NoDup (params.*1) ->
  let url := request_url this endpoint params in
  (forall w : World,
      requests (snd (_fetch this endpoint params w)) = requests w ++ [url]
      /\ fst (_fetch this endpoint params w)
         = reply_data (response (upstream w (length (requests w)) url))
      /\ cache (snd (_fetch this endpoint params w)) = cache w
      /\ imdbCache (snd (_fetch this endpoint params w)) = imdbCache w)
  /\ href url = TMDB_BASE_URL +:+ endpoint
  /\ searchParams_has "api_key" (searchParams url) = true
  /\ searchParams_has "language" (searchParams url) = true
  /\ ((forall v, ("api_key", v) ∈ params -> is_nullish v = true) ->
      searchParams_get "api_key" (searchParams url) = Some (apiKey this))
  /\ ((forall v, ("language", v) ∈ params -> is_nullish v = true) ->
      searchParams_get "language" (searchParams url) = Some (language this))
  /\ (forall k v, (k, v) ∈ params -> is_nullish v = false ->
        searchParams_get k (searchParams url) = Some (to_string v))
  /\ (forall k v, (k, v) ∈ params -> is_nullish v = true ->
        k <> "api_key" -> k <> "language" ->
        searchParams_get k (searchParams url) = None)
  /\ (forall k, k <> "api_key" -> k <> "language" ->
        (forall v, (k, v) ∈ params -> is_nullish v = true) ->
        searchParams_get k (searchParams url) = None)
  /\ request_url this endpoint (stated params) = url
  /\ (forall key : string, language (new_tmdb key) = "fr-FR" /\ apiKey (new_tmdb key) = key).
Proof.
  intros Hnd url. subst url.
  assert (Hnone : forall k, k <> "api_key" -> k <> "language" ->
            (forall v, (k, v) ∈ params -> is_nullish v = true) ->
            searchParams_get k (searchParams (request_url this endpoint params)) = None).
  { intros k Hk1 Hk2 Hall. rewrite request_url_get, supplied_absent by done.
    destruct (String.eqb_spec "api_key" k); [congruence|].
    destruct (String.eqb_spec "language" k); [congruence|]. reflexivity. }
  split; [by intros w|].
  split; [unfold request_url; by rewrite set_params_href|].
  split.
  { unfold searchParams_has. apply bool_decide_eq_true.
    rewrite request_url_get. by destruct (supplied _ _). }
  split.
  { unfold searchParams_has. apply bool_decide_eq_true.
    rewrite request_url_get. by destruct (supplied _ _). }
  split; [intros Hall; by rewrite request_url_get, supplied_absent|].
  split; [intros Hall; by rewrite request_url_get, supplied_absent|].
  split.
  { intros k v Hin Hv. by rewrite request_url_get, (supplied_present k v). }
  split.
  { intros k v Hin Hv Hk1 Hk2. apply Hnone; [done..|].
    intros v' Hin'. by rewrite (NoDup_keys_unique params k v' v Hnd Hin' Hin). }
  split; [exact Hnone|].
  split; [unfold request_url; apply set_params_stated|].
  by intros key.
Qed.

Lemma request_url_parameters_witness :
  let url := request_url Sample.tmdb "/discover/movie"
               [ ("page", VNum 2); ("with_genres", VNum 53);
                 ("watch_region", VUndef); ("sort_by", VStr "popularity.desc") ] in
  searchParams_get "api_key" (searchParams url) = Some "0123456789abcdef"
  /\ searchParams_get "language" (searchParams url) = Some "fr-FR"
  /\ searchParams_get "page" (searchParams url) = Some "2"
  /\ searchParams_get "watch_region" (searchParams url) = None.
Proof.
  intros url.
  destruct (request_url_parameters Sample.tmdb "/discover/movie"
              [ ("page", VNum 2); ("with_genres", VNum 53);
                ("watch_region", VUndef); ("sort_by", VStr "popularity.desc") ])
    as (_ & _ & _ & _ & Hkey & Hlang & Hin & Hnull & _).
  { compute_done. }
  split; [apply Hkey|split; [apply Hlang|split; [apply (Hin "page" (VNum 2))|apply (Hnull "watch_region" VUndef)]]].
  - intros v Hv. repeat (apply elem_of_cons in Hv as [[=]|Hv]). by apply elem_of_nil in Hv.
  - intros v Hv. repeat (apply elem_of_cons in Hv as [[=]|Hv]). by apply elem_of_nil in Hv.
  - set_solver.
  - reflexivity.
  - set_solver.
  - reflexivity.
  - discriminate.
  - discriminate.
Defined.

(** ** Running the pieces of the client *)

Lemma _fetch_resume_run (ticket : nat) (url : Url) (w : World) :
  _fetch_resume ticket url w
  = (reply_data (response (upstream w ticket url)), received ticket url w).
Proof. reflexivity. Qed.

Lemma _fetch_run (this : TMDBClient) (endpoint : string)
    (params : list (string * JsVal)) (w : World) :
  let url := request_url this endpoint params in
  _fetch this endpoint params w
  = (reply_data (response (upstream w (length (requests w)) url)),
     received (length (requests w)) url (sent url w)).
Proof. reflexivity. Qed.

Lemma getImdbId_begin_run (kind : Kind) (this : TMDBClient) (tmdbId : Z) (w : World) :
  getImdbId_begin kind this tmdbId w
  = match imdbCache w !! imdbKey kind tmdbId with
    | Some cachedId => (Ok (Known cachedId), w)
    | None =>
        (Ok (Asked (length (requests w)) (lookup_url kind this tmdbId)),
         sent (lookup_url kind this tmdbId) w)
    end.
Proof.
  unfold getImdbId_begin, bind, gets, ret. cbn beta.
  destruct (imdbCache w !! imdbKey kind tmdbId) as [v|] eqn:Hk.
  - rewrite bool_decide_eq_true_2 by eauto. cbn beta iota. by rewrite Hk.
  - rewrite bool_decide_eq_false_2 by (by intros [? ?]). reflexivity.
Qed.

Lemma getImdbId_end_run (kind : Kind) (tmdbId : Z) (ticket : nat) (url : Url) (w : World) :
  getImdbId_end kind tmdbId (Asked ticket url) w
  = match reply_data (response (upstream w ticket url)) with
    | Ok data =>
        (Ok (imdbId_of data),
         stored kind tmdbId (imdbId_of data) (received ticket url w))
    | Thrown _ => (Ok None, received ticket url w)
    end.
Proof.
  unfold getImdbId_end, try_catch, bind. rewrite _fetch_resume_run.
  by destruct (reply_data _).
Qed.

Lemma getImdbId_end_answer (kind : Kind) (tmdbId : Z) (ticket : nat) (url : Url) (w : World) :
  fst (getImdbId_end kind tmdbId (Asked ticket url) w)
  = Ok (answer (response (upstream w ticket url))).
Proof.
  rewrite getImdbId_end_run. unfold answer. by destruct (reply_data _).
Qed.

Lemma format_end_run (kind : Kind) (r : Raw.t) (tmdbId : Z) (l : Lookup) (w : World) :
  format_end kind (Resolving r tmdbId l) w
  = match getImdbId_end kind tmdbId l w with
    | (Ok imdbId, w') => (Ok (meta_of kind r imdbId), w')
    | (Thrown e, w') => (Thrown e, w')
    end.
Proof.
  unfold format_end, bind. destruct (getImdbId_end kind tmdbId l w) as [[[s|]|e] w']; try reflexivity.
  unfold meta_of. by destruct (truthy_str (Some s)).
Qed.

Lemma format_begin_run (kind : Kind) (this : TMDBClient) (record : option Raw.t) (w : World) :
  exists (f : Formatting) (more : list Url),
    format_begin kind this record w = (Ok f, set_requests (fun rs => rs ++ more) w)
    /\ forall rest : list Url,
         begun kind this (imdbCache w) (length (requests w))
               (requests w ++ more ++ rest) record f.
Proof.
  assert (Hid : forall w : World, set_requests (fun rs => rs ++ []) w = w).
  { intros [c i t rs l u]. unfold set_requests. cbn. by rewrite app_nil_r. }
  unfold format_begin, begun.
  destruct record as [r|]; [|exists Dropped, []; by rewrite Hid].
  destruct (Raw.id r) as [tmdbId|]; [|exists Dropped, []; by rewrite Hid].
  destruct (tmdbId =? 0); [exists Dropped, []; by rewrite Hid|].
  unfold bind. rewrite getImdbId_begin_run.
  destruct (imdbCache w !! imdbKey kind tmdbId) as [v|] eqn:Hk.
  - exists (Resolving r tmdbId (Known v)), []. rewrite Hid. split; [done|].
    intros rest. by exists (Known v).
  - exists (Resolving r tmdbId (Asked (length (requests w)) (lookup_url kind this tmdbId))),
           [lookup_url kind this tmdbId].
    split; [done|]. intros rest. eexists. split; [done|].
    split; [done|]. split; [done|]. split; [done|].
    rewrite lookup_app_r by done. by rewrite Nat.sub_diag.
Qed.

Lemma begun_weaken (kind : Kind) (this : TMDBClient)
    (cache0 : gmap string (option string)) (n0 n1 : nat) (rs : list Url)
    (record : option Raw.t) (f : Formatting) :
  (n0 <= n1)%nat ->
  begun kind this cache0 n1 rs record f -> begun kind this cache0 n0 rs record f.
Proof.
  intros Hn. unfold begun.
  destruct record as [r|]; [|done].
  destruct (Raw.id r) as [tmdbId|]; [|done].
  destruct (tmdbId =? 0); [done|].
  intros (l & -> & Hl). exists l. split; [done|].
  destruct l as [v|ticket url]; [done|].
  destruct Hl as (? & ? & ? & ?). repeat split; [done..|lia|done].
Qed.

Lemma begin_phase (kind : Kind) (this : TMDBClient) (records : list (option Raw.t))
    (w : World) :
  exists (pending : list Formatting) (more : list Url),
    mapM (format_begin kind this) records w
    = (Ok pending, set_requests (fun rs => rs ++ more) w)
    /\ forall rest : list Url,
         Forall2 (begun kind this (imdbCache w) (length (requests w))
                        (requests w ++ more ++ rest))
                 records pending.
Proof.
  revert w. induction records as [|record records IH]; intros w.
  - exists [], []. split; [|by constructor].
    destruct w as [c i t rs l u]. unfold set_requests. cbn. by rewrite app_nil_r.
  - destruct (format_begin_run kind this record w) as (f & more1 & Hrun & Hf).
    destruct (IH (set_requests (fun rs => rs ++ more1) w))
      as (pending & more2 & Hrest & Hpending).
    exists (f :: pending), (more1 ++ more2). split.
    + cbn [mapM]. unfold bind at 1. rewrite Hrun.
      unfold bind at 1. rewrite Hrest. unfold ret.
      f_equal. destruct w as [c i t rs l u]. unfold set_requests. cbn.
      by rewrite app_assoc.
    + intros rest. constructor.
      * rewrite <- app_assoc. apply Hf.
      * specialize (Hpending rest). cbn [set_requests requests imdbCache] in Hpending.
        rewrite <- !app_assoc in *.
        eapply Forall2_impl; [exact Hpending|].
        intros x y. apply begun_weaken. rewrite length_app. lia.
Qed.

Lemma format_end_settles (kind : Kind) (f : Formatting) (w : World) :
  exists (outcome : option Meta.t) (w' : World),
    format_end kind f w = (Ok outcome, w')
    /\ settled kind (upstream w) f outcome
    /\ cache w' = cache w /\ console w' = console w /\ upstream w' = upstream w
    /\ requests w' = requests w /\ clock w <= clock w'
    /\ forall cache0 : gmap string (option string),
         writes_outside kind cache0 f ->
         cache0 ⊆ imdbCache w -> cache0 ⊆ imdbCache w'.
Proof.
  destruct f as [|r tmdbId [v|ticket url]].
  - exists None, w. repeat split; try done; lia.
  - exists (meta_of kind r v), w. rewrite format_end_run. repeat split; try done; lia.
  - rewrite format_end_run, getImdbId_end_run. unfold settled, answer.
    destruct (reply_data (response (upstream w ticket url))) as [data|e];
      eexists _, _; (split; [reflexivity|]); (split; [reflexivity|]);
      cbn [received stored set_clock set_imdbCache cache console upstream requests
           clock imdbCache];
      repeat split; try lia; try done.
    intros cache0 Hout Hsub. by apply insert_subseteq_r.
Qed.

Lemma end_phase (kind : Kind) (pending : list Formatting) (w : World) :
  exists (outcomes : list (option Meta.t)) (w' : World),
    mapM (format_end kind) pending w = (Ok outcomes, w')
    /\ Forall2 (settled kind (upstream w)) pending outcomes
    /\ cache w' = cache w /\ console w' = console w /\ upstream w' = upstream w
    /\ requests w' = requests w /\ clock w <= clock w'
    /\ forall cache0 : gmap string (option string),
         Forall (writes_outside kind cache0) pending ->
         cache0 ⊆ imdbCache w -> cache0 ⊆ imdbCache w'.
Proof.
  revert w. induction pending as [|f pending IH]; intros w.
  - exists [], w. repeat split; first [done | lia | constructor].
  - destruct (format_end_settles kind f w)
      as (o & w1 & Hrun & Ho & Hc1 & Hl1 & Hu1 & Hr1 & Ht1 & Hi1).
    destruct (IH w1) as (os & w' & Hrest & Hos & Hc & Hl & Hu & Hr & Ht & Hi).
    exists (o :: os), w'. split.
    { cbn [mapM]. unfold bind at 1. rewrite Hrun. unfold bind at 1.
      by rewrite Hrest. }
    rewrite Hu1 in Hos.
    repeat split; [by constructor|congruence..|lia|].
    intros cache0 Hout Hsub. apply Forall_cons in Hout as [Hf Hout].
    apply Hi; [done|]. by apply Hi1.
Qed.

Lemma begun_writes_outside (kind : Kind) (this : TMDBClient)
    (cache0 : gmap string (option string)) (n0 : nat) (rs : list Url)
    (record : option Raw.t) (f : Formatting) :
  begun kind this cache0 n0 rs record f -> writes_outside kind cache0 f.
Proof.
  unfold begun, writes_outside.
  destruct record as [r|]; [|by intros ->].
  destruct (Raw.id r) as [tmdbId|]; [|by intros ->].
  destruct (tmdbId =? 0); [by intros ->|].
  intros (l & -> & Hl). destruct l; [done|]. by destruct Hl.
Qed.

Lemma Promise_all_format (kind : Kind) (this : TMDBClient)
    (records : list (option Raw.t)) (w : World) :
  exists (outcomes : list (option Meta.t)) (w' : World),
    Promise_all_map (format_begin kind this) (format_end kind) records w
    = (Ok outcomes, w')
    /\ Forall2 (formatted kind this w w') records outcomes
    /\ evolves w w'.
Proof.
  destruct (begin_phase kind this records w) as (pending & more & Hbegin & Hpending).
  destruct (end_phase kind pending (set_requests (fun rs => rs ++ more) w))
    as (outcomes & w' & Hend & Hout & Hc & Hl & Hu & Hr & Ht & Hi).
  cbn [set_requests cache console upstream requests clock imdbCache] in *.
  specialize (Hpending []). rewrite app_nil_r in Hpending.
  exists outcomes, w'. split.
  { unfold Promise_all_map, bind. by rewrite Hbegin. }
  split.
  - clear -Hpending Hout Hr.
    revert outcomes Hout. induction Hpending as [|record f records pending Hf _ IH];
      intros outcomes Hout.
    + apply Forall2_nil_inv_l in Hout as ->. constructor.
    + apply Forall2_cons_inv_l in Hout as (o & os & Ho & Hos & ->).
      constructor; [|by apply IH].
      unfold formatted. unfold begun in Hf.
      destruct record as [r|]; [|by subst].
      destruct (Raw.id r) as [tmdbId|]; [|by subst].
      destruct (tmdbId =? 0); [by subst|].
      destruct Hf as (l & -> & Hl). destruct l as [v|ticket url]; cbn [settled] in Ho.
      * exists v. split; [by left|done].
      * destruct Hl as (Hnone & -> & Hticket & Hlookup).
        eexists. split; [|exact Ho]. right. split; [done|].
        exists ticket. rewrite Hr. done.
  - repeat split; try done.
    + apply Hi; [|done].
      eapply Forall2_Forall_r; [exact Hpending|].
      apply Forall_forall. intros f _ record. apply begun_writes_outside.
    + exists more. by rewrite Hr.
Qed.

#[local] Instance evolves_reflexive : Reflexive evolves.
Proof. intros w. repeat split; try done; try lia. exists []. by rewrite app_nil_r. Qed.

#[local] Instance evolves_transitive : Transitive evolves.
Proof.
  intros w1 w2 w3 (Hc1 & Hl1 & Hu1 & Ht1 & Hi1 & m1 & Hr1) (Hc2 & Hl2 & Hu2 & Ht2 & Hi2 & m2 & Hr2).
  repeat split; try congruence; try lia.
  - by trans (imdbCache w2).
  - exists (m1 ++ m2). by rewrite Hr2, Hr1, app_assoc.
Qed.

Lemma fetch_evolves (ticket : nat) (url : Url) (w : World) :
  evolves w (received ticket url (sent url w)).
Proof.
  repeat split; try done; cbn [received sent set_clock set_requests clock requests].
  - lia.
  - by exists [url].
Qed.

Lemma formatted_later (kind : Kind) (this : TMDBClient) (w0 w w' : World)
    (record : option Raw.t) (outcome : option Meta.t) :
  imdbCache w = imdbCache w0 -> upstream w = upstream w0 ->
  (length (requests w0) <= length (requests w))%nat ->
  formatted kind this w w' record outcome -> formatted kind this w0 w' record outcome.
Proof.
  intros Hi Hu Hn. unfold formatted.
  destruct record as [r|]; [|done].
  destruct (Raw.id r) as [tmdbId|]; [|done].
  destruct (tmdbId =? 0); [done|].
  intros (imdbId & Hres & ->). exists imdbId. split; [|done].
  unfold resolved_in in *. rewrite <- Hi, <- Hu.
  destruct Hres as [?|(? & ticket & ? & ? & ?)]; [by left|right].
  split; [done|]. exists ticket. repeat split; [lia|done..].
Qed.

Lemma listing_run (kind : Kind) (this : TMDBClient) (endpoint : string)
    (params : list (string * JsVal)) (w : World) :
  let url := request_url this endpoint params in
  let n := length (requests w) in
  match reply_data (response (upstream w n url)) with
  | Thrown e =>
      listing kind this endpoint params w = (Thrown e, received n url (sent url w))
  | Ok data =>
      match results data with
      | None =>
          listing kind this endpoint params w
          = (Thrown TypeError, received n url (sent url w))
      | Some records =>
          exists (outcomes : list (option Meta.t)) (w' : World),
            listing kind this endpoint params w = (Ok (filter_Boolean outcomes), w')
            /\ Forall2 (formatted kind this w w') records outcomes
            /\ evolves (received n url (sent url w)) w'
      end
  end.
Proof.
  intros url n. unfold listing, bind. rewrite _fetch_run. fold url n.
  destruct (reply_data _) as [data|e]; [|done].
  destruct (results data) as [records|]; [|done].
  destruct (Promise_all_format kind this records (received n url (sent url w)))
    as (outcomes & w' & Hrun & Hout & Hev).
  exists outcomes, w'. rewrite Hrun. split; [done|]. split; [|done].
  eapply Forall2_impl; [exact Hout|].
  intros record o. apply formatted_later; [done..|].
  cbn [received sent set_clock set_requests requests]. rewrite length_app. lia.
Qed.

Lemma listing_evolves (kind : Kind) (this : TMDBClient) (endpoint : string)
    (params : list (string * JsVal)) (w : World) :
  evolves w (snd (listing kind this endpoint params w)).
Proof.
  pose proof (listing_run kind this endpoint params w) as Hrun. cbv zeta in Hrun.
  destruct (reply_data _) as [data|e].
  - destruct (results data) as [records|].
    + destruct Hrun as (outcomes & w' & -> & _ & Hev).
      etrans; [apply fetch_evolves|exact Hev].
    + rewrite Hrun. apply fetch_evolves.
  - rewrite Hrun. apply fetch_evolves.
Qed.

Lemma formatted_meta (kind : Kind) (this : TMDBClient) (w w' : World)
    (record : option Raw.t) (m : Meta.t) :
  formatted kind this w w' record (Some m) ->
  Meta.id m <> "" /\ Meta.imdb_id m = Meta.id m
  /\ exists (r : Raw.t) (tmdbId : Z),
       record = Some r /\ Raw.id r = Some tmdbId /\ tmdbId <> 0
       /\ resolved_in kind this w w' tmdbId (Some (Meta.id m))
       /\ m = meta kind (Meta.id m) r.
Proof.
  unfold formatted.
  destruct record as [r|]; [|done].
  destruct (Raw.id r) as [tmdbId|] eqn:Hid; [|done].
  destruct (Z.eqb_spec tmdbId 0) as [|Hne]; [done|].
  intros (imdbId & Hres & Hm). unfold meta_of in Hm.
  destruct imdbId as [[|c s]|]; try done. cbn [truthy_str] in Hm.
  injection Hm as ->.
  assert (Hmid : Meta.id (meta kind (String c s) r) = String c s) by (by destruct kind).
  assert (Himdb : Meta.imdb_id (meta kind (String c s) r) = String c s) by (by destruct kind).
  rewrite Hmid, Himdb. split; [done|]. split; [done|].
  by exists r, tmdbId.
Qed.

Lemma mapM_single {A B} (f : A -> M B) (x : A) (w : World) :
  mapM f [x] w
  = match f x w with
    | (Ok y, w') => (Ok [y], w')
    | (Thrown e, w') => (Thrown e, w')
    end.
Proof. cbn [mapM]. unfold bind, ret. by destruct (f x w) as [[y|e] w']. Qed.

Lemma format_formatted (kind : Kind) (this : TMDBClient) (record : option Raw.t) (w : World) :
  exists (outcome : option Meta.t) (w' : World),
    format kind this record w = (Ok outcome, w')
    /\ formatted kind this w w' record outcome
    /\ evolves w w'.
Proof.
  destruct (Promise_all_format kind this [record] w) as (outcomes & w' & Hrun & Hout & Hev).
  apply Forall2_cons_inv_l in Hout as (o & os & Ho & Hos & ->).
  apply Forall2_nil_inv_l in Hos as ->.
  exists o, w'. split; [|done].
  unfold Promise_all_map, format, bind in Hrun |- *.
  rewrite mapM_single in Hrun.
  destruct (format_begin kind this record w) as [[f|e] w1]; [|done].
  rewrite mapM_single in Hrun.
  destruct (format_end kind f w1) as [[o'|e] w2]; by simplify_eq.
Qed.

Lemma length_filter_Boolean {A} (xs : list (option A)) :
  (length (filter_Boolean xs) <= length xs)%nat.
Proof.
  unfold filter_Boolean. induction xs as [|[x|] xs IH]; cbn [omap list_omap length id]; lia.
Qed.

Lemma call_is_cached (this : TMDBClient) (l : Listing) :
  call this l = cached (call_key l) (call_fn this l)
  /\ exists (kind : Kind) (endpoint : string) (params : list (string * JsVal)),
       call_fn this l = listing kind this endpoint params.
Proof. destruct l; (split; [reflexivity|]); eexists _, _, _; reflexivity. Qed.

(** ** Records without an external id are dropped *)

(** C1: when a listing (the body of every catalogue fetch operation) returns,
    the upstream has answered with a page of records, and the returned list
    is that page formatted record by record, in order, with the [null]
    outcomes filtered out: a record that is [null], or whose upstream id is
    missing, [null] or [0], or for which the resolver gave no IMDb id
    ([null], or the empty string) has the outcome [null].  So the returned
    list is no longer than the page, and every returned meta has a non-empty
    id, which is the IMDb id the resolver gave for a record of the page.  The
    formatter alone ([_formatMovie], [_formatSeries]) returns [null] in the
    same cases, and every cached catalogue operation has a listing as its
    body. *)
Theorem listing_excludes_unresolved (kind : Kind) (this : TMDBClient)
    (endpoint : string) (params : list (string * JsVal)) (w : World)
    (metas : list Meta.t) :
  fst (listing kind this endpoint params w) = Ok metas ->
  let w' := snd (listing kind this endpoint params w) in
  (exists (page : Data) (records : list (option Raw.t)) (outcomes : list (option Meta.t)),
      reply_data (response (upstream w (length (requests w))
                              (request_url this endpoint params))) = Ok page
      /\ results page = Some records
      /\ Forall2 (formatted kind this w w') records outcomes
      /\ metas = omap id outcomes
      /\ (length metas <= length records)%nat
      /\ forall m : Meta.t, m ∈ metas ->
           Meta.id m <> "" /\ Meta.imdb_id m = Meta.id m
           /\ exists (r : Raw.t) (tmdbId : Z),
                Some r ∈ records /\ Raw.id r = Some tmdbId /\ tmdbId <> 0
                /\ resolved_in kind this w w' tmdbId (Some (Meta.id m))
                /\ m = meta kind (Meta.id m) r)
  /\ (forall (record : option Raw.t) (w0 : World),
        exists outcome : option Meta.t,
          fst (format kind this record w0) = Ok outcome
          /\ formatted kind this w0 (snd (format kind this record w0)) record outcome)
  /\ (forall l : Listing,
        call this l = cached (call_key l) (call_fn this l)
        /\ exists (kind' : Kind) (endpoint' : string) (params' : list (string * JsVal)),
             call_fn this l = listing kind' this endpoint' params').
Proof.
  intros Hok w'. subst w'.
  split; [|split].
  - pose proof (listing_run kind this endpoint params w) as Hrun. cbv zeta in Hrun.
    destruct (reply_data _) as [page|e]; [|by rewrite Hrun in Hok].
    destruct (results page) as [records|] eqn:Hrecords; [|by rewrite Hrun in Hok].
    destruct Hrun as (outcomes & w' & Hrun & Hout & _).
    rewrite Hrun in Hok |- *. cbn [fst snd] in *. injection Hok as <-.
    exists page, records, outcomes.
    split; [done|]. split; [done|]. split; [done|]. split; [done|].
    assert (Hlen : length outcomes = length records)
      by (symmetry; by eapply Forall2_length).
    split; [rewrite <- Hlen; apply length_filter_Boolean|].
    intros m Hm. apply list_elem_of_omap in Hm as (o & Ho & Heq).
    cbn [id] in Heq. subst o.
    apply list_elem_of_lookup_1 in Ho as [i Hi].
    destruct (Forall2_lookup_r _ _ _ _ _ Hout Hi) as (record & Hrec & Hfmt).
    destruct (formatted_meta _ _ _ _ _ _ Hfmt) as (Hid & Himdb & r & t & -> & Ht & Hne & Hres & Hmeta).
    split; [done|]. split; [done|]. exists r, t.
    split; [by eapply list_elem_of_lookup_2|done].
  - intros record w0.
    destruct (format_formatted kind this record w0) as (o & w1 & Hrun & Hfmt & _).
    exists o. by rewrite Hrun.
  - apply call_is_cached.
Qed.

Lemma listing_excludes_unresolved_witness :
  exists (page : Data) (records : list (option Raw.t)),
    results page = Some records
    /\ Nat.le (length [ meta Movie "tt0133093" (Sample.titled (Some 603) "The Matrix") ])
              (length records).
Proof.
  destruct (listing_excludes_unresolved Movie Sample.tmdb "/discover/movie"
              [ ("page", VNum 1) ] Sample.world
              [ meta Movie "tt0133093" (Sample.titled (Some 603) "The Matrix") ])
    as ((page & records & outcomes & _ & Hrecords & _ & _ & Hlen & _) & _).
  { vm_compute. reflexivity. }
  by exists page, records.
Defined.

(** ** The response cache, step by step *)

Lemma cached_run (key : string) (fn : M (list Meta.t)) (w : World) :
  cached key fn w
  = if fresh key w
    then (Ok (default [] (data <$> cache w !! key)), logged (CacheHit key) w)
    else recompute key fn w.
Proof.
  unfold cached, fresh, recompute, bind, Date_now, gets, console_log, modify, ret.
  cbn beta iota.
  destruct (cache w !! key) as [e|]; cbn [fmap option_fmap option_map default].
  - destruct (clock w - timestamp e <? CACHE_TTL); [reflexivity|].
    fold (logged (CacheMiss key) w).
    by destruct (fn (logged (CacheMiss key) w)) as [[d|err] w'].
  - fold (logged (CacheMiss key) w).
    by destruct (fn (logged (CacheMiss key) w)) as [[d|err] w'].
Qed.

(** ** The entries of [imdbCache] stay *)

Lemma getImdbId_run (kind : Kind) (this : TMDBClient) (tmdbId : Z) (w : World) :
  let url := lookup_url kind this tmdbId in
  let n := length (requests w) in
  getImdbId kind this tmdbId w
  = match imdbCache w !! imdbKey kind tmdbId with
    | Some cachedId => (Ok cachedId, w)
    | None =>
        match reply_data (response (upstream w n url)) with
        | Ok data =>
            (Ok (imdbId_of data),
             stored kind tmdbId (imdbId_of data) (received n url (sent url w)))
        | Thrown _ => (Ok None, received n url (sent url w))
        end
    end.
Proof.
  intros url n. unfold getImdbId, bind. rewrite getImdbId_begin_run.
  destruct (imdbCache w !! imdbKey kind tmdbId) as [v|]; [reflexivity|].
  by rewrite getImdbId_end_run.
Qed.

Lemma getImdbId_keeps (kind : Kind) (this : TMDBClient) (tmdbId : Z) (w : World) :
  imdbCache w ⊆ imdbCache (snd (getImdbId kind this tmdbId w)).
Proof.
  rewrite getImdbId_run.
  destruct (imdbCache w !! imdbKey kind tmdbId) as [v|] eqn:Hk; [done|].
  destruct (reply_data _); [|done].
  cbn [snd stored set_imdbCache imdbCache received sent set_clock set_requests].
  by apply insert_subseteq.
Qed.

Lemma cached_keeps (key : string) (fn : M (list Meta.t)) (w : World) :
  (forall w0, imdbCache w0 ⊆ imdbCache (snd (fn w0))) ->
  imdbCache w ⊆ imdbCache (snd (cached key fn w)).
Proof.
  intros Hfn. rewrite cached_run. destruct (fresh key w); [done|].
  unfold recompute. specialize (Hfn (logged (CacheMiss key) w)).
  by destruct (fn (logged (CacheMiss key) w)) as [[d|e] w'].
Qed.

Lemma listing_keeps (kind : Kind) (this : TMDBClient) (endpoint : string)
    (params : list (string * JsVal)) (w : World) :
  imdbCache w ⊆ imdbCache (snd (listing kind this endpoint params w)).
Proof. apply listing_evolves. Qed.

Lemma call_keeps (this : TMDBClient) (l : Listing) (w : World) :
  imdbCache w ⊆ imdbCache (snd (call this l w)).
Proof.
  destruct (call_is_cached this l) as (-> & kind & endpoint & params & ->).
  apply cached_keeps. intros w0. apply listing_keeps.
Qed.

Lemma assoc_elem_of {A} (key : string) (ps : list (string * A)) (v : A) :
  assoc key ps = Some v -> (key, v) ∈ ps.
Proof.
  induction ps as [|[k x] ps IH]; [done|]. cbn [assoc].
  destruct (String.eqb_spec k key) as [->|_].
  - intros [= ->]. by left.
  - intros Hv. right. by apply IH.
Qed.

Lemma CATALOGS_cached_listings (tmdb : TMDBClient) :
  Forall (fun entry : string * Catalog =>
            forall page : Z,
              exists (key : string) (kind : Kind) (endpoint : string)
                     (params : list (string * JsVal)),
                fetch (snd entry) page = cached key (listing kind tmdb endpoint params))
         (CATALOGS tmdb).
Proof.
  unfold CATALOGS.
  repeat (apply Forall_cons_2;
            [intros page; eexists _, _, _, _; cbn [snd fetch];
             unfold getKDramas, getKoreanRomance, getMoviesByCountry, getJDrama,
               getAsianDrama, getChineseMovies, getMoviesByGenre, getSeriesByGenre,
               getCrimeMovies, getCrimeSeries, getClassicMovies, getClassicSeries,
               getMiniSeries, getTopRatedMovies, getTopRatedSeries,
               getMoviesByProvider, getSeriesByProvider;
             reflexivity|]).
  apply Forall_nil_2.
Qed.

Lemma catalog_fetch_cached (tmdb : TMDBClient) (catalogId : string) (c : Catalog) (page : Z) :
  assoc catalogId (CATALOGS tmdb) = Some c ->
  exists (key : string) (kind : Kind) (endpoint : string) (params : list (string * JsVal)),
    fetch c page = cached key (listing kind tmdb endpoint params).
Proof.
  intros Hc. apply assoc_elem_of in Hc.
  pose proof (CATALOGS_cached_listings tmdb) as Hall.
  rewrite Forall_forall in Hall. exact (Hall _ Hc page).
Qed.

Lemma handler_keeps (tmdb : TMDBClient) (args : Args) (w : World) :
  imdbCache w ⊆ imdbCache (snd (defineCatalogHandler tmdb args w)).
Proof.
  destruct (CATALOGS_get tmdb (catalogId_of args)) as [c| |] eqn:Hget.
  - assert (Hc : assoc (catalogId_of args) (CATALOGS tmdb) = Some c).
    { unfold CATALOGS_get in Hget.
      destruct (assoc (catalogId_of args) (CATALOGS tmdb)); [congruence|].
      by destruct (existsb _ _). }
    rewrite (handler_registered _ _ _ _ Hc). unfold dispatch.
    destruct (catalog_fetch_cached tmdb _ c (page_of (args_extra args)) Hc)
      as (key & kind & endpoint & params & Hfetch).
    pose proof (cached_keeps key (listing kind tmdb endpoint params) (requested args w)
                  (listing_keeps kind tmdb endpoint params)) as Hkeep.
    rewrite <- Hfetch in Hkeep.
    by destruct (fetch c _ _) as [[results|e] w'].
  - by rewrite (handler_inherited _ _ _ Hget).
  - by rewrite (handler_undefined _ _ _ Hget).
Qed.

Lemma run_action_keeps (this : TMDBClient) (a : Action) (w : World) :
  imdbCache w ⊆ imdbCache (run_action this a w).
Proof.
  destruct a as [kind t|kind record|l|[] query page|args|ms]; cbn [run_action].
  - apply getImdbId_keeps.
  - destruct (format_formatted kind this record w) as (o & w' & -> & _ & Hev).
    apply Hev.
  - apply call_keeps.
  - apply listing_keeps.
  - apply listing_keeps.
  - apply handler_keeps.
  - done.
Qed.

Lemma run_actions_keeps (this : TMDBClient) (actions : list Action) (w : World) :
  imdbCache w ⊆ imdbCache (run_actions this actions w).
Proof.
  revert w. induction actions as [|a actions IH]; intros w; [done|].
  cbn [run_actions fold_left]. etrans; [apply (run_action_keeps this a)|apply IH].
Qed.

(** ** The resolver caches answers, not errors *)

Lemma getImdbId_end_stores (kind : Kind) (tmdbId : Z) (l : Lookup) (w : World) :
  exists (o : option string) (w' : World),
    getImdbId_end kind tmdbId l w = (Ok o, w')
    /\ upstream w' = upstream w
    /\ (imdbCache w' = imdbCache w
        \/ exists (ticket : nat) (url : Url) (data : Data),
             l = Asked ticket url
             /\ reply_data (response (upstream w ticket url)) = Ok data
             /\ imdbCache w' = <[imdbKey kind tmdbId := imdbId_of data]> (imdbCache w)).
Proof.
  destruct l as [v|ticket url].
  - exists v, w. split; [done|]. split; [done|]. by left.
  - rewrite getImdbId_end_run. destruct (reply_data _) as [data|e] eqn:Hdata.
    + eexists _, _. split; [done|]. split; [done|]. right. by exists ticket, url, data.
    + eexists _, _. split; [done|]. split; [done|]. by left.
Qed.

Lemma pending_lookups_resume (pending : list (Kind * Z * Lookup)) (w : World)
    (key : string) (v : option string) :
  imdbCache w !! key = Some v ->
  exists v' : option string,
    imdbCache (snd (mapM (fun p => getImdbId_end p.1.1 p.1.2 p.2) pending w)) !! key
    = Some v'
    /\ (v' = v
        \/ exists (kind : Kind) (tmdbId : Z) (ticket : nat) (url : Url) (data : Data),
             (kind, tmdbId, Asked ticket url) ∈ pending
             /\ key = imdbKey kind tmdbId
             /\ reply_data (response (upstream w ticket url)) = Ok data
             /\ v' = imdbId_of data).
Proof.
  revert w v. induction pending as [|[[kind tmdbId] l] pending IH]; intros w v Hv.
  - exists v. split; [done|by left].
  - cbn [mapM fst snd]. unfold bind.
    destruct (getImdbId_end_stores kind tmdbId l w) as (o & w1 & -> & Hup & Hstore).
    assert (Hv1 : exists v1 : option string,
              imdbCache w1 !! key = Some v1
              /\ (v1 = v
                  \/ exists (ticket : nat) (url : Url) (data : Data),
                       l = Asked ticket url /\ key = imdbKey kind tmdbId
                       /\ reply_data (response (upstream w ticket url)) = Ok data
                       /\ v1 = imdbId_of data)).
    { destruct Hstore as [->|(ticket & url & data & -> & Hdata & ->)].
      - exists v. split; [done|by left].
      - destruct (decide (key = imdbKey kind tmdbId)) as [->|Hne].
        + exists (imdbId_of data). rewrite lookup_insert_eq. split; [done|].
          right. by exists ticket, url, data.
        + exists v. rewrite lookup_insert_ne by done. split; [done|by left]. }
    destruct Hv1 as (v1 & Hv1 & Hfrom).
    destruct (IH w1 v1 Hv1) as (v' & Hv' & Hlast).
    exists v'. split.
    { destruct (mapM _ pending w1) as [[os|e] w2]; exact Hv'. }
    destruct Hlast as [->|(k & t & ticket & url & data & Hin & Hkey & Hdata & ->)].
    + destruct Hfrom as [->|(ticket & url & data & -> & Hkey & Hdata & ->)]; [by left|].
      right. exists kind, tmdbId, ticket, url, data. split; [left|done].
    + right. exists k, t, ticket, url, data. split; [by right|]. by rewrite <- Hup.
Qed.

(** C2, as stated: a successful resolution caches its outcome permanently.
    The resolver tests [imdbCache] before it awaits the request and writes
    after: two lookups of one title that are in flight together both write.
    Here the first stores the IMDb id of 603, and the second, whose request
    was answered without an IMDb id, then stores [null] over it; and a
    listing whose page holds 603 twice returns the meta of the first record
    and leaves [null] in [imdbCache]. *)
Lemma stored_id_is_replaced_by_pending_lookup :
  let url := lookup_url Movie Sample.tmdb 603 in
  let begin1 := getImdbId_begin Movie Sample.tmdb 603 (Sample.world_until 0) in
  let begin2 := getImdbId_begin Movie Sample.tmdb 603 (snd begin1) in
  let end1 := getImdbId_end Movie 603 (Asked 0 url) (snd begin2) in
  let end2 := getImdbId_end Movie 603 (Asked 1 url) (snd end1) in
  let run := listing Movie Sample.tmdb "/movie/popular" [ ("page", VNum 1) ]
               (Sample.world_until 1) in
  fst begin1 = Ok (Asked 0 url)
  /\ fst begin2 = Ok (Asked 1 url)
  /\ fst end1 = Ok (Some "tt0133093")
  /\ imdbCache (snd end1) !! "movie_603" = Some (Some "tt0133093")
  /\ fst end2 = Ok None
  /\ imdbCache (snd end2) !! "movie_603" = Some None
  /\ Meta.id <$> default [] (match fst run with Ok metas => Some metas | Thrown _ => None end)
     = [ "tt0133093" ]
  /\ imdbCache (snd run) !! "movie_603" = Some None.
Proof. repeat split; vm_compute; reflexivity. Qed.

(** C2, amended: for a title that is not in [imdbCache], [_getMovieImdbId]
    and [_getSeriesImdbId] send one request for its external ids.  When that
    request fails ([fetch] rejects, the status is not ok, the body does not
    parse), the resolver returns [null] without throwing and writes nothing
    to [imdbCache], so the next call for the title, and any later call made
    while the title is still not in [imdbCache], sends the request again.
    When the request succeeds, the resolver returns the IMDb id of the answer
    ([null] when it has none) and stores it.  Whatever the client does
    afterwards, one operation after the other, and however much time passes,
    the entry stays, and a call for the title returns it without a request
    and without any change of state, as does every call made while the title
    is in [imdbCache].  A lookup of the title that was already
    in flight when the outcome was stored writes its own outcome over it when
    it resumes; apart from that an entry never changes: when lookups that are
    in flight resume, in any order, an entry that was there is still there,
    with the value it had or with the outcome of one of those lookups for
    the same title. *)
Theorem resolver_caches_answers_not_errors (kind : Kind) (this : TMDBClient)
    (tmdbId : Z) (w : World) :
  imdbCache w !! imdbKey kind tmdbId = None ->
  let url := lookup_url kind this tmdbId in
  let reply := response (upstream w (length (requests w)) url) in
  let run := getImdbId kind this tmdbId w in
  requests (snd run) = requests w ++ [url]
  /\ (forall e : Error, reply_data reply = Thrown e ->
        fst run = Ok None
        /\ imdbCache (snd run) = imdbCache w
        /\ requests (snd (getImdbId kind this tmdbId (snd run))) = requests w ++ [url; url]
        /\ forall actions : list Action,
             let later := run_actions this actions (snd run) in
             imdbCache later !! imdbKey kind tmdbId = None ->
             requests (snd (getImdbId kind this tmdbId later)) = requests later ++ [url])
  /\ (forall data : Data, reply_data reply = Ok data ->
        fst run = Ok (imdbId_of data)
        /\ imdbCache (snd run) = <[imdbKey kind tmdbId := imdbId_of data]> (imdbCache w)
        /\ (forall actions : list Action,
              let later := run_actions this actions (snd run) in
              imdbCache later !! imdbKey kind tmdbId = Some (imdbId_of data)
              /\ getImdbId kind this tmdbId later = (Ok (imdbId_of data), later))
        /\ (forall (ticket : nat) (other : Data),
              reply_data (response (upstream w ticket url)) = Ok other ->
              imdbCache (snd (getImdbId_end kind tmdbId (Asked ticket url) (snd run)))
                !! imdbKey kind tmdbId
              = Some (imdbId_of other)))
  /\ (forall (w0 : World) (v : option string),
        imdbCache w0 !! imdbKey kind tmdbId = Some v ->
        getImdbId kind this tmdbId w0 = (Ok v, w0))
  /\ (forall (pending : list (Kind * Z * Lookup)) (w0 : World) (key : string)
             (v : option string),
        imdbCache w0 !! key = Some v ->
        exists v' : option string,
          imdbCache (snd (mapM (fun p => getImdbId_end p.1.1 p.1.2 p.2) pending w0)) !! key
          = Some v'
          /\ (v' = v
              \/ exists (kind' : Kind) (tmdbId' : Z) (ticket : nat) (url' : Url)
                        (data : Data),
                   (kind', tmdbId', Asked ticket url') ∈ pending
                   /\ key = imdbKey kind' tmdbId'
                   /\ reply_data (response (upstream w0 ticket url')) = Ok data
                   /\ v' = imdbId_of data))
  /\ _getMovieImdbId = getImdbId Movie
  /\ _getSeriesImdbId = getImdbId Series.
Proof.
  intros Hmiss url reply run.
  assert (Hsend : forall w0 : World,
            imdbCache w0 !! imdbKey kind tmdbId = None ->
            requests (snd (getImdbId kind this tmdbId w0)) = requests w0 ++ [url]).
  { intros w0 H0. rewrite getImdbId_run, H0. by destruct (reply_data _). }
  subst run. split; [by apply Hsend|].
  split; [|split; [|split; [|split; [apply pending_lookups_resume|done]]]].
  3: { intros w0 v Hv. by rewrite getImdbId_run, Hv. }
  - intros e He. rewrite getImdbId_run, Hmiss. fold url reply. rewrite He.
    cbn [fst snd]. split; [done|]. split; [done|]. split.
    + rewrite Hsend by done.
      cbn [received sent set_clock set_requests requests]. by rewrite <- app_assoc.
    + intros actions Hnone. by apply Hsend.
  - intros data Hdata. rewrite getImdbId_run, Hmiss. fold url reply. rewrite Hdata.
    cbn [fst snd]. split; [done|]. split; [done|]. split.
    + intros actions.
      set (later := run_actions this actions _).
      assert (Hlater : imdbCache later !! imdbKey kind tmdbId = Some (imdbId_of data)).
      { pose proof (run_actions_keeps this actions
                      (stored kind tmdbId (imdbId_of data)
                         (received (length (requests w)) url (sent url w)))) as Hkeep.
        eapply lookup_weaken; [|exact Hkeep].
        cbn [stored set_imdbCache imdbCache]. apply lookup_insert_eq. }
      split; [done|]. by rewrite getImdbId_run, Hlater.
    + intros ticket other Hother. rewrite getImdbId_end_run.
      cbn [stored received sent set_imdbCache set_clock set_requests upstream].
      rewrite Hother. cbn [snd stored set_imdbCache imdbCache].
      apply lookup_insert_eq.
Qed.

Lemma resolver_caches_answers_not_errors_witness :
  fst (_getMovieImdbId Sample.tmdb 605 Sample.world) = Ok None
  /\ imdbCache (snd (_getMovieImdbId Sample.tmdb 605 Sample.world)) = imdbCache Sample.world
  /\ fst (_getMovieImdbId Sample.tmdb 603 Sample.world) = Ok (Some "tt0133093").
Proof.
  destruct (resolver_caches_answers_not_errors Movie Sample.tmdb 605 Sample.world)
    as (_ & Herror & _); [reflexivity|].
  destruct (Herror (ApiError 500)) as (Hnull & Hcache & _); [reflexivity|].
  destruct (resolver_caches_answers_not_errors Movie Sample.tmdb 603 Sample.world)
    as (_ & _ & Hanswer & _); [reflexivity|].
  destruct (Hanswer (mkData (Some "tt0133093") None)) as (Hid & _); [reflexivity|].
  split; [exact Hnull|]. split; [exact Hcache|exact Hid].
Defined.

(** ** What never touches the response cache *)

Lemma blind_ret {A} (a : A) : cache_blind (ret a).
Proof. by intros f w. Qed.

Lemma blind_throw {A} (e : Error) : cache_blind (@throw A e).
Proof. by intros f w. Qed.

Lemma blind_bind {A B} (m : M A) (k : A -> M B) :
  cache_blind m -> (forall a, cache_blind (k a)) -> cache_blind (bind m k).
Proof.
  intros Hm Hk f w. unfold bind. rewrite Hm.
  destruct (m w) as [[a|e] w']; cbn [fst snd]; [apply Hk|done].
Qed.

Lemma blind_mapM {A B} (g : A -> M B) (xs : list A) :
  (forall x, cache_blind (g x)) -> cache_blind (mapM g xs).
Proof.
  intros Hg. induction xs as [|x xs IH]; cbn [mapM]; [apply blind_ret|].
  apply blind_bind; [apply Hg|]. intros y.
  apply blind_bind; [apply IH|]. intros ys. apply blind_ret.
Qed.

Lemma blind_fetch_send (url : Url) : cache_blind (fetch_send url).
Proof. by intros f w. Qed.

Lemma blind__fetch_resume (ticket : nat) (url : Url) : cache_blind (_fetch_resume ticket url).
Proof. by intros f w. Qed.

Lemma blind__fetch (this : TMDBClient) (endpoint : string) (params : list (string * JsVal)) :
  cache_blind (_fetch this endpoint params).
Proof. by intros f w. Qed.

Lemma blind_getImdbId_begin (kind : Kind) (this : TMDBClient) (tmdbId : Z) :
  cache_blind (getImdbId_begin kind this tmdbId).
Proof.
  intros f w. rewrite !getImdbId_begin_run. cbn [set_cache imdbCache requests].
  by destruct (imdbCache w !! imdbKey kind tmdbId).
Qed.

Lemma blind_getImdbId_end (kind : Kind) (tmdbId : Z) (l : Lookup) :
  cache_blind (getImdbId_end kind tmdbId l).
Proof.
  intros f w. destruct l as [v|ticket url]; [done|].
  rewrite !getImdbId_end_run. cbn [set_cache upstream].
  by destruct (reply_data _).
Qed.

Lemma blind_format_begin (kind : Kind) (this : TMDBClient) (record : option Raw.t) :
  cache_blind (format_begin kind this record).
Proof.
  unfold format_begin. destruct record as [r|]; [|apply blind_ret].
  destruct (Raw.id r) as [tmdbId|]; [|apply blind_ret].
  destruct (tmdbId =? 0); [apply blind_ret|].
  apply blind_bind; [apply blind_getImdbId_begin|]. intros l. apply blind_ret.
Qed.

Lemma blind_format_end (kind : Kind) (f : Formatting) : cache_blind (format_end kind f).
Proof.
  unfold format_end. destruct f as [|r tmdbId l]; [apply blind_ret|].
  apply blind_bind; [apply blind_getImdbId_end|].
  intros [s|]; [|apply blind_ret]. destruct (truthy_str (Some s)); apply blind_ret.
Qed.

Lemma blind_listing (kind : Kind) (this : TMDBClient) (endpoint : string)
    (params : list (string * JsVal)) :
  cache_blind (listing kind this endpoint params).
Proof.
  unfold listing. apply blind_bind; [apply blind__fetch|]. intros data.
  destruct (results data) as [records|]; [|apply blind_throw].
  apply blind_bind; [|intros; apply blind_ret].
  unfold Promise_all_map. apply blind_bind.
  - apply blind_mapM. intros record. apply blind_format_begin.
  - intros pending. apply blind_mapM. intros f. apply blind_format_end.
Qed.

Lemma blind_cache_kept {A} (m : M A) (w : World) :
  cache_blind m -> cache (snd (m w)) = cache w.
Proof.
  intros Hm. specialize (Hm (fun _ => cache w) w).
  replace (set_cache (fun _ => cache w) w) with w in Hm by (by destruct w).
  rewrite (surjective_pairing (m w)) in Hm at 1. injection Hm as Hm. by rewrite Hm.
Qed.

Lemma listing_sends_first (kind : Kind) (this : TMDBClient) (endpoint : string)
    (params : list (string * JsVal)) (w : World) :
  exists more : list Url,
    requests (snd (listing kind this endpoint params w))
    = requests w ++ request_url this endpoint params :: more.
Proof.
  pose proof (listing_run kind this endpoint params w) as Hrun. cbv zeta in Hrun.
  destruct (reply_data _) as [data|e].
  - destruct (results data) as [records|].
    + destruct Hrun as (outcomes & w' & -> & _ & Hev).
      destruct Hev as (_ & _ & _ & _ & _ & more & Hmore). exists more.
      cbn [snd]. rewrite Hmore.
      cbn [received sent set_clock set_requests requests]. by rewrite <- app_assoc.
    + rewrite Hrun. by exists [].
  - rewrite Hrun. by exists [].
Qed.

(** ** The searches bypass the response cache *)

(** C9: [searchMovies] and [searchSeries] bypass the response cache.  For
    every query, page and state, an invocation sends its own request to the
    search endpoint, first of all; it leaves the response cache as it was and
    behaves the same whatever the cache holds (it does not read it); it logs
    neither a hit nor a miss.  Every cached listing is [cached] applied to
    its key and body: with a fresh entry under its key it returns the entry
    and sends no request, and otherwise a successful run stores its result
    under the key. *)
Theorem search_bypasses_response_cache (kind : Kind) (this : TMDBClient)
    (query : string) (page : Z) (w : World) :
  let run := search kind this query page w in
  let url := request_url this (search_endpoint kind)
               [ ("query", VStr query); ("page", VNum page) ] in
  (exists more : list Url, requests (snd run) = requests w ++ url :: more)
  /\ cache (snd run) = cache w
  /\ (forall f : gmap string CacheEntry -> gmap string CacheEntry,
        search kind this query page (set_cache f w) = (fst run, set_cache f (snd run)))
  /\ console (snd run) = console w
  /\ (forall l : Listing,
        call this l = cached (call_key l) (call_fn this l)
        /\ (forall e : CacheEntry,
              cache w !! call_key l = Some e ->
              clock w - timestamp e < CACHE_TTL ->
              call this l w = (Ok (data e), logged (CacheHit (call_key l)) w)
              /\ requests (snd (call this l w)) = requests w)
        /\ (forall metas : list Meta.t,
              fresh (call_key l) w = false ->
              fst (call this l w) = Ok metas ->
              cache (snd (call this l w)) !! call_key l = Some (mkEntry metas (clock w))
              /\ exists more : list Url,
                   requests (snd (call this l w)) = requests w ++ more /\ more <> [])).
Proof.
  intros run url.
  assert (Hsearch : search kind this query page
                    = listing kind this (search_endpoint kind)
                        [ ("query", VStr query); ("page", VNum page) ])
    by (by destruct kind).
  subst run. rewrite Hsearch.
  split; [apply listing_sends_first|].
  split; [apply blind_cache_kept, blind_listing|].
  split; [intros f; apply blind_listing|].
  split; [apply listing_evolves|].
  intros l. destruct (call_is_cached this l) as (Hcall & kind' & endpoint & params & Hfn).
  split; [done|]. rewrite Hcall, Hfn, cached_run. split.
  - intros e He Hfresh. unfold fresh. rewrite He.
    replace (clock w - timestamp e <? CACHE_TTL) with true
      by (symmetry; by apply Z.ltb_lt).
    done.
  - intros metas Hstale. rewrite Hstale. unfold recompute.
    destruct (listing_sends_first kind' this endpoint params (logged (CacheMiss (call_key l)) w))
      as (more & Hmore).
    pose proof (blind_cache_kept (listing kind' this endpoint params)
                  (logged (CacheMiss (call_key l)) w) (blind_listing _ _ _ _)) as Hkept.
    destruct (listing kind' this endpoint params _) as [[d|e] w']; [|done].
    cbn [fst snd] in *. intros [= ->].
    split; [apply lookup_insert_eq|].
    eexists. split; [exact Hmore|done].
Qed.

Lemma search_bypasses_response_cache_witness :
  cache (snd (searchSeries Sample.tmdb "matrix" 2 Sample.world)) = cache Sample.world
  /\ console (snd (searchSeries Sample.tmdb "matrix" 2 Sample.world)) = console Sample.world
  /\ call Sample.tmdb (Call_PopularMovies 1) Sample.world
     = recompute "popular_movies_1" Sample.popular Sample.world.
Proof.
  destruct (search_bypasses_response_cache Series Sample.tmdb "matrix" 2 Sample.world)
    as (_ & Hcache & _ & Hconsole & Hcalls).
  split; [exact Hcache|]. split; [exact Hconsole|].
  destruct (Hcalls (Call_PopularMovies 1)) as (-> & _).
  by rewrite cached_run.
Defined.

(** ** The response cache serves nothing older than its TTL *)

Lemma last_computed_unique (key : string) (seen : list Seen) (j j' : nat) (p p' : Seen) :
  last_computed key seen j p -> last_computed key seen j' p' -> j = j' /\ p = p'.
Proof.
  intros (Hj & Hc & Hlast) (Hj' & Hc' & Hlast').
  destruct (Nat.lt_trichotomy j j') as [Hlt|[->|Hgt]].
  - by destruct (Hlast j' p' Hlt Hj').
  - split; [done|congruence].
  - by destruct (Hlast' j p Hgt Hj).
Qed.

Lemma last_computed_snoc (key : string) (seen : list Seen) (j : nat) (prior ev : Seen) :
  last_computed key seen j prior -> ~ computed key ev ->
  last_computed key (seen ++ [ev]) j prior.
Proof.
  intros (Hj & Hc & Hlast) Hev. split; [|split; [done|]].
  - by apply lookup_app_l_Some.
  - intros j' ev' Hlt Hj'. apply lookup_app_Some in Hj' as [Hj'|[_ Hj']].
    + by apply (Hlast j').
    + apply list_lookup_singleton_Some in Hj' as [_ <-]. done.
Qed.

Lemma last_computed_new (key : string) (seen : list Seen) (ev : Seen) :
  computed key ev -> last_computed key (seen ++ [ev]) (length seen) ev.
Proof.
  intros Hev. split; [|split; [done|]].
  - rewrite lookup_app_r by done. by rewrite Nat.sub_diag.
  - intros j' ev' Hlt Hj'. apply lookup_lt_Some in Hj'.
    rewrite length_app in Hj'. cbn in Hj'. lia.
Qed.

Lemma see_hit (key : string) (fn : M (list Meta.t)) (w : World) (e : CacheEntry) :
  cache w !! key = Some e -> clock w - timestamp e < CACHE_TTL ->
  see key fn w = mkSeen key (clock w) [CacheHit key] (Ok (data e)) (clock w)
  /\ snd (cached key fn w) = logged (CacheHit key) w.
Proof.
  intros He Hfresh. unfold see. rewrite cached_run. unfold fresh. rewrite He.
  replace (clock w - timestamp e <? CACHE_TTL) with true
    by (symmetry; by apply Z.ltb_lt).
  cbn [fst snd logged set_console console clock fmap option_fmap option_map default].
  by rewrite drop_app_length.
Qed.

Lemma see_miss (key : string) (fn : M (list Meta.t)) (w : World) :
  well_behaved fn -> fresh key w = false ->
  seen_key (see key fn w) = key
  /\ seen_start (see key fn w) = clock w
  /\ seen_lines (see key fn w) = [CacheMiss key]
  /\ clock w <= seen_end (see key fn w)
  /\ match seen_result (see key fn w) with
     | Ok d => cache (snd (cached key fn w)) = <[key := mkEntry d (clock w)]> (cache w)
     | Thrown _ => cache (snd (cached key fn w)) = cache w
     end.
Proof.
  intros Hfn Hstale. unfold see. rewrite cached_run, Hstale. unfold recompute.
  destruct (Hfn (logged (CacheMiss key) w)) as (Hcache & Hconsole & Hclock).
  destruct (fn (logged (CacheMiss key) w)) as [[d|e] w'];
    cbn [fst snd seen_key seen_start seen_lines seen_result seen_end
         set_cache cache console clock logged set_console] in *;
    rewrite Hconsole, drop_app_length; repeat split; try done; congruence.
Qed.

Lemma not_computed_other_key (key : string) (ev : Seen) :
  seen_key ev <> key -> ~ computed key ev.
Proof. by intros Hne (Hkey & _). Qed.

Lemma not_computed_hit (key key' : string) (ev : Seen) :
  seen_lines ev = [CacheHit key'] -> ~ computed key ev.
Proof. intros Hlines (_ & Hmiss & _). congruence. Qed.

Lemma not_computed_thrown (key : string) (ev : Seen) (e : Error) :
  seen_result ev = Thrown e -> ~ computed key ev.
Proof. intros Hres (_ & _ & d & Hd). congruence. Qed.

Lemma cache_reflects_snoc (seen : list Seen) (ev : Seen) (w w' : World) :
  cache w' = cache w ->
  (forall key, ~ computed key ev) ->
  cache_reflects seen w -> cache_reflects (seen ++ [ev]) w'.
Proof.
  intros Hcache Hev Hinv key. specialize (Hinv key). rewrite Hcache.
  destruct (cache w !! key) as [e|].
  - destruct Hinv as (j & prior & Hlast & Hres & Hstamp).
    exists j, prior. split; [|done]. by apply last_computed_snoc.
  - intros prior Hin. apply elem_of_app in Hin as [Hin|Hin]; [by apply Hinv|].
    apply list_elem_of_singleton in Hin as ->. apply Hev.
Qed.

Lemma cached_within_ttl (key : string) (fn : M (list Meta.t)) (seen : list Seen) (w : World) :
  well_behaved fn -> cache_reflects seen w ->
  within_ttl seen (see key fn w)
  /\ cache_reflects (seen ++ [see key fn w]) (snd (cached key fn w)).
Proof.
  intros Hfn Hinv. destruct (fresh key w) eqn:Hfresh.
  - unfold fresh in Hfresh. pose proof (Hinv key) as Hkey.
    destruct (cache w !! key) as [e|] eqn:He; [|done].
    apply Z.ltb_lt in Hfresh.
    destruct (see_hit key fn w e He Hfresh) as [-> ->].
    destruct Hkey as (j & prior & Hlast & Hres & Hstamp).
    split.
    + unfold within_ttl. cbn [seen_key seen_lines seen_result seen_start seen_end].
      split; [by left|]. split; [|split].
      * intros _. exists j, prior. repeat split; try done; try apply Hlast. lia.
      * intros j' prior' Hlast' Hold.
        destruct (last_computed_unique _ _ _ _ _ _ Hlast Hlast') as [_ <-]. lia.
      * intros Hnone. destruct Hlast as (Hj & Hc & _).
        destruct (Hnone prior); [by eapply list_elem_of_lookup_2|done].
    + apply (cache_reflects_snoc seen _ w); [done| |done].
      intros key'. by eapply not_computed_hit.
  - destruct (see_miss key fn w Hfn Hfresh) as (Hkey & Hstart & Hlines & Hend & Hcache).
    split.
    + unfold within_ttl. rewrite Hkey, Hlines.
      split; [by right|]. split; [done|]. split; done.
    + destruct (seen_result (see key fn w)) as [d|e] eqn:Hres.
      * intros key'. rewrite Hcache. destruct (decide (key = key')) as [<-|Hne].
        -- rewrite lookup_insert_eq. exists (length seen), (see key fn w).
           split; [|split; [done|by cbn]].
           apply last_computed_new. split; [done|]. split; [done|]. by exists d.
        -- rewrite lookup_insert_ne by done. specialize (Hinv key').
           destruct (cache w !! key') as [e'|].
           ++ destruct Hinv as (j & prior & Hlast & Hres' & Hstamp).
              exists j, prior. split; [|done]. apply last_computed_snoc; [done|].
              apply not_computed_other_key. congruence.
           ++ intros prior Hin. apply elem_of_app in Hin as [Hin|Hin]; [by apply Hinv|].
              apply list_elem_of_singleton in Hin as ->.
              apply not_computed_other_key. congruence.
      * apply (cache_reflects_snoc seen _ w); [done| |done].
        intros key'. by eapply not_computed_thrown.
Qed.

Lemma observe_within_ttl (steps : list Step) (seen : list Seen) (w : World) :
  Forall step_well_behaved steps ->
  cache_reflects seen w ->
  (forall i ev, seen !! i = Some ev -> within_ttl (take i seen) ev) ->
  forall i ev, observe steps seen w !! i = Some ev ->
               within_ttl (take i (observe steps seen w)) ev.
Proof.
  revert seen w. induction steps as [|[key fn|ms] steps IH]; intros seen w Hsteps Hinv Hseen.
  - done.
  - apply Forall_cons in Hsteps as [Hfn Hsteps]. cbn [observe].
    destruct (cached_within_ttl key fn seen w Hfn Hinv) as [Hnew Hinv'].
    apply IH; [done..|].
    intros i ev Hi. apply lookup_app_Some in Hi as [Hi|[Hlen Hi]].
    + rewrite take_app_le by (apply lookup_lt_Some in Hi; lia). by apply Hseen.
    + apply list_lookup_singleton_Some in Hi as [Hi <-].
      assert (i = length seen) as -> by lia. by rewrite take_app_length.
  - apply Forall_cons in Hsteps as [_ Hsteps]. cbn [observe]. by apply IH.
Qed.

Lemma listing_well_behaved (kind : Kind) (this : TMDBClient) (endpoint : string)
    (params : list (string * JsVal)) :
  well_behaved (listing kind this endpoint params).
Proof.
  intros w. destruct (listing_evolves kind this endpoint params w)
    as (Hcache & Hconsole & _ & Hclock & _). done.
Qed.

(** C3: in every session of the response cache that starts with an empty
    cache, whatever the keys, the compute functions (that keep to
    themselves, as every listing does) and the time between the calls, every
    call either is served from the cache or runs its compute function; a call
    served from the cache returns the value of the last successful
    computation for its key, and that computation returned less than the TTL
    (30 minutes) before the call; and a call made when the TTL or more has
    passed since the last successful computation for its key returned, or
    when there has been none, runs the compute function again, whose result
    it returns and stores. *)
Theorem cached_serves_within_ttl (steps : list Step) (w0 : World) :
  cache w0 = ∅ ->
  Forall step_well_behaved steps ->
  (forall (i : nat) (ev : Seen),
     observe steps [] w0 !! i = Some ev ->
     within_ttl (take i (observe steps [] w0)) ev)
  /\ CACHE_TTL = 30 * 60 * 1000
  /\ (forall (key : string) (fn : M (list Meta.t)) (w : World),
        cached key fn w
        = if fresh key w
          then (Ok (default [] (data <$> cache w !! key)), logged (CacheHit key) w)
          else recompute key fn w)
  /\ (forall (kind : Kind) (this : TMDBClient) (endpoint : string)
             (params : list (string * JsVal)),
        well_behaved (listing kind this endpoint params)).
Proof.
  intros Hempty Hsteps. split; [|split; [done|split]].
  - apply observe_within_ttl; [done| |done].
    intros key. rewrite Hempty, lookup_empty. intros prior Hin.
    by apply elem_of_nil in Hin.
  - apply cached_run.
  - apply listing_well_behaved.
Qed.

Lemma cached_serves_within_ttl_witness :
  within_ttl (take 1 (observe Sample.session [] Sample.world)) Sample.second_call
  /\ List.map seen_lines (observe Sample.session [] Sample.world)
     = [ [CacheMiss "popular_movies_1"]; [CacheHit "popular_movies_1"];
         [CacheMiss "popular_movies_1"] ].
Proof.
  split; [|vm_compute; reflexivity].
  destruct (cached_serves_within_ttl Sample.session Sample.world) as [Hall _].
  - reflexivity.
  - repeat (apply Forall_cons_2; [first [apply listing_well_behaved | exact I]|]).
    apply Forall_nil_2.
  - apply Hall. vm_compute. reflexivity.
Defined.

(** * Further properties *)

Import Further.

(** ** Cache keys *)

Lemma String_app_cons (c : ascii) (s t : string) :
  String c s +:+ t = String c (s +:+ t).
Proof. reflexivity. Qed.

Lemma String_app_nil (t : string) : "" +:+ t = t.
Proof. reflexivity. Qed.

Ltac expose_heads H := rewrite ?String_app_cons, ?String_app_nil in H.

Lemma no_underscore_app (s t : string) :
  no_underscore (s +:+ t) = no_underscore s && no_underscore t.
Proof.
  induction s as [|c s IH]; [reflexivity|].
  rewrite String_app_cons. cbn [no_underscore]. rewrite IH. by rewrite andb_assoc.
Qed.

Lemma no_underscore_pretty_N_go (x : N) (s : string) :
  no_underscore s = true -> no_underscore (pretty_N_go x s) = true.
Proof.
  revert s. induction (N.lt_wf_0 x) as [x _ IH]; intros s Hs.
  destruct (decide (x = 0)%N) as [->|Hx]; [by rewrite pretty_N_go_0|].
  rewrite pretty_N_go_step by lia. apply IH; [apply N.div_lt; lia|].
  cbn [no_underscore]. rewrite Hs, andb_true_r.
  unfold pretty_N_char. by repeat case_match.
Qed.

Lemma no_underscore_pretty (n : Z) : no_underscore (pretty n) = true.
Proof.
  assert (Hpos : forall p : positive, no_underscore (pretty (N.pos p)) = true).
  { intros p. unfold pretty, pretty_N. rewrite decide_False by done.
    by apply no_underscore_pretty_N_go. }
  destruct n as [|p|p]; [reflexivity|apply Hpos|].
  change (pretty (Z.neg p)) with ("-" +:+ pretty (N.pos p)).
  rewrite no_underscore_app, Hpos. reflexivity.
Qed.

(** Two strings cut at their last [_]. *)
Lemma split_last_underscore (s1 s2 t1 t2 : string) :
  no_underscore t1 = true -> no_underscore t2 = true ->
  s1 +:+ "_" +:+ t1 = s2 +:+ "_" +:+ t2 -> s1 = s2 /\ t1 = t2.
Proof.
  intros Ht1 Ht2. revert s2. induction s1 as [|c s1 IH]; intros [|c' s2] Heq;
    expose_heads Heq.
  - by injection Heq.
  - injection Heq as _ Heq.
    rewrite Heq, no_underscore_app in Ht1. cbn in Ht1.
    by rewrite andb_false_r in Ht1.
  - injection Heq as _ Heq.
    rewrite <- Heq, no_underscore_app in Ht2. cbn in Ht2.
    by rewrite andb_false_r in Ht2.
  - injection Heq as -> Heq.
    destruct (IH _ Heq) as [-> ->]. done.
Qed.

(** Two strings cut at their first [_]. *)
Lemma split_first_underscore (s1 s2 t1 t2 : string) :
  no_underscore s1 = true -> no_underscore s2 = true ->
  s1 +:+ "_" +:+ t1 = s2 +:+ "_" +:+ t2 -> s1 = s2 /\ t1 = t2.
Proof.
  revert s2. induction s1 as [|c s1 IH]; intros [|c' s2] Hs1 Hs2 Heq;
    expose_heads Heq.
  - by injection Heq.
  - injection Heq as <- _. cbn in Hs2. done.
  - injection Heq as -> _. cbn in Hs1. done.
  - injection Heq as -> Heq.
    cbn [no_underscore] in Hs1, Hs2.
    apply andb_true_iff in Hs1 as [_ Hs1]. apply andb_true_iff in Hs2 as [_ Hs2].
    destruct (IH _ Hs1 Hs2 Heq) as [-> ->]. done.
Qed.

Lemma app_comparable (p q s t : string) :
  p +:+ s = q +:+ t -> comparable p q = true.
Proof.
  unfold comparable. revert q. induction p as [|c p IH]; intros [|c' q] Heq.
  - reflexivity.
  - reflexivity.
  - reflexivity.
  - rewrite !String_app_cons in Heq. injection Heq as -> Heq.
    specialize (IH _ Heq). cbn [String.prefix].
    destruct (ascii_dec c' c'); [exact IH|done].
Qed.

Lemma key_prefixes_free : prefix_free key_prefixes = true.
Proof. vm_compute. reflexivity. Qed.

Lemma call_key_split (l : Listing) : call_key l = call_prefix l +:+ call_payload l.
Proof. by destruct l. Qed.

Lemma call_prefix_rank (l : Listing) : key_prefixes !! call_rank l = Some (call_prefix l).
Proof. by destruct l. Qed.

Lemma prefix_free_lookup (ps : list string) (i j : nat) (p q : string) :
  prefix_free ps = true -> ps !! i = Some p -> ps !! j = Some q ->
  comparable p q = true -> i = j.
Proof.
  unfold prefix_free. rewrite forallb_forall. intros Hfree Hi Hj Hcmp.
  specialize (Hfree (i, p)). cbn beta iota in Hfree.
  rewrite forallb_forall in Hfree.
  assert (Hin : forall k x, ps !! k = Some x -> In (k, x) (imap pair ps)).
  { intros k x Hk. apply list_elem_of_In, list_elem_of_lookup. exists k.
    by rewrite list_lookup_imap, Hk. }
  specialize (Hfree (Hin _ _ Hi) (j, q) (Hin _ _ Hj)). cbn beta iota in Hfree.
  rewrite Hcmp in Hfree. cbn in Hfree. rewrite orb_false_r in Hfree.
  by apply Nat.eqb_eq.
Qed.

Lemma call_key_rank (l1 l2 : Listing) :
  call_key l1 = call_key l2 -> call_rank l1 = call_rank l2.
Proof.
  rewrite !call_key_split. intros Heq.
  eapply prefix_free_lookup;
    [apply key_prefixes_free|apply call_prefix_rank|apply call_prefix_rank|].
  by eapply app_comparable.
Qed.

Lemma call_key_inj (l1 l2 : Listing) : call_key l1 = call_key l2 -> l1 = l2.
Proof.
  intros Heq. pose proof (call_key_rank l1 l2 Heq) as Hrank.
  destruct l1, l2; try discriminate Hrank; clear Hrank;
    rewrite !call_key_split in Heq; cbn [call_prefix call_payload] in Heq;
    apply (inj (String.app _)) in Heq.
  all: try (apply (inj pretty) in Heq; by subst).
  all: try (apply split_first_underscore in Heq as [Ha Hb];
            [|apply no_underscore_pretty..];
            apply (inj pretty) in Ha; apply (inj pretty) in Hb; by subst).
  - apply split_first_underscore in Heq as [Ha Hb]; [|apply no_underscore_pretty..].
    apply split_last_underscore in Hb as [Hb Hc]; [|apply no_underscore_pretty..].
    apply (inj pretty) in Ha. apply (inj pretty) in Hc. by subst.
  - apply split_first_underscore in Heq as [Ha Hb]; [|apply no_underscore_pretty..].
    apply split_last_underscore in Hb as [Hb Hc]; [|apply no_underscore_pretty..].
    apply (inj pretty) in Ha. apply (inj pretty) in Hc. by subst.
  - apply split_last_underscore in Heq as [Ha Hb]; [|apply no_underscore_pretty..].
    apply (inj pretty) in Hb. by subst.
Qed.

Lemma cached_other_keys (key key' : string) (fn : M (list Meta.t)) (w : World) :
  cache_blind fn -> key <> key' ->
  cache (snd (cached key fn w)) !! key' = cache w !! key'.
Proof.
  intros Hfn Hne. rewrite cached_run. destruct (fresh key w); [done|].
  unfold recompute.
  pose proof (blind_cache_kept fn (logged (CacheMiss key) w) Hfn) as Hkept.
  destruct (fn (logged (CacheMiss key) w)) as [[d|e] w']; cbn [snd] in *.
  - cbn [set_cache cache]. by rewrite lookup_insert_ne, Hkept.
  - by rewrite Hkept.
Qed.

(** X1: two calls of the cached listings have the same cache key only when
    they are the same method with the same arguments (page, genre, provider,
    region, country, keyword), so a call never reads or overwrites the entry
    of another call: it leaves the entry under every other call's key as it
    was. *)
Theorem listing_calls_have_own_entries (this : TMDBClient) (l l' : Listing) (w : World) :
  l <> l' ->
  call_key l <> call_key l'
  /\ cache (snd (call this l w)) !! call_key l' = cache w !! call_key l'.
Proof.
  intros Hne.
  assert (Hkeys : call_key l <> call_key l') by (intros Heq; by apply Hne, call_key_inj).
  split; [done|].
  destruct (call_is_cached this l) as (-> & kind & endpoint & params & ->).
  apply cached_other_keys; [apply blind_listing|done].
Qed.

Lemma listing_calls_have_own_entries_witness :
  call_key (Call_MoviesByProvider 8 11 "FR") <> call_key (Call_MoviesByProvider 81 1 "FR")
  /\ cache (snd (call Sample.tmdb (Call_MoviesByProvider 8 11 "FR") Sample.world))
       !! call_key (Call_MoviesByProvider 81 1 "FR")
     = cache Sample.world !! call_key (Call_MoviesByProvider 81 1 "FR").
Proof.
  apply (listing_calls_have_own_entries Sample.tmdb). discriminate.
Defined.

Lemma imdbKey_inj (kind kind' : Kind) (tmdbId tmdbId' : Z) :
  imdbKey kind tmdbId = imdbKey kind' tmdbId' -> kind = kind' /\ tmdbId = tmdbId'.
Proof.
  destruct kind, kind'; unfold imdbKey; intros Heq; expose_heads Heq;
    try discriminate Heq.
  - apply (inj (String.app "movie_")), (inj pretty) in Heq. by subst.
  - apply (inj (String.app "series_")), (inj pretty) in Heq. by subst.
Qed.

(** X2: the keys of [imdbCache] tell movies from series and one title from
    another: a movie and a series with the same upstream id have different
    keys, and resolving one title leaves the entry of every other title, of
    either kind, as it was. *)
Theorem resolver_entries_are_separate (kind kind' : Kind) (this : TMDBClient)
    (tmdbId tmdbId' : Z) (w : World) :
  (kind, tmdbId) <> (kind', tmdbId') ->
  imdbKey kind tmdbId <> imdbKey kind' tmdbId'
  /\ imdbCache (snd (getImdbId kind this tmdbId w)) !! imdbKey kind' tmdbId'
     = imdbCache w !! imdbKey kind' tmdbId'.
Proof.
  intros Hne.
  assert (Hkeys : imdbKey kind tmdbId <> imdbKey kind' tmdbId').
  { intros Heq. apply imdbKey_inj in Heq as [-> ->]. done. }
  split; [done|]. rewrite getImdbId_run.
  destruct (imdbCache w !! imdbKey kind tmdbId); [done|].
  destruct (reply_data _); [|done].
  cbn [snd stored set_imdbCache imdbCache received sent set_clock set_requests].
  by rewrite lookup_insert_ne.
Qed.

Lemma resolver_entries_are_separate_witness :
  imdbKey Movie 603 <> imdbKey Series 603
  /\ imdbCache (snd (_getMovieImdbId Sample.tmdb 603 Sample.world)) !! imdbKey Series 603
     = imdbCache Sample.world !! imdbKey Series 603.
Proof.
  apply (resolver_entries_are_separate Movie Series Sample.tmdb 603 603 Sample.world).
  discriminate.
Defined.

(** ** What a listing sends, and when it fails *)

Lemma set_requests_nil (w : World) : set_requests (fun rs => rs ++ []) w = w.
Proof. destruct w. unfold set_requests. cbn. by rewrite app_nil_r. Qed.

Lemma set_requests_app (more1 more2 : list Url) (w : World) :
  set_requests (fun rs => rs ++ more2) (set_requests (fun rs => rs ++ more1) w)
  = set_requests (fun rs => rs ++ (more1 ++ more2)) w.
Proof. destruct w. unfold set_requests. cbn. by rewrite app_assoc. Qed.

Lemma format_begin_sends (kind : Kind) (this : TMDBClient) (record : option Raw.t)
    (w : World) :
  exists f : Formatting,
    format_begin kind this record w
    = (Ok f,
       set_requests
         (fun rs => rs ++ option_list (lookup_url kind this
                                         <$> needs_lookup kind (imdbCache w) record)) w).
Proof.
  unfold format_begin, needs_lookup.
  destruct record as [r|]; [|exists Dropped; by rewrite set_requests_nil].
  destruct (Raw.id r) as [tmdbId|]; [|exists Dropped; by rewrite set_requests_nil].
  destruct (tmdbId =? 0); [exists Dropped; by rewrite set_requests_nil|].
  unfold bind. rewrite getImdbId_begin_run.
  destruct (imdbCache w !! imdbKey kind tmdbId) as [v|]; eexists.
  - by rewrite set_requests_nil.
  - reflexivity.
Qed.

Lemma begin_phase_sends (kind : Kind) (this : TMDBClient) (records : list (option Raw.t))
    (w : World) :
  exists pending : list Formatting,
    mapM (format_begin kind this) records w
    = (Ok pending,
       set_requests (fun rs => rs ++ lookups kind this (imdbCache w) records) w).
Proof.
  revert w. induction records as [|record records IH]; intros w.
  - exists []. cbn [mapM lookups omap list_omap]. unfold ret. by rewrite set_requests_nil.
  - destruct (format_begin_sends kind this record w) as (f & Hf).
    destruct (IH (set_requests
                    (fun rs => rs ++ option_list (lookup_url kind this
                                 <$> needs_lookup kind (imdbCache w) record)) w))
      as (pending & Hrest).
    exists (f :: pending). cbn [mapM]. unfold bind at 1. rewrite Hf.
    unfold bind at 1. rewrite Hrest. unfold ret. f_equal.
    rewrite set_requests_app. cbn [set_requests imdbCache].
    f_equal. unfold lookups. cbn [omap list_omap].
    by destruct (needs_lookup kind (imdbCache w) record).
Qed.

Lemma Promise_all_format_requests (kind : Kind) (this : TMDBClient)
    (records : list (option Raw.t)) (w : World) :
  requests (snd (Promise_all_map (format_begin kind this) (format_end kind) records w))
  = requests w ++ lookups kind this (imdbCache w) records.
Proof.
  destruct (begin_phase_sends kind this records w) as (pending & Hbegin).
  destruct (end_phase kind pending
              (set_requests (fun rs => rs ++ lookups kind this (imdbCache w) records) w))
    as (outcomes & w' & Hend & _ & _ & _ & _ & Hr & _).
  unfold Promise_all_map, bind. by rewrite Hbegin, Hend.
Qed.

Lemma listing_requests (kind : Kind) (this : TMDBClient) (endpoint : string)
    (params : list (string * JsVal)) (w : World) :
  let url := request_url this endpoint params in
  let reply := response (upstream w (length (requests w)) url) in
  requests (snd (listing kind this endpoint params w))
  = requests w ++ url :: lookups kind this (imdbCache w) (default [] (page_of_reply reply)).
Proof.
  intros url reply. unfold listing, bind, page_of_reply. rewrite _fetch_run.
  fold url reply.
  destruct (reply_data reply) as [data|e]; [|done].
  destruct (results data) as [records|]; [|done].
  pose proof (Promise_all_format_requests kind this records
                (received (length (requests w)) url (sent url w))) as Hreq.
  destruct (Promise_all_map _ _ records _) as [[outcomes|e] w']; cbn [snd default] in *.
  - unfold ret. cbn [snd]. rewrite Hreq.
    cbn [received sent set_clock set_requests requests imdbCache].
    by rewrite <- app_assoc.
  - rewrite Hreq. cbn [received sent set_clock set_requests requests imdbCache].
    by rewrite <- app_assoc.
Qed.

Lemma lookups_length (kind : Kind) (this : TMDBClient)
    (cache0 : gmap string (option string)) (records : list (option Raw.t)) :
  (length (lookups kind this cache0 records) <= length records)%nat.
Proof.
  unfold lookups. induction records as [|record records IH]; [done|].
  cbn [omap list_omap length].
  destruct (lookup_url kind this <$> needs_lookup kind cache0 record); cbn [length]; lia.
Qed.

Lemma lookups_none (kind : Kind) (this : TMDBClient)
    (cache0 : gmap string (option string)) (records : list (option Raw.t)) :
  Forall (fun record => needs_lookup kind cache0 record = None) records ->
  lookups kind this cache0 records = [].
Proof.
  unfold lookups. induction 1 as [|record records Hrecord _ IH]; [done|].
  cbn [omap list_omap]. by rewrite Hrecord.
Qed.

Lemma listing_result (kind : Kind) (this : TMDBClient) (endpoint : string)
    (params : list (string * JsVal)) (w : World) :
  let url := request_url this endpoint params in
  let reply := response (upstream w (length (requests w)) url) in
  match listing_error reply with
  | Some e => listing kind this endpoint params w
              = (Thrown e, received (length (requests w)) url (sent url w))
  | None => exists metas : list Meta.t, fst (listing kind this endpoint params w) = Ok metas
  end.
Proof.
  intros url reply. pose proof (listing_run kind this endpoint params w) as Hrun.
  cbv zeta in Hrun. fold url reply in Hrun. unfold listing_error.
  destruct (reply_data reply) as [data|e]; [|done].
  destruct (results data) as [records|]; [|done].
  destruct Hrun as (outcomes & w' & -> & _). eauto.
Qed.

(** X3: a listing sends its own request first and then, in the order of the
    page it receives, one request for the external ids of each record that
    has an upstream id not yet in [imdbCache], and nothing else: never more
    than one request per record of the page besides its own, only its own
    when every title of the page is already in [imdbCache], and, the
    formatter calls running side by side, a record that comes twice in the
    page is looked up twice. *)
Theorem listing_sends_page_then_lookups (kind : Kind) (this : TMDBClient)
    (endpoint : string) (params : list (string * JsVal)) (w : World) :
  let url := request_url this endpoint params in
  let page := default [] (page_of_reply (response (upstream w (length (requests w)) url))) in
  let sent_after := requests (snd (listing kind this endpoint params w)) in
  sent_after = requests w ++ url :: lookups kind this (imdbCache w) page
  /\ (length sent_after <= length (requests w) + 1 + length page)%nat
  /\ (Forall (fun record => needs_lookup kind (imdbCache w) record = None) page ->
      sent_after = requests w ++ [url])
  /\ (forall (r : Raw.t) (tmdbId : Z),
        Raw.id r = Some tmdbId -> tmdbId <> 0 ->
        imdbCache w !! imdbKey kind tmdbId = None ->
        page = [Some r; Some r] ->
        sent_after = requests w ++ [url; lookup_url kind this tmdbId;
                                    lookup_url kind this tmdbId]).
Proof.
  intros url page sent_after.
  assert (Hsent : sent_after = requests w ++ url :: lookups kind this (imdbCache w) page)
    by apply listing_requests.
  split; [done|]. split; [|split].
  - rewrite Hsent, length_app. cbn [length].
    pose proof (lookups_length kind this (imdbCache w) page). lia.
  - intros Hnone. by rewrite Hsent, lookups_none.
  - intros r tmdbId Hid Hne Hmiss Hpage. rewrite Hsent, Hpage.
    unfold lookups, needs_lookup. cbn [omap list_omap]. rewrite Hid, Hmiss.
    by destruct (Z.eqb_spec tmdbId 0).
Qed.

Lemma listing_sends_page_then_lookups_witness :
  requests (snd (listing Movie Sample.tmdb "/movie/popular" [("page", VNum 1)]
                   (stored Movie 603 (Some "tt0133093")
                      (stored Movie 604 None (stored Movie 605 None Sample.world)))))
  = [ request_url Sample.tmdb "/movie/popular" [("page", VNum 1)] ].
Proof.
  destruct (listing_sends_page_then_lookups Movie Sample.tmdb "/movie/popular"
              [("page", VNum 1)]
              (stored Movie 603 (Some "tt0133093")
                 (stored Movie 604 None (stored Movie 605 None Sample.world))))
    as (_ & _ & Hone & _).
  apply Hone. vm_compute. repeat constructor.
Defined.

Lemma formatted_unresolved (kind : Kind) (this : TMDBClient) (w w' : World)
    (record : option Raw.t) (outcome : option Meta.t) :
  imdbCache w = ∅ ->
  (forall (ticket : nat) (tmdbId : Z),
     answer (response (upstream w ticket (lookup_url kind this tmdbId))) = None) ->
  formatted kind this w w' record outcome -> outcome = None.
Proof.
  intros Hempty Hdown. unfold formatted.
  destruct record as [r|]; [|done].
  destruct (Raw.id r) as [tmdbId|]; [|done].
  destruct (tmdbId =? 0); [done|].
  intros (imdbId & [Hhit|(_ & ticket & _ & _ & ->)] & ->).
  - by rewrite Hempty, lookup_empty in Hhit.
  - by rewrite Hdown.
Qed.

(** X4: a listing fails only with its own request: it throws the error of
    that request (rejection, status not ok, body that does not parse, or no
    [results] in the body), having sent nothing else and written nothing to
    [imdbCache]; and when its own request succeeds it returns a list,
    whatever becomes of the requests for external ids: with every such
    request failing and nothing in [imdbCache], the list is empty. *)
Theorem listing_fails_only_with_its_request (kind : Kind) (this : TMDBClient)
    (endpoint : string) (params : list (string * JsVal)) (w : World) :
  let url := request_url this endpoint params in
  let reply := response (upstream w (length (requests w)) url) in
  let run := listing kind this endpoint params w in
  (forall e : Error, fst run = Thrown e <-> listing_error reply = Some e)
  /\ ((exists metas : list Meta.t, fst run = Ok metas) <-> listing_error reply = None)
  /\ (forall e : Error,
        fst run = Thrown e ->
        requests (snd run) = requests w ++ [url]
        /\ imdbCache (snd run) = imdbCache w
        /\ cache (snd run) = cache w)
  /\ (listing_error reply = None ->
      imdbCache w = ∅ ->
      (forall (ticket : nat) (tmdbId : Z),
         answer (response (upstream w ticket (lookup_url kind this tmdbId))) = None) ->
      fst run = Ok []).
Proof.
  intros url reply run. subst run.
  pose proof (listing_result kind this endpoint params w) as Hres.
  cbv zeta in Hres. fold url reply in Hres.
  split; [|split; [|split]].
  - intros e. destruct (listing_error reply) as [e'|].
    + rewrite Hres. cbn [fst]. split; congruence.
    + destruct Hres as [metas ->]. split; congruence.
  - destruct (listing_error reply) as [e'|].
    + rewrite Hres. cbn [fst]. split; [intros [metas [=]]|done].
    + split; [done|by intros _].
  - intros e He. destruct (listing_error reply) as [e'|].
    + by rewrite Hres.
    + destruct Hres as [metas Hok]. congruence.
  - intros Hnone Hempty Hdown.
    pose proof (listing_run kind this endpoint params w) as Hrun.
    cbv zeta in Hrun. fold url reply in Hrun. unfold listing_error in Hnone.
    destruct (reply_data reply) as [data|e]; [|done].
    destruct (results data) as [records|]; [|done].
    destruct Hrun as (outcomes & w' & -> & Hout & _). cbn [fst]. f_equal.
    clear -Hout Hempty Hdown. induction Hout as [|record o records outcomes Ho _ IH].
    + reflexivity.
    + rewrite (formatted_unresolved _ _ _ _ _ _ Hempty Hdown Ho). exact IH.
Qed.

(** ** The handler, the cache and the upstream together *)

Lemma fresh_logged (key : string) (line : LogLine) (w : World) :
  fresh key (logged line w) = fresh key w.
Proof. reflexivity. Qed.

Lemma stale_stays_stale (key : string) (w w' : World) :
  cache w' = cache w -> clock w <= clock w' -> fresh key w = false -> fresh key w' = false.
Proof.
  unfold fresh. intros -> Hclock. destruct (cache w !! key) as [e|]; [|done].
  rewrite !Z.ltb_ge. lia.
Qed.

Lemma cached_listing_failure (key : string) (kind : Kind) (this : TMDBClient)
    (endpoint : string) (params : list (string * JsVal)) (w : World) (e : Error) :
  let fn := listing kind this endpoint params in
  let url := request_url this endpoint params in
  fst (cached key fn w) = Thrown e ->
  cache (snd (cached key fn w)) = cache w
  /\ imdbCache (snd (cached key fn w)) = imdbCache w
  /\ requests (snd (cached key fn w)) = requests w ++ [url]
  /\ console (snd (cached key fn w)) = console w ++ [CacheMiss key]
  /\ exists more : list Url,
       requests (snd (cached key fn (snd (cached key fn w)))) = requests w ++ url :: url :: more.
Proof.
  intros fn url. subst fn. rewrite cached_run.
  destruct (fresh key w) eqn:Hfresh; [done|]. unfold recompute.
  pose proof (listing_result kind this endpoint params (logged (CacheMiss key) w)) as Hres.
  cbv zeta in Hres. fold url in Hres.
  destruct (listing_error _) as [e'|]; [|destruct Hres as [metas Hok]].
  - rewrite Hres. cbn [fst snd]. intros [= ->].
    cbn [received sent logged set_clock set_requests set_console cache imdbCache
         requests console].
    repeat split; try done.
    set (w1 := received _ url (sent url (logged (CacheMiss key) w))).
    rewrite cached_run.
    rewrite (stale_stays_stale key w w1); [|done|cbn; lia|done].
    unfold recompute.
    destruct (listing_sends_first kind this endpoint params (logged (CacheMiss key) w1))
      as (more & Hmore).
    exists more.
    destruct (listing kind this endpoint params (logged (CacheMiss key) w1))
      as [[d|e'] w2]; cbn [snd set_cache requests] in *;
      rewrite Hmore; cbn; by rewrite <- app_assoc.
  - destruct (listing kind this endpoint params (logged (CacheMiss key) w))
      as [[d|e'] w']; cbn [fst] in *; [done|congruence].
Qed.

(** X5: when the fetch operation of a registered catalogue fails, the
    handler answers [{ metas: [] }] and logs the error, exactly one request
    has been sent, and the failure is not remembered: both caches are as they
    were, and the same request made again right after sends the same
    upstream request again. *)
Theorem failed_fetch_is_not_cached (tmdb : TMDBClient) (args : Args) (c : Catalog)
    (w : World) (e : Error) :
  assoc (catalogId_of args) (CATALOGS tmdb) = Some c ->
  fst (fetch c (page_of (args_extra args)) (requested args w)) = Thrown e ->
  let w1 := snd (defineCatalogHandler tmdb args w) in
  fst (defineCatalogHandler tmdb args w) = Ok [("metas", [])]
  /\ cache w1 = cache w
  /\ imdbCache w1 = imdbCache w
  /\ last (console w1) = Some (CatalogError (args_id args) e)
  /\ exists (url : Url) (more : list Url),
       requests w1 = requests w ++ [url]
       /\ requests (snd (defineCatalogHandler tmdb args w1)) = requests w ++ url :: url :: more.
Proof.
  intros Hc Hthrown w1. subst w1.
  destruct (catalog_fetch_cached tmdb _ c (page_of (args_extra args)) Hc)
    as (key & kind & endpoint & params & Hfetch).
  rewrite !(handler_registered _ _ _ _ Hc). unfold dispatch.
  rewrite Hfetch in *.
  destruct (cached_listing_failure key kind tmdb endpoint params (requested args w) e Hthrown)
    as (Hcache & Himdb & Hreq & Hconsole & more & Hagain).
  destruct (cached key (listing kind tmdb endpoint params) (requested args w))
    as [[d|e'] w1] eqn:Hrun; cbn [fst snd] in *; [done|]. injection Hthrown as ->.
  split; [done|]. split; [done|]. split; [done|].
  split; [cbn [set_console console]; by rewrite last_snoc|].
  exists (request_url tmdb endpoint params), more. split; [done|].
  assert (Hsame : forall (f g : list LogLine -> list LogLine) (w0 : World),
            requests (snd (cached key (listing kind tmdb endpoint params)
                             (set_console f (set_console g w0))))
            = requests (snd (cached key (listing kind tmdb endpoint params) w0))).
  { intros f g w0. rewrite !cached_run.
    change (fresh key (set_console f (set_console g w0))) with (fresh key w0).
    destruct (fresh key w0); [done|]. unfold recompute.
    pose proof (listing_requests kind tmdb endpoint params
                  (logged (CacheMiss key) (set_console f (set_console g w0)))) as H1.
    pose proof (listing_requests kind tmdb endpoint params (logged (CacheMiss key) w0)) as H2.
    cbv zeta in H1, H2.
    destruct (listing kind tmdb endpoint params
                (logged (CacheMiss key) (set_console f (set_console g w0)))) as [[d1|e1] w1'];
      destruct (listing kind tmdb endpoint params (logged (CacheMiss key) w0))
        as [[d2|e2] w2']; cbn [snd set_cache requests] in *; by rewrite H1, H2. }
  unfold requested.
  match goal with
  | |- requests (snd (let (_, _) := ?run in _)) = _ =>
      assert (Hreq2 : requests (snd run) = requests w ++ request_url tmdb endpoint params
                                             :: request_url tmdb endpoint params :: more)
  end.
  { rewrite Hsame. exact Hagain. }
  clear Hrun.
  match goal with
  | |- requests (snd (let (_, _) := ?run in _)) = _ =>
      destruct run as [[d2|e2] w2]; exact Hreq2
  end.
Qed.

Lemma failed_fetch_is_not_cached_witness :
  fst (defineCatalogHandler Sample.tmdb
         (mkArgs "movie" "cataloog-bp-thriller-movies" None) Sample.world_offline)
  = Ok [("metas", [])]
  /\ cache (snd (defineCatalogHandler Sample.tmdb
                   (mkArgs "movie" "cataloog-bp-thriller-movies" None) Sample.world_offline))
     = cache Sample.world_offline.
Proof.
  destruct (failed_fetch_is_not_cached Sample.tmdb
              (mkArgs "movie" "cataloog-bp-thriller-movies" None)
              Sample.thriller_movies Sample.world_offline FetchError)
    as (Hreply & Hcache & _).
  - reflexivity.
  - vm_compute. reflexivity.
  - split; [exact Hreply|exact Hcache].
Defined.

(** X6: once the handler has gone upstream for a registered catalogue and
    got its list, the same request made less than 30 minutes after the first
    one was made is answered with the same list from the response cache,
    without any upstream request; made 30 minutes after it or later, it goes
    upstream again. *)
Theorem repeated_request_is_served_from_cache (tmdb : TMDBClient) (args : Args)
    (c : Catalog) (w : World) (metas : list Meta.t) (ms : N) :
  assoc (catalogId_of args) (CATALOGS tmdb) = Some c ->
  fst (fetch c (page_of (args_extra args)) (requested args w)) = Ok metas ->
  requests (snd (defineCatalogHandler tmdb args w)) <> requests w ->
  let w1 := snd (defineCatalogHandler tmdb args w) in
  let w2 := set_clock (fun t => t + Z.of_N ms) w1 in
  fst (defineCatalogHandler tmdb args w) = Ok [("metas", metas)]
  /\ (clock w2 - clock w < CACHE_TTL ->
      fst (defineCatalogHandler tmdb args w2) = Ok [("metas", metas)]
      /\ requests (snd (defineCatalogHandler tmdb args w2)) = requests w1
      /\ imdbCache (snd (defineCatalogHandler tmdb args w2)) = imdbCache w1)
  /\ (CACHE_TTL <= clock w2 - clock w ->
      exists (url : Url) (more : list Url),
        requests (snd (defineCatalogHandler tmdb args w2)) = requests w1 ++ url :: more).
Proof.
  intros Hc Hok Hsent w1 w2. subst w2 w1.
  destruct (catalog_fetch_cached tmdb _ c (page_of (args_extra args)) Hc)
    as (key & kind & endpoint & params & Hfetch).
  rewrite !(handler_registered _ _ _ _ Hc) in *. unfold dispatch in *.
  rewrite Hfetch in *. rewrite cached_run in Hok, Hsent |- *.
  destruct (fresh key (requested args w)) eqn:Hfresh; [done|].
  unfold recompute in *.
  pose proof (blind_cache_kept (listing kind tmdb endpoint params)
                (logged (CacheMiss key) (requested args w)) (blind_listing _ _ _ _))
    as Hkept.
  destruct (listing kind tmdb endpoint params (logged (CacheMiss key) (requested args w)))
    as [[d|e] w'] eqn:Hrun; cbn [fst snd] in *; [|done].
  injection Hok as ->. clear Hsent.
  split; [done|].
  set (w2 := set_clock (fun t => t + Z.of_N ms)
               (set_console (fun ls => ls ++ [CatalogResults (length metas) (name c)])
                  (set_cache (insert key (mkEntry metas (clock (requested args w)))) w'))).
  assert (Hentry : cache (requested args w2) !! key
                   = Some (mkEntry metas (clock (requested args w))))
    by apply lookup_insert_eq.
  assert (Hfresh2 : fresh key (requested args w2)
                    = (clock w2 - clock w <? CACHE_TTL)).
  { unfold fresh. by rewrite Hentry. }
  rewrite cached_run, Hfresh2.
  split.
  - intros Hyoung. apply Z.ltb_lt in Hyoung. rewrite Hyoung, Hentry.
    cbn [fmap option_fmap option_map default data fst snd]. done.
  - intros Hold. apply Z.ltb_ge in Hold. rewrite Hold. unfold recompute.
    destruct (listing_sends_first kind tmdb endpoint params
                (logged (CacheMiss key) (requested args w2))) as (more & Hmore).
    exists (request_url tmdb endpoint params), more.
    destruct (listing kind tmdb endpoint params (logged (CacheMiss key) (requested args w2)))
      as [[d|e] w3]; cbn [snd] in *; exact Hmore.
Qed.

Lemma repeated_request_is_served_from_cache_witness :
  let args := mkArgs "movie" "cataloog-bp-thriller-movies" None in
  let w1 := snd (defineCatalogHandler Sample.tmdb args Sample.world) in
  let w2 := set_clock (fun t => t + Z.of_N 60000) w1 in
  fst (defineCatalogHandler Sample.tmdb args w2)
  = Ok [("metas", [meta Movie "tt0133093" (Sample.titled (Some 603) "The Matrix")])]
  /\ requests (snd (defineCatalogHandler Sample.tmdb args w2)) = requests w1.
Proof.
  intros args w1 w2.
  destruct (repeated_request_is_served_from_cache Sample.tmdb args Sample.thriller_movies
              Sample.world [meta Movie "tt0133093" (Sample.titled (Some 603) "The Matrix")]
              60000) as (_ & Hyoung & _).
  - reflexivity.
  - vm_compute. reflexivity.
  - vm_compute. discriminate.
  - destruct Hyoung as (Hreply & Hrequests & _); [vm_compute; reflexivity|].
    split; [exact Hreply|exact Hrequests].
Defined.

(** ** Pages *)

(** X7: for a skip that is a safe integer (from [-(2^53 - 1)] to
    [2^53 - 1]), the page the handler asks for is the one that holds the
    offset [skip] when pages hold 20 items: [20 * (page - 1) <= skip < 20 *
    page]; among such skips a larger one never gives a smaller page, and 20
    more give the next page. *)
Theorem page_holds_skip (v : JsVal) (skip : Z) :
  parseInt v = Some skip ->
  safe_integer skip ->
  let page := page_of (Some (mkExtra v)) in
  20 * (page - 1) <= skip < 20 * page
  /\ (forall (v' : JsVal) (skip' : Z),
        parseInt v' = Some skip' ->
        safe_integer skip' ->
        (skip <= skip' -> page <= page_of (Some (mkExtra v')))
        /\ (skip' = skip + 20 -> page_of (Some (mkExtra v')) = page + 1)).
Proof.
  intros Hv Hsafe page. subst page. rewrite (page_of_safe _ _ Hv Hsafe). split.
  - pose proof (Z.div_mod skip 20 ltac:(lia)).
    pose proof (Z.mod_pos_bound skip 20 ltac:(lia)). lia.
  - intros v' skip' Hv' Hsafe'. rewrite (page_of_safe _ _ Hv' Hsafe'). split.
    + intros Hle. pose proof (Z.div_le_mono skip skip' 20 ltac:(lia) Hle). lia.
    + intros ->. replace (skip + 20) with (skip + 1 * 20) by lia.
      rewrite Z.div_add by lia. lia.
Qed.

Lemma page_holds_skip_witness :
  20 * (page_of (Some (mkExtra (VStr "45"))) - 1) <= 45
          < 20 * page_of (Some (mkExtra (VStr "45"))).
Proof.
  apply (page_holds_skip (VStr "45") 45); [reflexivity|by vm_compute].
Defined.

(** ** The manifest and the handler *)

Lemma strip_prefix_app (pat s : string) : strip_prefix pat (pat +:+ s) = Some s.
Proof.
  induction pat as [|c pat IH]; [by destruct s|].
  rewrite String_app_cons. cbn [strip_prefix]. by rewrite Ascii.eqb_refl.
Qed.

Lemma replace_prefix (pat rep s : string) : replace pat rep (pat +:+ s) = rep +:+ s.
Proof.
  destruct (pat +:+ s) as [|c t] eqn:Heq; cbn [replace].
  - rewrite <- Heq, strip_prefix_app. done.
  - rewrite <- Heq, strip_prefix_app. done.
Qed.

Lemma assoc_of_elem {A} (key : string) (v : A) (ps : list (string * A)) :
  NoDup (ps.*1) -> (key, v) ∈ ps -> assoc key ps = Some v.
Proof.
  induction ps as [|[k x] ps IH]; intros Hnd Hin.
  - by apply elem_of_nil in Hin.
  - cbn [fmap list_fmap fst] in Hnd. apply NoDup_cons in Hnd as [Hk Hnd].
    cbn [assoc]. apply elem_of_cons in Hin as [[= <- <-]|Hin].
    + by rewrite String.eqb_refl.
    + destruct (String.eqb_spec k key) as [->|_]; [|by apply IH].
      destruct Hk. apply list_elem_of_fmap. by exists (key, v).
Qed.

Lemma CATALOGS_NoDup (tmdb : TMDBClient) : NoDup ((CATALOGS tmdb).*1).
Proof. compute_done. Qed.

Lemma CATALOGS_types (tmdb : TMDBClient) :
  Forall (fun entry : string * Catalog =>
            Index.type (snd entry) = "movie" \/ Index.type (snd entry) = "series")
         (CATALOGS tmdb).
Proof.
  unfold CATALOGS.
  repeat (apply Forall_cons_2; [cbn [snd Index.type]; by (left + right)|]).
  apply Forall_nil_2.
Qed.

(** X8: every catalogue the manifest declares is served: the handler, asked
    for the declared id, finds the catalogue the declaration was made from
    (never "unknown"), whose type and name are the declared ones; the
    declared ids are pairwise different, there are 27 of them, each declares
    the optional [skip], and every declared type is one of the types of the
    manifest. *)
Theorem declared_catalogues_are_served (tmdb : TMDBClient) (d : Declared) :
  d ∈ catalogs (manifest tmdb) ->
  (exists c : Catalog,
      (forall (extra : option Extra) (w : World),
         defineCatalogHandler tmdb (request_for d extra) w
         = dispatch c (declared_id d) (page_of extra) (requested (request_for d extra) w))
      /\ Index.type c = declared_type d
      /\ Index.name c = declared_name d)
  /\ declared_type d ∈ types (manifest tmdb)
  /\ declared_extra d = [ mkExtraDecl "skip" false ]
  /\ NoDup (declared_id <$> catalogs (manifest tmdb))
  /\ length (catalogs (manifest tmdb)) = 27%nat.
Proof.
  intros Hd. cbn [manifest catalogs] in Hd.
  apply list_elem_of_In, in_map_iff in Hd as ([id c] & <- & Hin).
  apply list_elem_of_In in Hin.
  split; [|split; [|split; [|split]]].
  - exists c. split; [|done]. intros extra w.
    rewrite (handler_registered tmdb _ c); [done|].
    unfold catalogId_of, request_for, declare. cbn [args_id declared_id fst].
    rewrite replace_prefix. apply assoc_of_elem; [apply CATALOGS_NoDup|done].
  - pose proof (CATALOGS_types tmdb) as Htypes. rewrite Forall_forall in Htypes.
    cbn [manifest types declare declared_type].
    destruct (Htypes _ Hin) as [-> | ->]; [left|right; left].
  - reflexivity.
  - compute_done.
  - reflexivity.
Qed.

Lemma declared_catalogues_are_served_witness :
  exists c : Catalog,
    Index.type c = "series"
    /\ forall (extra : option Extra) (w : World),
         defineCatalogHandler Sample.tmdb
           (mkArgs "series" "cataloog-bp-kdrama" extra) w
         = dispatch c "cataloog-bp-kdrama" (page_of extra)
             (requested (mkArgs "series" "cataloog-bp-kdrama" extra) w).
Proof.
  destruct (declared_catalogues_are_served Sample.tmdb
              (declare ("kdrama", default Sample.thriller_movies
                                    (assoc "kdrama" (CATALOGS Sample.tmdb)))))
    as ((c & Hserved & Htype & _) & _).
  - cbn [manifest catalogs]. apply list_elem_of_In, in_map. left. reflexivity.
  - exists c. split; [exact Htype|exact Hserved].
Defined.

(** ** What the caches hold *)

Lemma meta_well_formed (kind : Kind) (s : string) (r : Raw.t) :
  s <> "" -> well_formed kind (meta kind s r).
Proof. intros Hs. by destruct kind. Qed.

Lemma filter_Boolean_elem {A} (xs : list (option A)) (x : A) :
  x ∈ filter_Boolean xs -> Some x ∈ xs.
Proof.
  unfold filter_Boolean. induction xs as [|[y|] xs IH]; cbn [omap list_omap id].
  - intros H. by apply elem_of_nil in H.
  - intros [->|H]%elem_of_cons; [left|right; by apply IH].
  - intros H. right. by apply IH.
Qed.

Lemma listing_well_formed (kind : Kind) (this : TMDBClient) (endpoint : string)
    (params : list (string * JsVal)) (w : World) (metas : list Meta.t) :
  fst (listing kind this endpoint params w) = Ok metas ->
  Forall (well_formed kind) metas.
Proof.
  pose proof (listing_run kind this endpoint params w) as Hrun. cbv zeta in Hrun.
  destruct (reply_data _) as [data|e]; [|by rewrite Hrun].
  destruct (results data) as [records|]; [|by rewrite Hrun].
  destruct Hrun as (outcomes & w' & -> & Hout & _). cbn [fst]. intros [= <-].
  apply Forall_forall. intros m Hm. apply filter_Boolean_elem in Hm.
  apply list_elem_of_lookup_1 in Hm as [i Hi].
  destruct (Forall2_lookup_r _ _ _ _ _ Hout Hi) as (record & _ & Hf).
  apply formatted_meta in Hf as (Hne & _ & r & t & _ & _ & _ & _ & Hmeta).
  rewrite Hmeta. by apply meta_well_formed.
Qed.

Lemma call_fn_kind (this : TMDBClient) (l : Listing) :
  exists (endpoint : string) (params : list (string * JsVal)),
    call_fn this l = listing (call_kind l) this endpoint params.
Proof. destruct l; eexists _, _; reflexivity. Qed.

Lemma cache_sound_evolves (w w' : World) :
  evolves w w' -> cache_sound w -> cache_sound w'.
Proof.
  intros (Hc & _ & _ & Hclock & _) Hs l e. rewrite Hc. intros He.
  destruct (Hs l e He) as [Ht Hl]. split; [lia|done].
Qed.

Lemma call_sound (this : TMDBClient) (l : Listing) (w : World) :
  cache_sound w ->
  cache_sound (snd (call this l w))
  /\ forall metas : list Meta.t,
       fst (call this l w) = Ok metas -> Forall (well_formed (call_kind l)) metas.
Proof.
  intros Hs. destruct (call_is_cached this l) as [-> _].
  destruct (call_fn_kind this l) as (endpoint & params & ->).
  rewrite cached_run. destruct (fresh (call_key l) w) eqn:Hfresh.
  - cbn [fst snd]. split; [exact Hs|]. intros metas [= <-].
    unfold fresh in Hfresh.
    destruct (cache w !! call_key l) as [e|] eqn:He; [|done].
    cbn [fmap option_fmap option_map default].
    by destruct (Hs _ _ He) as [_ Hwf].
  - unfold recompute.
    pose proof (listing_evolves (call_kind l) this endpoint params
                  (logged (CacheMiss (call_key l)) w)) as Hev.
    pose proof (listing_well_formed (call_kind l) this endpoint params
                  (logged (CacheMiss (call_key l)) w)) as Hwf.
    destruct (listing _ _ _ _ _) as [[d|err] w']; cbn [fst snd] in *.
    + split; [|by intros metas [= <-]; apply Hwf].
      pose proof (cache_sound_evolves _ _ Hev Hs) as Hs'.
      intros l' e. cbn [cache set_cache clock].
      destruct (decide (call_key l' = call_key l)) as [Heq|Hne].
      * apply call_key_inj in Heq as ->.
        rewrite lookup_insert_eq. intros [= <-]. cbn [timestamp data]. split.
        -- destruct Hev as (_ & _ & _ & Hclock & _). exact Hclock.
        -- by apply Hwf.
      * rewrite lookup_insert_ne by done. apply Hs'.
    + split; [|done]. exact (cache_sound_evolves _ _ Hev Hs).
Qed.

Lemma CATALOGS_calls (tmdb : TMDBClient) :
  Forall2 (fun (entry : string * Catalog) (lp : Z -> Listing) =>
             forall page : Z,
               fetch (snd entry) page = call tmdb (lp page)
               /\ Index.type (snd entry) = kind_name (call_kind (lp page))
               /\ call_page (lp page) = page)
          (CATALOGS tmdb) catalog_calls.
Proof.
  unfold CATALOGS, catalog_calls.
  repeat (apply Forall2_cons_2; [intros page; repeat split; reflexivity|]).
  apply Forall2_nil_2.
Qed.

Lemma catalog_call (tmdb : TMDBClient) (catalogId : string) (c : Catalog) :
  assoc catalogId (CATALOGS tmdb) = Some c ->
  exists lp : Z -> Listing,
    forall page : Z,
      fetch c page = call tmdb (lp page)
      /\ Index.type c = kind_name (call_kind (lp page))
      /\ call_page (lp page) = page.
Proof.
  intros Hc. apply assoc_elem_of, list_elem_of_lookup_1 in Hc as [i Hi].
  destruct (Forall2_lookup_l _ _ _ _ _ (CATALOGS_calls tmdb) Hi) as (lp & _ & Hlp).
  by exists lp.
Qed.

Lemma CATALOGS_get_own (tmdb : TMDBClient) (catalogId : string) (c : Catalog) :
  CATALOGS_get tmdb catalogId = Own c -> assoc catalogId (CATALOGS tmdb) = Some c.
Proof.
  unfold CATALOGS_get.
  destruct (assoc catalogId (CATALOGS tmdb)); [congruence|].
  by destruct (existsb _ _).
Qed.

Lemma handler_sound (tmdb : TMDBClient) (args : Args) (w : World) :
  cache_sound w ->
  cache_sound (snd (defineCatalogHandler tmdb args w))
  /\ forall (c : Catalog) (metas : list Meta.t),
       assoc (catalogId_of args) (CATALOGS tmdb) = Some c ->
       fst (defineCatalogHandler tmdb args w) = Ok [("metas", metas)] ->
       exists kind : Kind,
         kind_name kind = Index.type c /\ Forall (well_formed kind) metas.
Proof.
  intros Hs.
  destruct (CATALOGS_get tmdb (catalogId_of args)) as [c| |] eqn:Hget.
  - apply CATALOGS_get_own in Hget.
    rewrite (handler_registered _ _ _ _ Hget). unfold dispatch.
    destruct (catalog_call tmdb _ c Hget) as (lp & Hlp).
    destruct (Hlp (page_of (args_extra args))) as (-> & Htype & _).
    destruct (call_sound tmdb (lp (page_of (args_extra args))) (requested args w) Hs)
      as [Hs' Hwf].
    destruct (call tmdb _ _) as [[results|e] w']; cbn [fst snd] in *.
    + split; [exact Hs'|]. intros c' metas Hc' [= <-].
      assert (c' = c) as -> by congruence.
      eexists. split; [symmetry; exact Htype|]. by apply Hwf.
    + split; [exact Hs'|]. intros c' metas Hc' [= <-].
      assert (c' = c) as -> by congruence.
      eexists. split; [symmetry; exact Htype|]. apply Forall_nil_2.
  - rewrite (handler_inherited _ _ _ Hget). split; [exact Hs|].
    intros c metas Hc. unfold CATALOGS_get in Hget. by rewrite Hc in Hget.
  - rewrite (handler_undefined _ _ _ Hget). split; [exact Hs|].
    intros c metas Hc. unfold CATALOGS_get in Hget. by rewrite Hc in Hget.
Qed.

Lemma run_action_sound (this : TMDBClient) (a : Action) (w : World) :
  cache_sound w -> cache_sound (run_action this a w).
Proof.
  intros Hs. destruct a as [kind t|kind record|l|[] query page|args|ms]; cbn [run_action].
  - rewrite getImdbId_run.
    destruct (imdbCache w !! imdbKey kind t); [done|].
    destruct (reply_data _); cbn [snd].
    + intros l e He. destruct (Hs l e He) as [Ht Hl]. split; [|done].
      cbn [stored received sent set_imdbCache set_clock set_requests clock]. lia.
    + exact (cache_sound_evolves _ _ (fetch_evolves _ _ w) Hs).
  - destruct (format_formatted kind this record w) as (o & w' & -> & _ & Hev).
    exact (cache_sound_evolves _ _ Hev Hs).
  - by apply call_sound.
  - exact (cache_sound_evolves _ _ (listing_evolves _ _ _ _ w) Hs).
  - exact (cache_sound_evolves _ _ (listing_evolves _ _ _ _ w) Hs).
  - by apply handler_sound.
  - intros l e He. destruct (Hs l e He) as [Ht Hl]. split; [|done].
    cbn [set_clock clock]. lia.
Qed.

Lemma run_actions_sound (this : TMDBClient) (actions : list Action) (w : World) :
  cache_sound w -> cache_sound (run_actions this actions w).
Proof.
  revert w. induction actions as [|a actions IH]; intros w Hs; [done|].
  cbn [run_actions fold_left]. apply IH. by apply run_action_sound.
Qed.

Lemma empty_cache_sound (w : World) : cache w = ∅ -> cache_sound w.
Proof. intros Hw l e. by rewrite Hw, lookup_empty. Qed.

Lemma details_key_no_call_key (kind : Kind) (id : Z) (l : Listing) :
  call_key l <> details_key kind id.
Proof.
  intros Heq. destruct kind, l; cbn [call_key details_key] in Heq;
    expose_heads Heq; discriminate Heq.
Qed.

(** X9: in a process that started with an empty response cache, whatever
    the client and the handler have been asked since, an entry of the
    response cache under the key of a call of a listing holds only metas as
    the formatter of that call builds them (its type, a non-empty id that is
    also the IMDb id, artwork addresses made of the id), and carries a
    timestamp that is not in the future.  The keys under which the detail
    methods of the client write ([movie_details_<id>], [series_details_<id>])
    are the key of no listing. *)
Theorem response_cache_holds_formatted_metas (this : TMDBClient)
    (actions : list Action) (w0 : World) (l : Listing) (e : CacheEntry) :
  cache w0 = ∅ ->
  cache (run_actions this actions w0) !! call_key l = Some e ->
  timestamp e <= clock (run_actions this actions w0)
  /\ Forall (well_formed (call_kind l)) (data e)
  /\ Forall (fun m : Meta.t => Meta.type m = kind_name (call_kind l)) (data e)
  /\ (forall (kind : Kind) (id : Z), call_key l <> details_key kind id).
Proof.
  intros Hw He.
  destruct (run_actions_sound this actions w0 (empty_cache_sound w0 Hw) l e He)
    as [Ht Hwf].
  split; [exact Ht|]. split; [exact Hwf|]. split.
  - eapply Forall_impl; [exact Hwf|]. by intros m (Htype & _).
  - intros kind id. apply details_key_no_call_key.
Qed.

Lemma response_cache_holds_formatted_metas_witness :
  Forall (well_formed Movie)
    (data (default (mkEntry [] 0)
             (cache (run_actions Sample.tmdb [Fetch (Call_PopularMovies 1)] Sample.world)
                !! "popular_movies_1"))).
Proof.
  destruct (response_cache_holds_formatted_metas Sample.tmdb [Fetch (Call_PopularMovies 1)]
              Sample.world (Call_PopularMovies 1)
              (default (mkEntry [] 0)
                 (cache (run_actions Sample.tmdb [Fetch (Call_PopularMovies 1)] Sample.world)
                    !! "popular_movies_1")))
    as (_ & Hwf & _).
  - reflexivity.
  - vm_compute. reflexivity.
  - exact Hwf.
Defined.

(** X10: in a process that started with an empty response cache, whatever
    has been asked since, the metas the handler replies with for a
    catalogue of [CATALOGS] are all of the type the catalogue declares, and
    each has a non-empty id, equal to its IMDb id, from which its poster,
    background and logo addresses are made. *)
Theorem handler_metas_have_declared_type (tmdb : TMDBClient) (actions : list Action)
    (w0 : World) (args : Args) (c : Catalog) :
  cache w0 = ∅ ->
  assoc (catalogId_of args) (CATALOGS tmdb) = Some c ->
  exists (metas : list Meta.t) (kind : Kind),
    fst (defineCatalogHandler tmdb args (run_actions tmdb actions w0))
    = Ok [("metas", metas)]
    /\ kind_name kind = Index.type c
    /\ Forall (well_formed kind) metas
    /\ Forall (fun m : Meta.t => Meta.type m = Index.type c) metas.
Proof.
  intros Hw Hc.
  pose proof (run_actions_sound tmdb actions w0 (empty_cache_sound w0 Hw)) as Hs.
  destruct (handler_replies_metas tmdb args (run_actions tmdb actions w0)) as [metas Hm].
  destruct (handler_sound tmdb args _ Hs) as [_ Hwf].
  destruct (Hwf c metas Hc Hm) as (kind & Hkind & Hall).
  exists metas, kind. split; [exact Hm|]. split; [exact Hkind|]. split; [exact Hall|].
  eapply Forall_impl; [exact Hall|]. intros m (Htype & _). by rewrite Htype.
Qed.
Lemma handler_metas_have_declared_type_witness :
  exists metas : list Meta.t,
    fst (defineCatalogHandler Sample.tmdb
           (mkArgs "movie" "cataloog-bp-thriller-movies" None)
           (run_actions Sample.tmdb [Fetch (Call_PopularMovies 1); Wait 5] Sample.world))
    = Ok [("metas", metas)]
    /\ Forall (fun m : Meta.t => Meta.type m = "movie") metas.
Proof.
  destruct (handler_metas_have_declared_type Sample.tmdb
              [Fetch (Call_PopularMovies 1); Wait 5] Sample.world
              (mkArgs "movie" "cataloog-bp-thriller-movies" None)
              Sample.thriller_movies)
    as (metas & kind & Hreply & _ & _ & Htype).
  - reflexivity.
  - reflexivity.
  - exists metas. split; [exact Hreply|exact Htype].
Defined.

(** ** What [imdbCache] holds *)

Lemma keeps_ret {A} (a : A) : keeps_imdb_sound (ret a).
Proof. by intros w. Qed.

Lemma keeps_throw {A} (e : Error) : keeps_imdb_sound (@throw A e).
Proof. by intros w. Qed.

Lemma keeps_bind {A B} (m : M A) (k : A -> M B) :
  keeps_imdb_sound m -> (forall a, keeps_imdb_sound (k a)) -> keeps_imdb_sound (bind m k).
Proof.
  intros Hm Hk w Hw. unfold bind. specialize (Hm w Hw).
  destruct (m w) as [[a|e] w']; cbn [snd] in *; [by apply Hk|done].
Qed.

Lemma keeps_mapM {A B} (g : A -> M B) (xs : list A) :
  (forall x, keeps_imdb_sound (g x)) -> keeps_imdb_sound (mapM g xs).
Proof.
  intros Hg. induction xs as [|x xs IH]; cbn [mapM]; [apply keeps_ret|].
  apply keeps_bind; [apply Hg|]. intros y.
  apply keeps_bind; [apply IH|]. intros ys. apply keeps_ret.
Qed.

Lemma keeps_getImdbId_begin (kind : Kind) (this : TMDBClient) (tmdbId : Z) :
  keeps_imdb_sound (getImdbId_begin kind this tmdbId).
Proof.
  intros w Hw. rewrite getImdbId_begin_run.
  by destruct (imdbCache w !! imdbKey kind tmdbId).
Qed.

Lemma imdbId_of_not_empty (data : Data) : imdbId_of data <> Some "".
Proof. unfold imdbId_of. by destruct (imdb_id data) as [[|c s]|]. Qed.

Lemma keeps_getImdbId_end (kind : Kind) (tmdbId : Z) (l : Lookup) :
  keeps_imdb_sound (getImdbId_end kind tmdbId l).
Proof.
  intros w Hw. destruct l as [v|ticket url]; [done|].
  rewrite getImdbId_end_run. destruct (reply_data _) as [data|e]; cbn [snd]; [|done].
  intros key v. cbn [stored set_imdbCache imdbCache received set_clock].
  destruct (decide (key = imdbKey kind tmdbId)) as [->|Hne].
  - rewrite lookup_insert_eq. intros [= <-]. split; [apply imdbId_of_not_empty|].
    by exists kind, tmdbId.
  - rewrite lookup_insert_ne by done. apply Hw.
Qed.

Lemma keeps_format_begin (kind : Kind) (this : TMDBClient) (record : option Raw.t) :
  keeps_imdb_sound (format_begin kind this record).
Proof.
  unfold format_begin. destruct record as [r|]; [|apply keeps_ret].
  destruct (Raw.id r) as [tmdbId|]; [|apply keeps_ret].
  destruct (tmdbId =? 0); [apply keeps_ret|].
  apply keeps_bind; [apply keeps_getImdbId_begin|]. intros l. apply keeps_ret.
Qed.

Lemma keeps_format_end (kind : Kind) (f : Formatting) :
  keeps_imdb_sound (format_end kind f).
Proof.
  unfold format_end. destruct f as [|r tmdbId l]; [apply keeps_ret|].
  apply keeps_bind; [apply keeps_getImdbId_end|].
  intros [s|]; [|apply keeps_ret]. destruct (truthy_str (Some s)); apply keeps_ret.
Qed.

Lemma keeps_listing (kind : Kind) (this : TMDBClient) (endpoint : string)
    (params : list (string * JsVal)) :
  keeps_imdb_sound (listing kind this endpoint params).
Proof.
  unfold listing. apply keeps_bind; [by intros w Hw|]. intros data.
  destruct (results data) as [records|]; [|apply keeps_throw].
  apply keeps_bind; [|intros results; apply keeps_ret].
  unfold Promise_all_map.
  apply keeps_bind; [apply keeps_mapM, keeps_format_begin|].
  intros pending. apply keeps_mapM, keeps_format_end.
Qed.

Lemma keeps_call (this : TMDBClient) (l : Listing) : keeps_imdb_sound (call this l).
Proof.
  intros w Hw. destruct (call_is_cached this l) as (-> & kind & endpoint & params & ->).
  rewrite cached_run. destruct (fresh _ w); [done|]. unfold recompute.
  pose proof (keeps_listing kind this endpoint params (logged (CacheMiss (call_key l)) w) Hw)
    as Hk.
  by destruct (listing _ _ _ _ _) as [[d|e] w'].
Qed.

Lemma keeps_handler (tmdb : TMDBClient) (args : Args) :
  keeps_imdb_sound (defineCatalogHandler tmdb args).
Proof.
  intros w Hw.
  destruct (CATALOGS_get tmdb (catalogId_of args)) as [c| |] eqn:Hget.
  - apply CATALOGS_get_own in Hget.
    rewrite (handler_registered _ _ _ _ Hget). unfold dispatch.
    destruct (catalog_call tmdb _ c Hget) as (lp & Hlp).
    destruct (Hlp (page_of (args_extra args))) as (-> & _).
    pose proof (keeps_call tmdb (lp (page_of (args_extra args))) (requested args w) Hw) as Hk.
    by destruct (call tmdb _ _) as [[results|e] w'].
  - by rewrite (handler_inherited _ _ _ Hget).
  - by rewrite (handler_undefined _ _ _ Hget).
Qed.

Lemma run_action_imdb_sound (this : TMDBClient) (a : Action) (w : World) :
  imdb_sound w -> imdb_sound (run_action this a w).
Proof.
  intros Hw. destruct a as [kind t|kind record|l|[] query page|args|ms]; cbn [run_action].
  - revert w Hw. apply keeps_bind; [apply keeps_getImdbId_begin|].
    intros l. apply keeps_getImdbId_end.
  - revert w Hw. apply keeps_bind; [apply keeps_format_begin|].
    intros f. apply keeps_format_end.
  - by apply keeps_call.
  - by apply keeps_listing.
  - by apply keeps_listing.
  - by apply keeps_handler.
  - done.
Qed.

Lemma run_actions_imdb_sound (this : TMDBClient) (actions : list Action) (w : World) :
  imdb_sound w -> imdb_sound (run_actions this actions w).
Proof.
  revert w. induction actions as [|a actions IH]; intros w Hw; [done|].
  cbn [run_actions fold_left]. apply IH. by apply run_action_imdb_sound.
Qed.

(** X11: in a process whose client started with an empty [imdbCache],
    whatever has been asked since, every entry of [imdbCache] is under the
    key of a title ([movie_<id>] or [series_<id>]) and holds [null] or a
    non-empty id: an upstream [imdb_id] that is the empty string is
    remembered as [null], and asking for that title again answers [null]
    without a request. *)
Theorem imdbCache_holds_null_or_an_id (this : TMDBClient) (actions : list Action)
    (w0 : World) (key : string) (v : option string) :
  imdbCache w0 = ∅ ->
  imdbCache (run_actions this actions w0) !! key = Some v ->
  v <> Some ""
  /\ exists (kind : Kind) (tmdbId : Z),
       key = imdbKey kind tmdbId
       /\ getImdbId kind this tmdbId (run_actions this actions w0)
          = (Ok v, run_actions this actions w0)
       /\ (v = None ->
           forall r : Raw.t,
             Raw.id r = Some tmdbId ->
             format kind this (Some r) (run_actions this actions w0)
             = (Ok None, run_actions this actions w0)).
Proof.
  intros Hw Hv.
  assert (Hs : imdb_sound w0) by (intros k x; by rewrite Hw, lookup_empty).
  destruct (run_actions_imdb_sound this actions w0 Hs key v Hv)
    as (Hne & kind & tmdbId & ->).
  split; [exact Hne|]. exists kind, tmdbId. split; [done|].
  set (w := run_actions this actions w0) in *.
  split; [by rewrite getImdbId_run, Hv|].
  intros -> r Hid. unfold format, format_begin, bind. rewrite Hid.
  destruct (tmdbId =? 0); [reflexivity|].
  rewrite getImdbId_begin_run, Hv. reflexivity.
Qed.

Lemma imdbCache_holds_null_or_an_id_witness :
  exists (kind : Kind) (tmdbId : Z),
    "movie_603" = imdbKey kind tmdbId
    /\ getImdbId kind Sample.tmdb tmdbId
         (run_actions Sample.tmdb [Resolve Movie 603] Sample.world)
       = (Ok (Some "tt0133093"), run_actions Sample.tmdb [Resolve Movie 603] Sample.world).
Proof.
  destruct (imdbCache_holds_null_or_an_id Sample.tmdb [Resolve Movie 603] Sample.world
              "movie_603" (Some "tt0133093")) as (_ & kind & tmdbId & Hkey & Hagain & _).
  - reflexivity.
  - vm_compute. reflexivity.
  - exists kind, tmdbId. split; [exact Hkey|exact Hagain].
Defined.

(** ** The names of the parameters of a request *)

Lemma searchParams_set_names (key value : string) (ps : list (string * string)) :
  NoDup (ps.*1) ->
  (searchParams_set key value ps).*1
  = if bool_decide (key ∈ ps.*1) then ps.*1 else ps.*1 ++ [key].
Proof.
  induction ps as [|[k v] ps IH]; intros Hnd; [reflexivity|].
  cbn [fmap list_fmap fst] in Hnd. apply NoDup_cons in Hnd as [Hk Hnd].
  cbn [searchParams_set]. destruct (String.eqb_spec k key) as [->|Hne].
  - cbn [fmap list_fmap fst]. rewrite bool_decide_eq_true_2 by left. f_equal.
    clear IH Hnd. induction ps as [|[k' v'] ps IH]; [reflexivity|].
    cbn [fmap list_fmap fst] in Hk. apply not_elem_of_cons in Hk as [Hk' Hk].
    cbn [List.filter fst]. destruct (String.eqb_spec k' key) as [->|_]; [done|].
    cbn [negb fmap list_fmap fst]. f_equal. by apply IH.
  - cbn [fmap list_fmap fst]. rewrite (IH Hnd).
    destruct (decide (key ∈ ps.*1)) as [Hin|Hout].
    + rewrite !bool_decide_eq_true_2; [done|by right|done].
    + rewrite !bool_decide_eq_false_2; [done| |done].
      intros [?|?]%elem_of_cons; congruence.
Qed.

Lemma set_params_names (params : list (string * JsVal)) (url : Url) :
  NoDup (parameter_names url) ->
  NoDup (parameter_names (set_params params url))
  /\ (exists more : list string,
        parameter_names (set_params params url) = parameter_names url ++ more
        /\ (length more <= length params)%nat)
  /\ (forall k : string,
        k ∈ parameter_names (set_params params url)
        <-> k ∈ parameter_names url
            \/ exists v : JsVal, (k, v) ∈ params /\ is_nullish v = false).
Proof.
  revert url. induction params as [|[key value] params IH]; intros url Hnd.
  - split; [done|]. split; [exists []; by rewrite app_nil_r|].
    intros k. split; [by left|]. intros [?|(v & Hv & _)]; [done|].
    by apply elem_of_nil in Hv.
  - unfold set_params. cbn [fold_left].
    set (url1 := if negb (is_nullish value) then url_set key (to_string value) url else url).
    fold (set_params params url1).
    assert (Hstep : NoDup (parameter_names url1)
              /\ (exists more1 : list string,
                    parameter_names url1 = parameter_names url ++ more1
                    /\ (length more1 <= 1)%nat)
              /\ (forall k : string,
                    k ∈ parameter_names url1
                    <-> k ∈ parameter_names url \/ (k = key /\ is_nullish value = false))).
    { subst url1. destruct (is_nullish value); cbn [negb].
      - split; [done|]. split; [exists []; split; [by rewrite app_nil_r|cbn [length]; lia]|].
        intros k. split; [by left|]. by intros [?|[_ ?]].
      - unfold parameter_names in *. cbn [url_set searchParams].
        rewrite searchParams_set_names by done.
        destruct (decide (key ∈ (searchParams url).*1)) as [Hin|Hout].
        + rewrite bool_decide_eq_true_2 by done.
          split; [done|]. split; [exists []; split; [by rewrite app_nil_r|cbn [length]; lia]|].
          intros k. split; [by left|]. by intros [?|[-> _]].
        + rewrite bool_decide_eq_false_2 by done.
          split.
          { apply NoDup_app. split; [done|]. split; [|apply NoDup_singleton].
            intros x Hx ->%list_elem_of_singleton. done. }
          split; [exists [key]; split; [done|cbn [length]; lia]|].
          intros k. rewrite elem_of_app, list_elem_of_singleton. by split; intros [?|?]; [left|right|left|right; tauto]. }
    destruct Hstep as (Hnd1 & (more1 & Hmore1 & Hlen1) & Hin1).
    destruct (IH url1 Hnd1) as (Hnd2 & (more & Hmore & Hlen) & Hin2).
    split; [done|]. split.
    + exists (more1 ++ more). rewrite Hmore, Hmore1, <- app_assoc. split; [done|].
      rewrite length_app. cbn [length]. lia.
    + intros k. rewrite Hin2, Hin1. split.
      * intros [[?|[-> Hv]]|(v & Hv & Hn)]; [by left| |].
        -- right. exists value. split; [left|done].
        -- right. exists v. split; [by right|done].
      * intros [?|(v & Hv & Hn)]; [by left; left|].
        apply elem_of_cons in Hv as [[= -> ->]|Hv]; [left; by right|].
        right. by exists v.
Qed.

(** X12: whatever parameter object a caller passes (also one that names
    [api_key] or [language] itself), the request URL holds no parameter
    twice; [api_key] is its first parameter and [language] its second; its
    parameters are those two and the ones the caller states with a value
    that is neither [undefined] nor [null]; there are at most two more of
    them than properties in the object. *)
Theorem request_url_names_each_parameter_once (this : TMDBClient) (endpoint : string)
    (params : list (string * JsVal)) :
  let names := parameter_names (request_url this endpoint params) in
  NoDup names
  /\ (exists rest : list string, names = "api_key" :: "language" :: rest)
  /\ (forall k : string,
        k ∈ names
        <-> k = "api_key" \/ k = "language"
            \/ exists v : JsVal, (k, v) ∈ params /\ is_nullish v = false)
  /\ (length names <= 2 + length params)%nat.
Proof.
  intros names. subst names. unfold request_url.
  set (url := url_set "language" _ _).
  assert (Hurl : parameter_names url = ["api_key"; "language"]) by reflexivity.
  destruct (set_params_names params url) as (Hnd & (more & Hmore & Hlen) & Hin).
  { rewrite Hurl. compute_done. }
  rewrite Hurl in *. split; [done|]. split; [by exists more; rewrite Hmore|].
  split.
  - intros k. rewrite Hin. rewrite !elem_of_cons, elem_of_nil. tauto.
  - rewrite Hmore. cbn [length app]. lia.
Qed.
(** ** From the handler to the upstream *)

Lemma call_fn_page (this : TMDBClient) (l : Listing) :
  exists (endpoint : string) (params : list (string * JsVal)),
    call_fn this l = listing (call_kind l) this endpoint params
    /\ supplied "page" params = Some (VNum (call_page l))
    /\ supplied "api_key" params = None
    /\ supplied "language" params = None.
Proof. destruct l; eexists _, _; repeat split; reflexivity. Qed.

(** X13: for a catalogue of [CATALOGS] and a skip that is a safe integer
    (or absent, or not numeric), the handler calls one listing of the client
    with the page [floor(skip / 20) + 1].  If the response cache holds a
    fresh entry for that call nothing is sent; otherwise the first request
    sent is for that page ([page] is its decimal rendering), with the key and
    the locale of the client, and the further requests are the lookups of
    external ids for the records of the page that the upstream returns to
    that first request, those whose id [imdbCache] does not hold, in the
    order of the page. *)
Theorem handler_asks_for_its_page (tmdb : TMDBClient) (args : Args) (c : Catalog)
    (w : World) :
  assoc (catalogId_of args) (CATALOGS tmdb) = Some c ->
  safe_integer (or_zero (parseInt (extra_skip (args_extra args)))) ->
  let skip := or_zero (parseInt (extra_skip (args_extra args))) in
  let page := page_of (args_extra args) in
  let w1 := snd (defineCatalogHandler tmdb args w) in
  page = skip / 20 + 1
  /\ exists l : Listing,
       fetch c page = call tmdb l
       /\ call_page l = page
       /\ (fresh (call_key l) w = true -> requests w1 = requests w)
       /\ (fresh (call_key l) w = false ->
           exists url : Url,
             let reply := response (upstream w (length (requests w)) url) in
             let records := default [] (page_of_reply reply) in
             requests w1
             = requests w ++ url :: lookups (call_kind l) tmdb (imdbCache w) records
             /\ searchParams_get "page" (searchParams url) = Some (pretty (skip / 20 + 1))
             /\ searchParams_get "api_key" (searchParams url) = Some (apiKey tmdb)
             /\ searchParams_get "language" (searchParams url) = Some (language tmdb)).
Proof.
  intros Hc Hsafe skip page w1. subst w1.
  destruct (page_of_skip_safe (args_extra args) Hsafe) as [Hpage_eq _].
  fold skip page in Hpage_eq. split; [exact Hpage_eq|]. rewrite <- Hpage_eq.
  destruct (catalog_call tmdb _ c Hc) as (lp & Hlp).
  destruct (Hlp page) as (Hfetch & _ & Hpage).
  exists (lp page). split; [done|]. split; [done|].
  rewrite (handler_registered _ _ _ _ Hc). unfold dispatch. fold page. rewrite Hfetch.
  destruct (call_is_cached tmdb (lp page)) as [-> _].
  destruct (call_fn_page tmdb (lp page)) as (endpoint & params & -> & Hp & Hk & Hl).
  rewrite cached_run.
  change (fresh (call_key (lp page)) (requested args w)) with (fresh (call_key (lp page)) w).
  destruct (fresh (call_key (lp page)) w); (split; [intros Hf|intros Hf]); try done.
  unfold recompute.
  pose proof (listing_requests (call_kind (lp page)) tmdb endpoint params
                (logged (CacheMiss (call_key (lp page))) (requested args w))) as Hreq.
  cbv zeta in Hreq.
  cbn [logged requested set_console requests imdbCache upstream] in Hreq.
  exists (request_url tmdb endpoint params). cbv zeta. split.
  - destruct (listing _ _ _ _ _) as [[d|e] w']; cbn [snd] in *; exact Hreq.
  - rewrite !request_url_get, Hp, Hk, Hl, Hpage. done.
Qed.

Lemma handler_asks_for_its_page_witness :
  exists (url : Url) (l : Listing),
    requests (snd (defineCatalogHandler Sample.tmdb
                     (mkArgs "movie" "cataloog-bp-thriller-movies" (Some (mkExtra (VStr "40"))))
                     Sample.world))
    = url :: lookups (call_kind l) Sample.tmdb ∅
               (default [] (page_of_reply (response (Sample.upstream 0 url))))
    /\ searchParams_get "page" (searchParams url) = Some "3".
Proof.
  destruct (handler_asks_for_its_page Sample.tmdb
              (mkArgs "movie" "cataloog-bp-thriller-movies" (Some (mkExtra (VStr "40"))))
              Sample.thriller_movies Sample.world)
    as (_ & l & _ & _ & _ & Hmiss).
  - reflexivity.
  - by vm_compute.
  - destruct Hmiss as (url & Hreq & Hpage & _).
    + unfold fresh. cbn [Sample.world cache]. by rewrite lookup_empty.
    + exists url, l. split; [exact Hreq|exact Hpage].
Defined.

(** ** What the handler logs *)

Lemma listing_console (kind : Kind) (this : TMDBClient) (endpoint : string)
    (params : list (string * JsVal)) (w : World) :
  console (snd (listing kind this endpoint params w)) = console w.
Proof. apply listing_evolves. Qed.

(** X14: a request logs exactly three lines for a catalogue of [CATALOGS]:
    the request, the hit or the miss of the response cache for the key of
    the call, and the number of metas of the reply with the name of the
    catalogue, or the error of the fetch; it logs two lines for any other
    id: the request, and that the catalogue is unknown, or, for a member of
    [Object.prototype], the [TypeError].  The client logs nothing else: its
    requests, the formatter and the resolver are silent. *)
Theorem handler_logs (tmdb : TMDBClient) (args : Args) (w : World) :
  let run := defineCatalogHandler tmdb args w in
  let asked := CatalogRequested (args_id args) (args_type args) in
  match CATALOGS_get tmdb (catalogId_of args) with
  | Own c =>
      exists (l : Listing) (metas : list Meta.t),
        fetch c (page_of (args_extra args)) = call tmdb l
        /\ fst run = Ok [("metas", metas)]
        /\ console (snd run)
           = console w
             ++ [ asked; cache_line (call_key l) w;
                  match fst (call tmdb l (requested args w)) with
                  | Ok results => CatalogResults (length results) (name c)
                  | Thrown e => CatalogError (args_id args) e
                  end ]
        /\ (forall results : list Meta.t,
              fst (call tmdb l (requested args w)) = Ok results -> metas = results)
  | Inherited =>
      console (snd run) = console w ++ [ asked; CatalogError (args_id args) TypeError ]
  | Undefined =>
      console (snd run) = console w ++ [ asked; CatalogUnknown (catalogId_of args) ]
  end.
Proof.
  intros run asked. subst run asked.
  destruct (CATALOGS_get tmdb (catalogId_of args)) as [c| |] eqn:Hget.
  - apply CATALOGS_get_own in Hget.
    destruct (catalog_call tmdb _ c Hget) as (lp & Hlp).
    destruct (Hlp (page_of (args_extra args))) as (Hfetch & _).
    set (l := lp (page_of (args_extra args))) in *.
    rewrite (handler_registered _ _ _ _ Hget). unfold dispatch. rewrite Hfetch.
    assert (Hconsole : console (snd (call tmdb l (requested args w)))
                       = console w ++ [CatalogRequested (args_id args) (args_type args);
                                       cache_line (call_key l) w]).
    { destruct (call_is_cached tmdb l) as (-> & kind & endpoint & params & ->).
      rewrite cached_run. unfold cache_line.
      change (fresh (call_key l) (requested args w)) with (fresh (call_key l) w).
      destruct (fresh (call_key l) w).
      - cbn [snd logged requested set_console console]. by rewrite <- app_assoc.
      - unfold recompute.
        pose proof (listing_console kind tmdb endpoint params
                      (logged (CacheMiss (call_key l)) (requested args w))) as Hquiet.
        destruct (listing _ _ _ _ _) as [[d|e] w']; cbn [snd set_cache console] in *;
          rewrite Hquiet; cbn [logged requested set_console console];
          by rewrite <- app_assoc. }
    destruct (call tmdb l (requested args w)) as [[results|e] w'] eqn:Hcall;
      cbn [fst snd set_console console] in *.
    + exists l, results. rewrite Hcall. cbn [fst].
      split; [done|]. split; [done|]. split; [|intros ? ?; congruence].
      rewrite Hconsole, <- app_assoc. done.
    + exists l, []. rewrite Hcall. cbn [fst].
      split; [done|]. split; [done|]. split; [|done].
      rewrite Hconsole, <- app_assoc. done.
  - by rewrite (handler_inherited _ _ _ Hget); cbn; rewrite <- app_assoc.
  - by rewrite (handler_undefined _ _ _ Hget); cbn; rewrite <- app_assoc.
Qed.

(** ** The prefix of a catalogue id *)

Lemma CATALOGS_bare_keys (tmdb : TMDBClient) :
  Forall (fun entry : string * Catalog =>
            replace "cataloog-bp-" "" (fst entry) = fst entry
            /\ CATALOGS_get tmdb ("cataloog-bp-" +:+ fst entry) = Undefined)
         (CATALOGS tmdb).
Proof.
  unfold CATALOGS.
  repeat (apply Forall_cons_2; [split; reflexivity|]).
  apply Forall_nil_2.
Qed.

(** X15: the handler removes the first [cataloog-bp-] of the id and nothing
    more.  A request whose id is the bare key of a catalogue of [CATALOGS],
    without the prefix, is served like the declared id, whatever its [type];
    a request whose id carries the prefix twice is answered as an unknown
    catalogue, with [{ metas: [] }] and no upstream request. *)
Theorem prefix_is_removed_once (tmdb : TMDBClient) (key type : string) (c : Catalog)
    (extra : option Extra) (w : World) :
  (key, c) ∈ CATALOGS tmdb ->
  let bare := mkArgs type key extra in
  let twice := mkArgs type ("cataloog-bp-" +:+ "cataloog-bp-" +:+ key) extra in
  defineCatalogHandler tmdb bare w
  = dispatch c key (page_of extra) (requested bare w)
  /\ defineCatalogHandler tmdb twice w
     = (Ok [("metas", [])], logged (CatalogUnknown ("cataloog-bp-" +:+ key)) (requested twice w))
  /\ requests (snd (defineCatalogHandler tmdb twice w)) = requests w.
Proof.
  intros Hin bare twice.
  pose proof (CATALOGS_bare_keys tmdb) as Hall. rewrite Forall_forall in Hall.
  destruct (Hall _ Hin) as [Hbare Htwice]. cbn [fst] in *.
  assert (Hunknown : defineCatalogHandler tmdb twice w
            = (Ok [("metas", [])],
               logged (CatalogUnknown ("cataloog-bp-" +:+ key)) (requested twice w))).
  { rewrite handler_undefined.
    - unfold catalogId_of, twice. cbn [args_id]. by rewrite replace_prefix.
    - unfold catalogId_of, twice. cbn [args_id]. by rewrite replace_prefix. }
  split; [|split; [exact Hunknown|by rewrite Hunknown]].
  rewrite (handler_registered tmdb bare c); [done|].
  unfold catalogId_of, bare. cbn [args_id]. rewrite Hbare.
  apply assoc_of_elem; [apply CATALOGS_NoDup|done].
Qed.

Lemma prefix_is_removed_once_witness :
  defineCatalogHandler Sample.tmdb (mkArgs "series" "thriller-movies" None) Sample.world
  = dispatch Sample.thriller_movies "thriller-movies" 1
      (requested (mkArgs "series" "thriller-movies" None) Sample.world).
Proof.
  destruct (prefix_is_removed_once Sample.tmdb "thriller-movies" "series"
              Sample.thriller_movies None Sample.world) as (Hbare & _).
  - apply assoc_elem_of. reflexivity.
  - exact Hbare.
Defined.

(** ** Endpoints and formatters *)

Lemma call_fn_medium (this : TMDBClient) (l : Listing) :
  exists (endpoint : string) (params : list (string * JsVal)),
    call_fn this l = listing (call_kind l) this endpoint params
    /\ medium endpoint = Some (call_kind l).
Proof. destruct l; eexists _, _; split; reflexivity. Qed.

(** X16: every listing of the client, and both searches, hand the records
    of an endpoint about movies to the movie formatter and those of an
    endpoint about series to the series formatter, and each formatter looks
    the external ids up at the endpoint of its own medium: a record is never
    formatted, nor its id resolved, as the other medium. *)
Theorem records_are_formatted_as_their_medium (this : TMDBClient) :
  (forall l : Listing,
      exists (endpoint : string) (params : list (string * JsVal)),
        call this l = cached (call_key l) (listing (call_kind l) this endpoint params)
        /\ medium endpoint = Some (call_kind l))
  /\ (forall (kind : Kind) (query : string) (page : Z),
        exists params : list (string * JsVal),
          search kind this query page = listing kind this (search_endpoint kind) params
          /\ medium (search_endpoint kind) = Some kind)
  /\ (forall (kind : Kind) (tmdbId : Z),
        medium (external_ids kind tmdbId) = Some kind
        /\ href (lookup_url kind this tmdbId) = TMDB_BASE_URL +:+ external_ids kind tmdbId).
Proof.
  split; [|split].
  - intros l. destruct (call_is_cached this l) as [-> _].
    destruct (call_fn_medium this l) as (endpoint & params & -> & Hm).
    by exists endpoint, params.
  - intros [] query page; eexists; split; reflexivity.
  - intros [] tmdbId; split; reflexivity.
Qed.

(** ** What only grows *)

Lemma grows_refl (w : World) : grows w w.
Proof.
  split; [exists []; by rewrite app_nil_r|].
  split; [exists []; by rewrite app_nil_r|]. by split; [lia|].
Qed.

Lemma grows_trans (w1 w2 w3 : World) : grows w1 w2 -> grows w2 w3 -> grows w1 w3.
Proof.
  intros ([m1 Hr1] & [l1 Hl1] & Hc1 & Hu1 & Hk1) ([m2 Hr2] & [l2 Hl2] & Hc2 & Hu2 & Hk2).
  split; [exists (m1 ++ m2); by rewrite Hr2, Hr1, <- app_assoc|].
  split; [exists (l1 ++ l2); by rewrite Hl2, Hl1, <- app_assoc|].
  split; [lia|]. split; [congruence|]. intros key Hk. by apply Hk2, Hk1.
Qed.

Lemma evolves_grows (w w' : World) : evolves w w' -> grows w w'.
Proof.
  intros (Hc & Hl & Hu & Ht & _ & Hr).
  split; [done|]. split; [exists []; by rewrite app_nil_r|].
  split; [done|]. split; [done|]. intros key. by rewrite Hc.
Qed.

Lemma logged_grows (line : LogLine) (w : World) : grows w (logged line w).
Proof.
  split; [exists []; by rewrite app_nil_r|].
  split; [by exists [line]|]. by split; [cbn; lia|].
Qed.

Lemma call_grows (this : TMDBClient) (l : Listing) (w : World) :
  grows w (snd (call this l w)).
Proof.
  destruct (call_is_cached this l) as (-> & kind & endpoint & params & ->).
  rewrite cached_run. destruct (fresh (call_key l) w); [apply logged_grows|].
  unfold recompute.
  pose proof (listing_evolves kind this endpoint params (logged (CacheMiss (call_key l)) w))
    as Hev.
  apply evolves_grows in Hev.
  pose proof (grows_trans _ _ _ (logged_grows (CacheMiss (call_key l)) w) Hev) as Hg.
  destruct (listing _ _ _ _ _) as [[d|e] w']; cbn [snd] in *; [|done].
  destruct Hg as (Hr & Hl & Ht & Hu & Hk).
  split; [done|]. split; [done|]. split; [done|]. split; [done|].
  intros key Hkey. cbn [set_cache cache].
  destruct (decide (key = call_key l)) as [->|Hne].
  - rewrite lookup_insert_eq. eauto.
  - rewrite lookup_insert_ne by done. by apply Hk.
Qed.

Lemma handler_grows (tmdb : TMDBClient) (args : Args) (w : World) :
  grows w (snd (defineCatalogHandler tmdb args w)).
Proof.
  assert (Hreq : grows w (requested args w)) by apply logged_grows.
  destruct (CATALOGS_get tmdb (catalogId_of args)) as [c| |] eqn:Hget.
  - apply CATALOGS_get_own in Hget.
    rewrite (handler_registered _ _ _ _ Hget). unfold dispatch.
    destruct (catalog_call tmdb _ c Hget) as (lp & Hlp).
    destruct (Hlp (page_of (args_extra args))) as (-> & _).
    pose proof (call_grows tmdb (lp (page_of (args_extra args))) (requested args w)) as Hg.
    destruct (call tmdb _ _) as [[results|e] w']; cbn [snd] in *;
      (eapply grows_trans; [exact Hreq|]); (eapply grows_trans; [exact Hg|]);
      apply logged_grows.
  - rewrite (handler_inherited _ _ _ Hget). cbn [snd].
    eapply grows_trans; [exact Hreq|]. apply logged_grows.
  - rewrite (handler_undefined _ _ _ Hget). cbn [snd].
    eapply grows_trans; [exact Hreq|]. apply logged_grows.
Qed.

Lemma run_action_grows (this : TMDBClient) (a : Action) (w : World) :
  grows w (run_action this a w).
Proof.
  destruct a as [kind t|kind record|l|[] query page|args|ms]; cbn [run_action].
  - rewrite getImdbId_run.
    destruct (imdbCache w !! imdbKey kind t); [apply grows_refl|].
    destruct (reply_data _); cbn [snd].
    + pose proof (evolves_grows _ _ (fetch_evolves (length (requests w))
                                       (lookup_url kind this t) w)) as Hg.
      exact Hg.
    + apply evolves_grows, fetch_evolves.
  - destruct (format_formatted kind this record w) as (o & w' & -> & _ & Hev).
    by apply evolves_grows.
  - apply call_grows.
  - apply evolves_grows, listing_evolves.
  - apply evolves_grows, listing_evolves.
  - apply handler_grows.
  - split; [exists []; by rewrite app_nil_r|].
    split; [exists []; by rewrite app_nil_r|]. by split; [cbn; lia|].
Qed.

(** X17: whatever the client and the handler are asked, nothing is ever
    taken back: the requests sent and the lines logged so far stay, in
    order, at the head of the later ones; the clock does not go back; the
    upstream is not changed; no key of the response cache is ever deleted
    (an entry is only replaced by a newer one), and a request only appends
    log lines and requests, those of the handler beginning with the line of
    the request. *)
Theorem history_only_grows (this : TMDBClient) (actions : list Action) (w : World) :
  let w' := run_actions this actions w in
  (exists more : list Url, requests w' = requests w ++ more)
  /\ (exists lines : list LogLine, console w' = console w ++ lines)
  /\ clock w <= clock w'
  /\ upstream w' = upstream w
  /\ (forall key : string, is_Some (cache w !! key) -> is_Some (cache w' !! key))
  /\ (forall args : Args,
        exists lines : list LogLine,
          console (snd (defineCatalogHandler this args w'))
          = console w' ++ CatalogRequested (args_id args) (args_type args) :: lines).
Proof.
  intros w'. subst w'.
  assert (Hg : grows w (run_actions this actions w)).
  { revert w. induction actions as [|a actions IH]; intros w; [apply grows_refl|].
    cbn [run_actions fold_left].
    eapply grows_trans; [apply (run_action_grows this a)|apply IH]. }
  destruct Hg as (Hr & Hl & Ht & Hu & Hk).
  split; [done|]. split; [done|]. split; [done|]. split; [done|]. split; [done|].
  intros args. set (w' := run_actions this actions w).
  assert (Hfrom : forall w1 : World,
            grows (requested args w') w1 ->
            exists lines : list LogLine,
              console w1
              = console w' ++ CatalogRequested (args_id args) (args_type args) :: lines).
  { intros w1 (_ & [lines Hlines] & _). exists lines. rewrite Hlines.
    cbn [requested set_console console]. by rewrite <- app_assoc. }
  apply Hfrom.
  destruct (CATALOGS_get this (catalogId_of args)) as [c| |] eqn:Hget.
  - apply CATALOGS_get_own in Hget.
    rewrite (handler_registered _ _ _ _ Hget). unfold dispatch.
    destruct (catalog_call this _ c Hget) as (lp & Hlp).
    destruct (Hlp (page_of (args_extra args))) as (-> & _).
    pose proof (call_grows this (lp (page_of (args_extra args))) (requested args w')) as Hg.
    destruct (call this _ _) as [[results|e] w1]; cbn [snd] in *;
      (eapply grows_trans; [exact Hg|]); apply logged_grows.
  - rewrite (handler_inherited _ _ _ Hget). apply logged_grows.
  - rewrite (handler_undefined _ _ _ Hget). apply logged_grows.
Qed.

(** ** The client is silent *)

Lemma quiet_ret {A} (a : A) : console_blind (ret a).
Proof. by intros f w. Qed.

Lemma quiet_throw {A} (e : Error) : console_blind (@throw A e).
Proof. by intros f w. Qed.

Lemma quiet_bind {A B} (m : M A) (k : A -> M B) :
  console_blind m -> (forall a, console_blind (k a)) -> console_blind (bind m k).
Proof.
  intros Hm Hk f w. unfold bind. rewrite Hm.
  destruct (m w) as [[a|e] w']; cbn [fst snd]; [apply Hk|done].
Qed.

Lemma quiet_mapM {A B} (g : A -> M B) (xs : list A) :
  (forall x, console_blind (g x)) -> console_blind (mapM g xs).
Proof.
  intros Hg. induction xs as [|x xs IH]; cbn [mapM]; [apply quiet_ret|].
  apply quiet_bind; [apply Hg|]. intros y.
  apply quiet_bind; [apply IH|]. intros ys. apply quiet_ret.
Qed.

Lemma quiet__fetch (this : TMDBClient) (endpoint : string) (params : list (string * JsVal)) :
  console_blind (_fetch this endpoint params).
Proof. by intros f w. Qed.

Lemma quiet_getImdbId_begin (kind : Kind) (this : TMDBClient) (tmdbId : Z) :
  console_blind (getImdbId_begin kind this tmdbId).
Proof.
  intros f w. rewrite !getImdbId_begin_run. cbn [set_console imdbCache requests].
  by destruct (imdbCache w !! imdbKey kind tmdbId).
Qed.

Lemma quiet_getImdbId_end (kind : Kind) (tmdbId : Z) (l : Lookup) :
  console_blind (getImdbId_end kind tmdbId l).
Proof.
  intros f w. destruct l as [v|ticket url]; [done|].
  rewrite !getImdbId_end_run. cbn [set_console upstream].
  by destruct (reply_data _).
Qed.

Lemma quiet_format_begin (kind : Kind) (this : TMDBClient) (record : option Raw.t) :
  console_blind (format_begin kind this record).
Proof.
  unfold format_begin. destruct record as [r|]; [|apply quiet_ret].
  destruct (Raw.id r) as [tmdbId|]; [|apply quiet_ret].
  destruct (tmdbId =? 0); [apply quiet_ret|].
  apply quiet_bind; [apply quiet_getImdbId_begin|]. intros l. apply quiet_ret.
Qed.

Lemma quiet_format_end (kind : Kind) (f : Formatting) : console_blind (format_end kind f).
Proof.
  unfold format_end. destruct f as [|r tmdbId l]; [apply quiet_ret|].
  apply quiet_bind; [apply quiet_getImdbId_end|].
  intros [s|]; [|apply quiet_ret]. destruct (truthy_str (Some s)); apply quiet_ret.
Qed.

Lemma quiet_listing (kind : Kind) (this : TMDBClient) (endpoint : string)
    (params : list (string * JsVal)) :
  console_blind (listing kind this endpoint params).
Proof.
  unfold listing. apply quiet_bind; [apply quiet__fetch|]. intros data.
  destruct (results data) as [records|]; [|apply quiet_throw].
  apply quiet_bind; [|intros; apply quiet_ret].
  unfold Promise_all_map. apply quiet_bind.
  - apply quiet_mapM. intros record. apply quiet_format_begin.
  - intros pending. apply quiet_mapM. intros f. apply quiet_format_end.
Qed.

Lemma handler_miss (tmdb : TMDBClient) (args : Args) (c : Catalog) (key : string)
    (kind : Kind) (endpoint : string) (params : list (string * JsVal)) (w : World) :
  assoc (catalogId_of args) (CATALOGS tmdb) = Some c ->
  fetch c (page_of (args_extra args)) = cached key (listing kind tmdb endpoint params) ->
  fresh key w = false ->
  let run := listing kind tmdb endpoint params w in
  let after := snd (defineCatalogHandler tmdb args w) in
  fst (defineCatalogHandler tmdb args w)
  = Ok [("metas", match fst run with Ok d => d | Thrown _ => [] end)]
  /\ requests after = requests (snd run)
  /\ imdbCache after = imdbCache (snd run)
  /\ clock after = clock (snd run)
  /\ (forall key' : string, key' <> key -> cache after !! key' = cache w !! key').
Proof.
  intros Hc Hfetch Hstale run after. subst run after.
  rewrite (handler_registered _ _ _ _ Hc). unfold dispatch. rewrite Hfetch, cached_run.
  change (fresh key (requested args w)) with (fresh key w). rewrite Hstale.
  unfold recompute, logged, requested.
  rewrite !(quiet_listing kind tmdb endpoint params).
  pose proof (blind_cache_kept _ w (blind_listing kind tmdb endpoint params)) as Hkept.
  destruct (listing kind tmdb endpoint params w) as [[d|e] w']; cbn [fst snd] in *.
  - split; [done|]. split; [done|]. split; [done|]. split; [done|].
    intros key' Hne. cbn [set_console set_cache cache].
    by rewrite lookup_insert_ne, Hkept.
  - split; [done|]. split; [done|]. split; [done|]. split; [done|].
    intros key' Hne. cbn [set_console cache]. by rewrite Hkept.
Qed.

(** X18: the catalogues [thriller-series] and [crime-series] are the same
    listing under two cache keys.  Asked for the same page in the same state,
    with neither entry fresh, the handler sends the same requests for both
    and answers both with the same metas (whatever the [type] of the
    request); and having served one does not serve the other: asked for it
    right after, the handler sends the same first request upstream again. *)
Theorem thriller_series_is_crime_series (tmdb : TMDBClient) (type1 type2 : string)
    (extra : option Extra) (w : World) :
  let page := page_of extra in
  let thriller := mkArgs type1 "cataloog-bp-thriller-series" extra in
  let crime := mkArgs type2 "cataloog-bp-crime-series" extra in
  fresh (call_key (Call_SeriesByGenre 80 page)) w = false ->
  fresh (call_key (Call_CrimeSeries page)) w = false ->
  let w1 := snd (defineCatalogHandler tmdb thriller w) in
  fst (defineCatalogHandler tmdb thriller w) = fst (defineCatalogHandler tmdb crime w)
  /\ requests w1 = requests (snd (defineCatalogHandler tmdb crime w))
  /\ imdbCache w1 = imdbCache (snd (defineCatalogHandler tmdb crime w))
  /\ exists (url : Url) (more more' : list Url),
       requests w1 = requests w ++ url :: more
       /\ requests (snd (defineCatalogHandler tmdb crime w1)) = requests w1 ++ url :: more'.
Proof.
  intros page thriller crime Hstale1 Hstale2 w1. subst w1.
  set (params := [ ("page", VNum page); ("with_genres", VNum 80);
                   ("sort_by", VStr "popularity.desc"); ("vote_count.gte", VNum 50) ]).
  assert (H1 : exists c : Catalog,
            assoc (catalogId_of thriller) (CATALOGS tmdb) = Some c
            /\ fetch c page
               = cached (call_key (Call_SeriesByGenre 80 page))
                   (listing Series tmdb "/discover/tv" params))
    by (eexists; split; reflexivity).
  assert (H2 : exists c : Catalog,
            assoc (catalogId_of crime) (CATALOGS tmdb) = Some c
            /\ fetch c page
               = cached (call_key (Call_CrimeSeries page))
                   (listing Series tmdb "/discover/tv" params))
    by (eexists; split; reflexivity).
  destruct H1 as (c1 & Hc1 & Hf1), H2 as (c2 & Hc2 & Hf2).
  destruct (handler_miss tmdb thriller c1 _ _ _ _ w Hc1 Hf1 Hstale1)
    as (Hr1 & Hq1 & Hi1 & Ht1 & Hk1).
  destruct (handler_miss tmdb crime c2 _ _ _ _ w Hc2 Hf2 Hstale2)
    as (Hr2 & Hq2 & Hi2 & _).
  split; [by rewrite Hr1, Hr2|]. split; [by rewrite Hq1, Hq2|].
  split; [by rewrite Hi1, Hi2|].
  destruct (listing_sends_first Series tmdb "/discover/tv" params w) as [more Hmore].
  set (w1 := snd (defineCatalogHandler tmdb thriller w)) in *.
  assert (Hstale : fresh (call_key (Call_CrimeSeries page)) w1 = false).
  { unfold fresh in Hstale2 |- *. rewrite Hk1.
    - destruct (cache w !! call_key (Call_CrimeSeries page)) as [e|]; [|done].
      rewrite Z.ltb_ge in Hstale2 |- *. rewrite Ht1.
      pose proof (listing_evolves Series tmdb "/discover/tv" params w)
        as (_ & _ & _ & Hclock & _). lia.
    - intros Heq. apply call_key_inj in Heq. discriminate Heq. }
  destruct (handler_miss tmdb crime c2 _ _ _ _ w1 Hc2 Hf2 Hstale) as (_ & Hq3 & _).
  destruct (listing_sends_first Series tmdb "/discover/tv" params w1) as [more' Hmore'].
  exists (request_url tmdb "/discover/tv" params), more, more'.
  split; [by rewrite Hq1|]. by rewrite Hq3.
Qed.

Lemma thriller_series_is_crime_series_witness :
  fst (defineCatalogHandler Sample.tmdb
         (mkArgs "series" "cataloog-bp-thriller-series" None) Sample.world)
  = fst (defineCatalogHandler Sample.tmdb
           (mkArgs "series" "cataloog-bp-crime-series" None) Sample.world).
Proof.
  destruct (thriller_series_is_crime_series Sample.tmdb "series" "series" None Sample.world)
    as (Hsame & _).
  - reflexivity.
  - reflexivity.
  - exact Hsame.
Defined.

(** ** The type of a request *)

(** X19: the handler never looks at the [type] of a request, it only logs
    it: two requests that differ by their type alone get the same reply, send
    the same upstream requests and leave the same caches and clock, and they
    log the same lines but for the first one, which states the type. *)
Theorem request_type_is_only_logged (tmdb : TMDBClient) (type1 type2 id : string)
    (extra : option Extra) (w : World) :
  let run1 := defineCatalogHandler tmdb (mkArgs type1 id extra) w in
  let run2 := defineCatalogHandler tmdb (mkArgs type2 id extra) w in
  fst run1 = fst run2
  /\ requests (snd run1) = requests (snd run2)
  /\ cache (snd run1) = cache (snd run2)
  /\ imdbCache (snd run1) = imdbCache (snd run2)
  /\ clock (snd run1) = clock (snd run2)
  /\ exists lines : list LogLine,
       console (snd run1) = console w ++ CatalogRequested id type1 :: lines
       /\ console (snd run2) = console w ++ CatalogRequested id type2 :: lines.
Proof.
  intros run1 run2. subst run1 run2.
  set (args1 := mkArgs type1 id extra). set (args2 := mkArgs type2 id extra).
  change (catalogId_of args2) with (catalogId_of args1).
  destruct (CATALOGS_get tmdb (catalogId_of args1)) as [c| |] eqn:Hget.
  - apply CATALOGS_get_own in Hget.
    rewrite (handler_registered tmdb args1 c w Hget), (handler_registered tmdb args2 c w Hget).
    unfold dispatch. cbn [args1 args2 args_extra args_id].
    destruct (catalog_fetch_cached tmdb _ c (page_of extra) Hget)
      as (key & kind & endpoint & params & ->).
    rewrite !cached_run.
    change (fresh key (requested args1 w)) with (fresh key w).
    change (fresh key (requested args2 w)) with (fresh key w).
    destruct (fresh key w).
    + repeat (split; [reflexivity|]). eexists.
      cbn [snd logged requested set_console console args1 args2 args_id args_type].
      rewrite <- !app_assoc. split; reflexivity.
    + unfold recompute, logged, requested.
      rewrite !(quiet_listing kind tmdb endpoint params).
      pose proof (listing_console kind tmdb endpoint params w) as Hquiet.
      destruct (listing kind tmdb endpoint params w) as [[d|e] w']; cbn [fst snd] in *.
      * repeat (split; [reflexivity|]). eexists.
        cbn [set_console set_cache console args1 args2 args_id args_type].
        rewrite Hquiet, <- !app_assoc. split; reflexivity.
      * repeat (split; [reflexivity|]). eexists.
        cbn [set_console set_cache console args1 args2 args_id args_type].
        rewrite Hquiet, <- !app_assoc. split; reflexivity.
  - rewrite (handler_inherited tmdb args1 w), (handler_inherited tmdb args2 w) by exact Hget.
    repeat (split; [reflexivity|]). eexists.
    cbn [snd requested set_console console args1 args2 args_id args_type].
    rewrite <- !app_assoc. split; reflexivity.
  - rewrite (handler_undefined tmdb args1 w), (handler_undefined tmdb args2 w) by exact Hget.
    repeat (split; [reflexivity|]). eexists.
    cbn [snd requested set_console console args1 args2 args_id args_type].
    rewrite <- !app_assoc. split; reflexivity.
Qed.
